(** * rag-evaluator: the GQM aggregation core

    A shallow embedding of [rag_evaluator/framework/gqm.py],
    [framework/metric_executor.py], [framework/evaluation_data.py],
    [framework/pipeline.py] and of the pieces of [config.py] and
    [constants.py] they use; then of the code around this core: the metric
    mapper ([framework/llm_metric_mapper.py]), the environment
    configuration ([config.py]), question generation and its cache
    ([generators/]), the Gemini client instance ([clients/]) and the
    metrics of [metrics/system_metrics.py] and [context_precision].

    Conventions of the embedding.
    - Python [float] values are modelled by exact rationals ([Qc]); rounding,
      infinities and NaN are outside the model.  Division is Python's
      [/]: it raises [ZeroDivisionError] on a zero divisor.  A metric
      value is a Python [float], as [float(value)] makes it; the
      [np.float64] that the dict of a metric may carry, whose division by
      zero yields nan instead of raising, is outside the model.
    - A Python expression that may raise is a [result]; a method that also
      reads or writes the framework (cache, logger) or the outside world
      (RAG system, metric back ends) is a computation [M] over [state].
    - A [dict] that is iterated ([QuestionConfig.metrics], the output of
      [to_dict]) is an association list in insertion order; the metric
      cache, only ever looked up by key, is a [gmap]. *)

From Stdlib Require Import QArith Qcanon.
From stdpp Require Import base numbers option list strings gmap.
From stdpp Require Import pretty.

Local Open Scope Qc_scope.

(** ** Python values and exceptions *)

Inductive exn : Type :=
  | ZeroDivisionError
  | TypeError
  | ValueError
  | RuntimeError (msg : string).

Inductive result (A : Type) : Type :=
  | Ok (a : A)
  | Raise (e : exn).
Arguments Ok {A} a.
Arguments Raise {A} e.

Definition rbind {A B} (r : result A) (k : A → result B) : result B :=
  match r with
  | Ok a => k a
  | Raise e => Raise e
  end.

Declare Scope result_scope.
Delimit Scope result_scope with res.
Notation "'let!' x ':=' r 'in' k" := (rbind r (λ x, k))
  (at level 10, x name, r at level 100, k at level 200) : result_scope.
Local Open Scope result_scope.

(** Values that [json.dump] can write. *)
#[warnings="-register-all"] Inductive json : Type :=
  | JNull
  | JBool (b : bool)
  | JNum (x : Qc)
  | JStr (s : string)
  | JList (items : list json)
  | JDict (fields : list (string * json)).

Definition qc (n : Z) (d : positive) : Qc := Q2Qc (Qmake n d).

Module Py.

(** [sum(xs)]: left to right, from the integer 0. *)
Definition sum (xs : list Qc) : Qc := foldl Qcplus 0 xs.

(** [x / y] on floats. *)
Definition truediv (x y : Qc) : result Qc :=
  if decide (y = 0) then Raise ZeroDivisionError else Ok (x / y).

(** [0 < y], as a boolean. *)
Definition gt0 (y : Qc) : bool := bool_decide (0 < y).

(** [sum(f(x) for x in xs)] where [f] may raise: the generator is
    consumed in order and the first exception ends the sum. *)
Fixpoint sum_gen {A} (f : A → result Qc) (acc : Qc) (xs : list A)
  : result Qc :=
  match xs with
  | [] => Ok acc
  | x :: xs' => let! v := f x in sum_gen f (acc + v) xs'
  end.

(** [d.get(k)] on an insertion-ordered dict. *)
Fixpoint get {V} (d : list (string * V)) (k : string) : option V :=
  match d with
  | [] => None
  | (k', v) :: d' => if decide (k' = k) then Some v else get d' k
  end.

End Py.

(** ** The result tree ([gqm.py], lines 18-75) *)

Module MetricResult.
Record t : Type := make {
  metric_id : string;
  value : Qc;
  weight : Qc;
  individual_scores : option (list json)
}.
Definition has_details (m : t) : bool :=
  match individual_scores m with Some _ => true | None => false end.
End MetricResult.

Module QuestionResult.
Record t : Type := make {
  question_text : string;
  metrics : list MetricResult.t;
  weight : Qc
}.

Definition score (self : t) : result Qc :=
  match metrics self with
  | [] => Ok 0
  | _ =>
      let total_weight := Py.sum (MetricResult.weight <$> metrics self) in
      let weighted_sum :=
        Py.sum ((λ m, MetricResult.value m * MetricResult.weight m)
                  <$> metrics self) in
      Py.truediv weighted_sum total_weight
  end.
End QuestionResult.

Module GoalResult.
Record t : Type := make {
  goal_name : string;
  questions : list QuestionResult.t;
  weight : Qc
}.

Definition score (self : t) : result Qc :=
  match questions self with
  | [] => Ok 0
  | _ =>
      let total_weight := Py.sum (QuestionResult.weight <$> questions self) in
      let! weighted_sum :=
        Py.sum_gen
          (λ q, let! s := QuestionResult.score q in
                Ok (s * QuestionResult.weight q))
          0 (questions self) in
      if Py.gt0 total_weight
      then Py.truediv weighted_sum total_weight
      else Ok 0
  end.
End GoalResult.

Module EvaluationResult.
Record t : Type := make {
  goals : list GoalResult.t
}.

Definition score (self : t) : result Qc :=
  match goals self with
  | [] => Ok 0
  | _ =>
      let total_weight := Py.sum (GoalResult.weight <$> goals self) in
      let! weighted_sum :=
        Py.sum_gen
          (λ g, let! s := GoalResult.score g in
                Ok (s * GoalResult.weight g))
          0 (goals self) in
      if Py.gt0 total_weight
      then Py.truediv weighted_sum total_weight
      else Ok 0
  end.
End EvaluationResult.

(** ** Serialization ([EvaluationResult.to_dict], [gqm.py] lines 77-106) *)

Fixpoint rmapM {A B} (f : A → result B) (xs : list A) : result (list B) :=
  match xs with
  | [] => Ok []
  | x :: xs' =>
      let! y := f x in
      let! ys := rmapM f xs' in
      Ok (y :: ys)
  end.

Definition metric_to_dict (metric : MetricResult.t) : json :=
  JDict ([("id", JStr (MetricResult.metric_id metric));
          ("value", JNum (MetricResult.value metric));
          ("weight", JNum (MetricResult.weight metric))]
         ++ (if MetricResult.has_details metric
             then [("individual_scores",
                    match MetricResult.individual_scores metric with
                    | Some rows => JList rows
                    | None => JNull
                    end)]
             else [])).

Definition question_to_dict (question : QuestionResult.t) : result json :=
  let! s := QuestionResult.score question in
  Ok (JDict [("text", JStr (QuestionResult.question_text question));
             ("score", JNum s);
             ("weight", JNum (QuestionResult.weight question));
             ("metrics",
              JList (metric_to_dict <$> QuestionResult.metrics question))]).

Definition goal_to_dict (goal : GoalResult.t) : result json :=
  let! s := GoalResult.score goal in
  let! qs := rmapM question_to_dict (GoalResult.questions goal) in
  Ok (JDict [("name", JStr (GoalResult.goal_name goal));
             ("score", JNum s);
             ("weight", JNum (GoalResult.weight goal));
             ("questions", JList qs)]).

Definition to_dict (self : EvaluationResult.t) : result json :=
  let! s := EvaluationResult.score self in
  let! gs := rmapM goal_to_dict (EvaluationResult.goals self) in
  Ok (JDict [("overall_score", JNum s); ("goals", JList gs)]).


(** ** Reading a serialized document back *)

Definition json_field (j : json) (k : string) : option json :=
  match j with
  | JDict fields => Py.get fields k
  | _ => None
  end.

Definition json_num (j : json) : option Qc :=
  match j with JNum x => Some x | _ => None end.

Definition json_items (j : json) : option (list json) :=
  match j with JList items => Some items | _ => None end.

(** The (score, weight) pair an entry records; [score_key] is ["value"]
    for a metric entry and ["score"] for a question or goal entry. *)
Definition recorded (score_key : string) (entry : json) : option (Qc * Qc) :=
  s ← json_field entry score_key ≫= json_num;
  w ← json_field entry "weight" ≫= json_num;
  Some (s, w).

Definition recorded_children (list_key score_key : string) (entry : json)
  : option (list (Qc * Qc)) :=
  items ← json_field entry list_key ≫= json_items;
  mapM (recorded score_key) items.

(** ** The aggregate of the specification

    [weighted_average] is the formula sum(s_i*w_i)/sum(w_i) on a list of
    (score, weight) pairs; [total_weight] is its denominator. *)

Definition total_weight (ps : list (Qc * Qc)) : Qc := Py.sum (snd <$> ps).

Definition weighted_average (ps : list (Qc * Qc)) : Qc :=
  Py.sum ((λ p, p.1 * p.2) <$> ps) / total_weight ps.

Definition metric_pairs (q : QuestionResult.t) : list (Qc * Qc) :=
  (λ m, (MetricResult.value m, MetricResult.weight m))
    <$> QuestionResult.metrics q.

(** ** Configuration ([config.py]) and metric identifiers ([constants.py]) *)

Module QuestionConfig.
Record t : Type := make {
  text : string;
  weight : Qc;
  metrics : list (string * Qc)
}.
End QuestionConfig.

Module GoalConfig.
Record t : Type := make {
  name : string;
  weight : Qc;
  questions : list QuestionConfig.t
}.
End GoalConfig.

Module EvaluationConfig.
Record t : Type := make {
  goals : list GoalConfig.t
}.
End EvaluationConfig.

Module Config.
Record t : Type := make {
  return_detailed_results : bool;
  use_metric_mapper : bool
}.
End Config.

Inductive MetricId : Type :=
  | CONTEXT_PRECISION
  | CONTEXT_RECALL
  | CONTEXT_RELEVANCE
  | CONTEXT_ENTITIES_RECALL
  | FAITHFULNESS
  | FACTUAL_CONSISTENCY
  | ANSWER_RELEVANCE
  | BERTSCORE
  | ANSWER_CORRECTNESS
  | SEMANTIC_DIVERSITY
  | ATTRIBUTION_SCORE
  | ANSWER_COMPLETENESS
  | SELF_CONSISTENCY
  | MULTI_HOP_REASONING
  | CONTEXT_UTILIZATION.

Definition MetricId_members : list MetricId :=
  [CONTEXT_PRECISION; CONTEXT_RECALL; CONTEXT_RELEVANCE;
   CONTEXT_ENTITIES_RECALL; FAITHFULNESS; FACTUAL_CONSISTENCY;
   ANSWER_RELEVANCE; BERTSCORE; ANSWER_CORRECTNESS; SEMANTIC_DIVERSITY;
   ATTRIBUTION_SCORE; ANSWER_COMPLETENESS; SELF_CONSISTENCY;
   MULTI_HOP_REASONING; CONTEXT_UTILIZATION].

Definition MetricId_value (m : MetricId) : string :=
  match m with
  | CONTEXT_PRECISION => "context_precision"
  | CONTEXT_RECALL => "context_recall"
  | CONTEXT_RELEVANCE => "context_relevance"
  | CONTEXT_ENTITIES_RECALL => "context_entities_recall"
  | FAITHFULNESS => "faithfulness"
  | FACTUAL_CONSISTENCY => "factual_consistency"
  | ANSWER_RELEVANCE => "answer_relevance"
  | BERTSCORE => "bertscore"
  | ANSWER_CORRECTNESS => "answer_correctness"
  | SEMANTIC_DIVERSITY => "semantic_diversity"
  | ATTRIBUTION_SCORE => "attribution_score"
  | ANSWER_COMPLETENESS => "answer_completeness"
  | SELF_CONSISTENCY => "self_consistency"
  | MULTI_HOP_REASONING => "multi_hop_reasoning"
  | CONTEXT_UTILIZATION => "context_utilization"
  end.

(** [MetricId(metric_id)]: the member whose value is the string, or
    [ValueError]. *)
Definition MetricId_of_value (metric_id : string) : result MetricId :=
  match list_find (λ m, MetricId_value m = metric_id) MetricId_members with
  | Some (_, m) => Ok m
  | None => Raise ValueError
  end.

(** ** Evaluation data ([evaluation_data.py], [adapters/langchain.py]) *)

Definition Document : Type := string.

Module TestCase.
Record t : Type := make {
  question : string;
  ground_truth : string;
  question_type : string;
  entities : list string
}.
End TestCase.

Module TestCaseResult.
Record t : Type := make {
  query : string;
  generated_answer : string;
  retrieved_documents : list Document;
  ground_truth : string;
  entities : list string;
  question_type : string
}.
End TestCaseResult.

Module EvaluationData.
Record t : Type := make {
  test_case_results : list TestCaseResult.t
}.
End EvaluationData.

Module RAGResult.
Record t : Type := make {
  query : string;
  answer : string;
  retrieved_documents : list Document
}.
End RAGResult.

(** What a metric function returns: the "no data" sentinel [None], a bare
    float, or a dict; in the dict a key that is absent is [None] here. *)
Inductive metric_return : Type :=
  | RNone
  | RFloat (x : Qc)
  | RDict (score : option Qc) (individual_scores : option (list json)).

Definition is_dict (v : metric_return) : bool :=
  match v with RDict _ _ => true | _ => false end.

(** [value.get("score", 0.0)] and [value.get("individual_scores")] on a
    dict. *)
Definition dict_get_score (v : metric_return) : Qc :=
  match v with RDict score _ => default 0 score | _ => 0 end.

Definition dict_get_individual_scores (v : metric_return)
  : option (list json) :=
  match v with RDict _ individual_scores => individual_scores | _ => None end.

(** [float(value)] *)
Definition float_of (v : metric_return) : result Qc :=
  match v with
  | RFloat x => Ok x
  | RDict _ _ => Raise TypeError
  | RNone => Raise TypeError
  end.

Module CachedMetricResult.
Record t : Type := make {
  metric_id : string;
  value : Qc;
  individual_scores : option (list json)
}.
End CachedMetricResult.

(** ** Logging *)

Inductive level : Type := INFO | WARNING | ERROR.

Inductive event : Type :=
  | RunningTestCases (n : nat)
  | TestCaseFailed (question : string) (e : exn)
  | UsingCachedResult (metric_id : string)
  | ExecutingMetric (metric_id : string)
  | MetricExecuted (metric_id : string) (value : metric_return)
  | MetricFailed (metric_id : string) (e : exn)
  | UnknownMetricId (metric_id : string)
  | NoFunctionDefined (metric : MetricId)
  | ExecutorMetricFailed (metric_id : string) (e : exn)
  | EvaluatingQuestion (text : string)
  | EvaluatingGoal (name : string)
  | StartingEvaluation (n_goals : nat)
  | UnloadingRagSystem
  | RagSystemUnloaded
  | UnloadError (e : exn)
  | PipelineStarting
  | PipelineUsingTestCases (n : nat)
  | PipelineCompleted
  | PipelineOverallScore (score : Qc).

(** ** External collaborators

    The RAG system under test, the fifteen metric functions of
    [rag_evaluator.metrics] and the process-wide [get_config()] are outside
    the core.  Each call may fail and may change the outside [world]. *)

Class Collaborators : Type := {
  world : Type;
  effect (A : Type) : Type := world → result A * world;
  rag_system_query : string → effect RAGResult.t;
  rag_system_unload : effect ();
  get_config : Config.t;
  context_precision : EvaluationData.t → effect metric_return;
  context_recall : EvaluationData.t → effect metric_return;
  context_relevance : EvaluationData.t → effect metric_return;
  context_entities_recall : EvaluationData.t → effect metric_return;
  faithfulness : EvaluationData.t → effect metric_return;
  factual_consistency : EvaluationData.t → effect metric_return;
  answer_relevance : EvaluationData.t → effect metric_return;
  bertscore : EvaluationData.t → effect metric_return;
  answer_correctness : EvaluationData.t → effect metric_return;
  semantic_diversity : EvaluationData.t → effect metric_return;
  attribution_score : EvaluationData.t → effect metric_return;
  answer_completeness : EvaluationData.t → effect metric_return;
  self_consistency_score : EvaluationData.t → effect metric_return;
  multi_hop_reasoning_score : EvaluationData.t → effect metric_return;
  context_utilization_rate : EvaluationData.t → effect metric_return
}.

(** ** Framework state and its monad

    [metric_cache] is [GQMFramework._metric_cache]; [log] is what the
    loggers received, oldest first.  [executed] and [queried] are
    instrumentation: the [metric_id] of every call of
    [MetricExecutor.execute_metric] and the text of every call of
    [rag_system.query], oldest first. *)

Record state `{Collaborators} : Type := State {
  metric_cache : gmap string CachedMetricResult.t;
  outside : world;
  log : list (level * event);
  executed : list string;
  queried : list string
}.
Arguments State {_} _ _ _ _ _.

Section Framework.
Context `{Collaborators}.

Definition M (A : Type) : Type := state → result A * state.

Definition ret {A} (a : A) : M A := λ s, (Ok a, s).

Definition raise {A} (e : exn) : M A := λ s, (Raise e, s).

Definition bind {A B} (c : M A) (k : A → M B) : M B :=
  λ s, match c s with
       | (Ok a, s') => k a s'
       | (Raise e, s') => (Raise e, s')
       end.

(** [try: c except Exception as e: h e] *)
Definition catch {A} (c : M A) (h : exn → M A) : M A :=
  λ s, match c s with
       | (Ok a, s') => (Ok a, s')
       | (Raise e, s') => h e s'
       end.

Definition lift {A} (r : result A) : M A := λ s, (r, s).

(** A call into the outside world. *)
Definition call {A} (f : effect A) : M A :=
  λ s, let '(r, w) := f (outside s) in
       (r, State (metric_cache s) w (log s) (executed s) (queried s)).

Definition logger (l : level) (e : event) : M () :=
  λ s, (Ok (), State (metric_cache s) (outside s) (log s ++ [(l, e)])
                     (executed s) (queried s)).

Definition read_metric_cache : M (gmap string CachedMetricResult.t) :=
  λ s, (Ok (metric_cache s), s).

(** [self._metric_cache[metric_id] = cached_result] *)
Definition store_metric_cache (metric_id : string)
    (cached_result : CachedMetricResult.t) : M () :=
  λ s, (Ok (), State (<[metric_id := cached_result]> (metric_cache s))
                     (outside s) (log s) (executed s) (queried s)).

Definition note_executed (metric_id : string) : M () :=
  λ s, (Ok (), State (metric_cache s) (outside s) (log s)
                     (executed s ++ [metric_id]) (queried s)).

Definition note_queried (question : string) : M () :=
  λ s, (Ok (), State (metric_cache s) (outside s) (log s)
                     (executed s) (queried s ++ [question])).

End Framework.

Declare Scope M_scope.
Delimit Scope M_scope with M.
Notation "'let*' x ':=' c 'in' k" := (bind c (λ x, k))
  (at level 10, x name, c at level 100, k at level 200) : M_scope.
Notation "c ';;' k" := (bind c (λ _, k))
  (at level 100, k at level 200, right associativity) : M_scope.

Section Methods.
Context `{Collaborators}.
Local Open Scope M_scope.

(** [for x in xs: acc = body x acc], the loops that append to a list. *)
Fixpoint for_each {A S} (xs : list A) (body : A → S → M S) (acc : S) : M S :=
  match xs with
  | [] => ret acc
  | x :: xs' => let* acc' := body x acc in for_each xs' body acc'
  end.

(** *** [MetricExecutor] ([metric_executor.py]) *)

(** The table of lines 20-36. *)
Definition metric_functions (metric_enum : MetricId)
  : option (EvaluationData.t → M metric_return) :=
  match metric_enum with
  | CONTEXT_PRECISION => Some (λ d, call (context_precision d))
  | CONTEXT_RECALL => Some (λ d, call (context_recall d))
  | CONTEXT_RELEVANCE => Some (λ d, call (context_relevance d))
  | CONTEXT_ENTITIES_RECALL => Some (λ d, call (context_entities_recall d))
  | FAITHFULNESS => Some (λ d, call (faithfulness d))
  | FACTUAL_CONSISTENCY => Some (λ d, call (factual_consistency d))
  | ANSWER_RELEVANCE => Some (λ d, call (answer_relevance d))
  | BERTSCORE => Some (λ d, call (bertscore d))
  | ANSWER_CORRECTNESS => Some (λ d, call (answer_correctness d))
  | SEMANTIC_DIVERSITY => Some (λ d, call (semantic_diversity d))
  | ATTRIBUTION_SCORE => Some (λ d, call (attribution_score d))
  | ANSWER_COMPLETENESS => Some (λ d, call (answer_completeness d))
  | SELF_CONSISTENCY => Some (λ d, call (self_consistency_score d))
  | MULTI_HOP_REASONING => Some (λ d, call (multi_hop_reasoning_score d))
  | CONTEXT_UTILIZATION => Some (λ d, call (context_utilization_rate d))
  end.

Definition execute_metric (metric_id : string)
    (evaluation_data : EvaluationData.t) : M metric_return :=
  note_executed metric_id;;
  match MetricId_of_value metric_id with
  | Raise _ =>
      logger ERROR (UnknownMetricId metric_id);;
      ret (RFloat 0)
  | Ok metric_enum =>
      catch
        (match metric_functions metric_enum with
         | Some metric_function =>
             let* result := metric_function evaluation_data in
             ret result
         | None =>
             logger ERROR (NoFunctionDefined metric_enum);;
             ret (RFloat 0)
         end)
        (λ e,
           logger ERROR (ExecutorMetricFailed metric_id e);;
           ret (RFloat 0))
  end.

(** *** [GQMFramework] ([gqm.py], lines 120-269) *)

Definition _test_rag_system (test_cases : list TestCase.t)
  : M EvaluationData.t :=
  logger INFO (RunningTestCases (length test_cases));;
  let* test_case_results :=
    for_each test_cases
      (λ test_case test_case_results,
         catch
           (note_queried (TestCase.question test_case);;
            let* rag_result :=
              call (rag_system_query (TestCase.question test_case)) in
            ret (test_case_results ++
                 [TestCaseResult.make
                    (TestCase.question test_case)
                    (RAGResult.answer rag_result)
                    (RAGResult.retrieved_documents rag_result)
                    (TestCase.ground_truth test_case)
                    (TestCase.entities test_case)
                    (TestCase.question_type test_case)]))
           (λ e,
              logger ERROR
                (TestCaseFailed (TestCase.question test_case) e);;
              ret (test_case_results ++
                   [TestCaseResult.make
                      (TestCase.question test_case)
                      EmptyString
                      []
                      (TestCase.ground_truth test_case)
                      (TestCase.entities test_case)
                      (TestCase.question_type test_case)])))
      [] in
  ret (EvaluationData.make test_case_results).

Definition _get_or_execute_metric (metric_id : string) (weight : Qc)
    (evaluation_data : EvaluationData.t) : M (option MetricResult.t) :=
  let* cache := read_metric_cache in
  match cache !! metric_id with
  | Some cached_result =>
      logger INFO (UsingCachedResult metric_id);;
      ret (Some (MetricResult.make metric_id
                   (CachedMetricResult.value cached_result)
                   weight
                   (CachedMetricResult.individual_scores cached_result)))
  | None =>
      logger INFO (ExecutingMetric metric_id);;
      catch
        (let* value := execute_metric metric_id evaluation_data in
         match value with
         | RNone => ret None
         | _ =>
             logger INFO (MetricExecuted metric_id value);;
             let* normalized :=
               if is_dict value && Config.return_detailed_results get_config
               then ret (dict_get_score value, dict_get_individual_scores value)
               else let* score := lift (float_of value) in
                    ret (score, None) in
             store_metric_cache metric_id
               (CachedMetricResult.make metric_id normalized.1 normalized.2);;
             ret (Some (MetricResult.make metric_id normalized.1 weight
                          normalized.2))
         end)
        (λ e,
           logger ERROR (MetricFailed metric_id e);;
           raise e)
  end.

Definition evaluate_question (question_config : QuestionConfig.t)
    (evaluation_data : EvaluationData.t) : M QuestionResult.t :=
  logger INFO (EvaluatingQuestion (QuestionConfig.text question_config));;
  let* metric_results :=
    for_each (QuestionConfig.metrics question_config)
      (λ item metric_results,
         let* metric_result :=
           _get_or_execute_metric item.1 item.2 evaluation_data in
         match metric_result with
         | Some r => ret (metric_results ++ [r])
         | None => ret metric_results
         end)
      [] in
  ret (QuestionResult.make (QuestionConfig.text question_config)
         metric_results (QuestionConfig.weight question_config)).

Definition evaluate_goal (goal_config : GoalConfig.t)
    (evaluation_data : EvaluationData.t) : M GoalResult.t :=
  logger INFO (EvaluatingGoal (GoalConfig.name goal_config));;
  let* question_results :=
    for_each (GoalConfig.questions goal_config)
      (λ question_config question_results,
         let* result := evaluate_question question_config evaluation_data in
         ret (question_results ++ [result]))
      [] in
  ret (GoalResult.make (GoalConfig.name goal_config) question_results
         (GoalConfig.weight goal_config)).

Definition _unload_rag_system : M () :=
  catch
    (call rag_system_unload;;
     logger INFO RagSystemUnloaded)
    (λ e, logger WARNING (UnloadError e)).

(** The pause [time.sleep(5)] between unloading the RAG system and the
    loop over the goals changes nothing in the state and is left out. *)
Definition evaluate (config : EvaluationConfig.t)
    (test_cases : list TestCase.t) : M EvaluationResult.t :=
  logger INFO (StartingEvaluation (length (EvaluationConfig.goals config)));;
  let* evaluation_data := _test_rag_system test_cases in
  logger INFO UnloadingRagSystem;;
  _unload_rag_system;;
  let* goal_results :=
    for_each (EvaluationConfig.goals config)
      (λ goal_config goal_results,
         let* result := evaluate_goal goal_config evaluation_data in
         ret (goal_results ++ [result]))
      [] in
  ret (EvaluationResult.make goal_results).

(** [GQMFramework.__init__]: a fresh framework, in the world [w]. *)
Definition GQMFramework_init (w : world) : state := State ∅ w [] [] [].

(** *** [EvaluationPipeline.evaluate] ([pipeline.py], lines 57-74), called
    with explicit test cases. *)
Definition pipeline_evaluate (config : EvaluationConfig.t)
    (test_cases : list TestCase.t) : M EvaluationResult.t :=
  logger INFO PipelineStarting;;
  logger INFO (PipelineUsingTestCases (length test_cases));;
  let* result := evaluate config test_cases in
  logger INFO PipelineCompleted;;
  let* overall := lift (EvaluationResult.score result) in
  logger INFO (PipelineOverallScore overall);;
  ret result.

End Methods.

(** ** Vocabulary of the properties *)

Section Vocabulary.
Context `{Collaborators}.

(** The metric function behind a member of [MetricId] (the right-hand
    sides of the table in [execute_metric]). *)
Definition metric_function_of (metric_enum : MetricId)
  : EvaluationData.t → effect metric_return :=
  match metric_enum with
  | CONTEXT_PRECISION => context_precision
  | CONTEXT_RECALL => context_recall
  | CONTEXT_RELEVANCE => context_relevance
  | CONTEXT_ENTITIES_RECALL => context_entities_recall
  | FAITHFULNESS => faithfulness
  | FACTUAL_CONSISTENCY => factual_consistency
  | ANSWER_RELEVANCE => answer_relevance
  | BERTSCORE => bertscore
  | ANSWER_CORRECTNESS => answer_correctness
  | SEMANTIC_DIVERSITY => semantic_diversity
  | ATTRIBUTION_SCORE => attribution_score
  | ANSWER_COMPLETENESS => answer_completeness
  | SELF_CONSISTENCY => self_consistency_score
  | MULTI_HOP_REASONING => multi_hop_reasoning_score
  | CONTEXT_UTILIZATION => context_utilization_rate
  end.

(** What [execute_metric] hands back in the world [w], and the world it
    leaves. *)
Definition executor_outcome (metric_id : string) (d : EvaluationData.t)
    (w : world) : metric_return * world :=
  match MetricId_of_value metric_id with
  | Raise _ => (RFloat 0, w)
  | Ok metric_enum =>
      match metric_function_of metric_enum d w with
      | (Ok v, w') => (v, w')
      | (Raise _, w') => (RFloat 0, w')
      end
  end.


(** The computation of [metric_id] never answers "no data". *)
Definition yields_score (metric_id : string) : Prop :=
  ∀ d w, (executor_outcome metric_id d w).1 ≠ RNone.

(** Number of calls of [execute_metric] for [metric_id] so far. *)
Definition invocations (metric_id : string) (s : state) : nat :=
  length (filter (λ x, x = metric_id) (executed s)).

(** The questions of a configuration that reference [metric_id]. *)
Definition references (metric_id : string) (q : QuestionConfig.t) : bool :=
  bool_decide (metric_id ∈ (QuestionConfig.metrics q).*1).

Definition referencing_questions (metric_id : string)
    (config : EvaluationConfig.t) : nat :=
  length (filter (λ q, references metric_id q = true)
            (EvaluationConfig.goals config ≫= GoalConfig.questions)).

(** A [MetricResult] carries the [{value, individual_scores}] pair that
    the cache holds for its [metric_id]. *)
Definition from_cache (cache : gmap string CachedMetricResult.t)
    (m : MetricResult.t) : Prop :=
  ∃ c, cache !! MetricResult.metric_id m = Some c
       ∧ MetricResult.value m = CachedMetricResult.value c
       ∧ MetricResult.individual_scores m
         = CachedMetricResult.individual_scores c.

(** The record [_test_rag_system] appends for a test case: with the RAG
    system's answer, or the empty one of the [except] branch. *)
Definition answered (tc : TestCase.t) (r : RAGResult.t) : TestCaseResult.t :=
  TestCaseResult.make (TestCase.question tc) (RAGResult.answer r)
    (RAGResult.retrieved_documents r) (TestCase.ground_truth tc)
    (TestCase.entities tc) (TestCase.question_type tc).

Definition unanswered (tc : TestCase.t) : TestCaseResult.t :=
  TestCaseResult.make (TestCase.question tc) EmptyString []
    (TestCase.ground_truth tc) (TestCase.entities tc)
    (TestCase.question_type tc).

(** The world after the RAG system has been queried with each of [tcs] in
    turn, starting in [w]. *)
Definition world_after_queries (tcs : list TestCase.t) (w : world) : world :=
  foldl (λ w tc, (rag_system_query (TestCase.question tc) w).2) w tcs.

(** What [execute_metric] logs in the world [w]. *)
Definition executor_log (metric_id : string) (d : EvaluationData.t)
    (w : world) : list (level * event) :=
  match MetricId_of_value metric_id with
  | Raise _ => [(ERROR, UnknownMetricId metric_id)]
  | Ok metric_enum =>
      match metric_function_of metric_enum d w with
      | (Ok _, _) => []
      | (Raise e, _) => [(ERROR, ExecutorMetricFailed metric_id e)]
      end
  end.

(** [c] relates the state it starts in to the state it ends in by [R],
    whatever it returns. *)
Definition always {A} (R : state → state → Prop) (c : M A) : Prop :=
  ∀ s r s', c s = (r, s') → R s s'.

(** [s'] comes after [s]: the cache has only gained entries, and every
    metric executed in between had no entry in [s]. *)
Definition extends (s s' : state) : Prop :=
  metric_cache s ⊆ metric_cache s'
  ∧ ∃ new, executed s' = executed s ++ new
           ∧ ∀ metric_id, metric_id ∈ new → metric_cache s !! metric_id = None.

(** The result tree mirrors the configuration tree: goals and questions
    one for one and in order; the metrics of a question are those of its
    configured metrics that produced a result, in order, each with the
    question's configured weight and the cached pair, and none is missing
    whose computation yields a score. *)
Definition question_faithful (cache : gmap string CachedMetricResult.t)
    (qc : QuestionConfig.t) (qr : QuestionResult.t) : Prop :=
  QuestionResult.question_text qr = QuestionConfig.text qc
  ∧ QuestionResult.weight qr = QuestionConfig.weight qc
  ∧ sublist ((λ m, (MetricResult.metric_id m, MetricResult.weight m))
               <$> QuestionResult.metrics qr)
      (QuestionConfig.metrics qc)
  ∧ Forall (from_cache cache) (QuestionResult.metrics qr)
  ∧ ∀ metric_id w,
      yields_score metric_id →
      (metric_id, w) ∈ QuestionConfig.metrics qc →
      ∃ m, m ∈ QuestionResult.metrics qr
           ∧ MetricResult.metric_id m = metric_id
           ∧ MetricResult.weight m = w.

Definition goal_faithful (cache : gmap string CachedMetricResult.t)
    (gc : GoalConfig.t) (gr : GoalResult.t) : Prop :=
  GoalResult.goal_name gr = GoalConfig.name gc
  ∧ GoalResult.weight gr = GoalConfig.weight gc
  ∧ Forall2 (question_faithful cache)
      (GoalConfig.questions gc) (GoalResult.questions gr).

Definition result_faithful (cache : gmap string CachedMetricResult.t)
    (config : EvaluationConfig.t) (r : EvaluationResult.t) : Prop :=
  Forall2 (goal_faithful cache)
    (EvaluationConfig.goals config) (EvaluationResult.goals r).

(** The records [_test_rag_system] collects for [tcs] when the RAG system
    starts in the world [w]. *)
Fixpoint expected_results (tcs : list TestCase.t) (w : world)
  : list TestCaseResult.t :=
  match tcs with
  | [] => []
  | tc :: rest =>
      let r := rag_system_query (TestCase.question tc) w in
      match r.1 with
      | Ok rag_result => answered tc rag_result
      | Raise _ => unanswered tc
      end :: expected_results rest r.2
  end.

End Vocabulary.

(** ** Test doubles

    A deterministic stand-in for the collaborators: the world is trivial,
    the RAG system and the metric functions are pure tables. *)

Definition stub (config : Config.t) (rag : string → result RAGResult.t)
    (metric : MetricId → result metric_return) : Collaborators := {|
  world := ();
  rag_system_query q w := (rag q, w);
  rag_system_unload w := (Ok (), w);
  get_config := config;
  context_precision _ w := (metric CONTEXT_PRECISION, w);
  context_recall _ w := (metric CONTEXT_RECALL, w);
  context_relevance _ w := (metric CONTEXT_RELEVANCE, w);
  context_entities_recall _ w := (metric CONTEXT_ENTITIES_RECALL, w);
  faithfulness _ w := (metric FAITHFULNESS, w);
  factual_consistency _ w := (metric FACTUAL_CONSISTENCY, w);
  answer_relevance _ w := (metric ANSWER_RELEVANCE, w);
  bertscore _ w := (metric BERTSCORE, w);
  answer_correctness _ w := (metric ANSWER_CORRECTNESS, w);
  semantic_diversity _ w := (metric SEMANTIC_DIVERSITY, w);
  attribution_score _ w := (metric ATTRIBUTION_SCORE, w);
  answer_completeness _ w := (metric ANSWER_COMPLETENESS, w);
  self_consistency_score _ w := (metric SELF_CONSISTENCY, w);
  multi_hop_reasoning_score _ w := (metric MULTI_HOP_REASONING, w);
  context_utilization_rate _ w := (metric CONTEXT_UTILIZATION, w)
|}.

(** A RAG system that answers every question but ["broken"], on which it
    raises. *)
Definition sample_rag (q : string) : result RAGResult.t :=
  if decide (q = "broken")
  then Raise (RuntimeError "connection lost")
  else Ok (RAGResult.make q "an answer" ["a document"]).

(** Metric functions: two bare scores, one breakdown, one failure, one
    "no data". *)
Definition sample_metrics (m : MetricId) : result metric_return :=
  match m with
  | FAITHFULNESS => Ok (RFloat (qc 4 5))
  | BERTSCORE => Ok (RFloat (qc 2 5))
  | CONTEXT_RECALL =>
      Ok (RDict (Some (qc 9 10))
            (Some [JDict [("query", JStr "q"); ("score", JNum (qc 9 10))]]))
  | ANSWER_RELEVANCE => Raise (RuntimeError "malformed response")
  | MULTI_HOP_REASONING => Ok RNone
  | _ => Ok (RFloat (qc 1 2))
  end.

Definition plain_run : Collaborators :=
  stub (Config.make false false) sample_rag sample_metrics.

Definition detailed_run : Collaborators :=
  stub (Config.make true false) sample_rag sample_metrics.

(** Collaborators with a world that matters: the world says whether the
    LLM client can be built.  Without it every metric function raises;
    with it the functions are those of [sample_metrics].  No call changes
    the world. *)
Definition needs_client (m : MetricId) (w : bool)
  : result metric_return * bool :=
  (if w then sample_metrics m else Raise (RuntimeError "no client"), w).

Definition client_run : Collaborators := {|
  world := bool;
  rag_system_query q w := (sample_rag q, w);
  rag_system_unload w := (Ok (), w);
  get_config := Config.make false false;
  context_precision _ := needs_client CONTEXT_PRECISION;
  context_recall _ := needs_client CONTEXT_RECALL;
  context_relevance _ := needs_client CONTEXT_RELEVANCE;
  context_entities_recall _ := needs_client CONTEXT_ENTITIES_RECALL;
  faithfulness _ := needs_client FAITHFULNESS;
  factual_consistency _ := needs_client FACTUAL_CONSISTENCY;
  answer_relevance _ := needs_client ANSWER_RELEVANCE;
  bertscore _ := needs_client BERTSCORE;
  answer_correctness _ := needs_client ANSWER_CORRECTNESS;
  semantic_diversity _ := needs_client SEMANTIC_DIVERSITY;
  attribution_score _ := needs_client ATTRIBUTION_SCORE;
  answer_completeness _ := needs_client ANSWER_COMPLETENESS;
  self_consistency_score _ := needs_client SELF_CONSISTENCY;
  multi_hop_reasoning_score _ := needs_client MULTI_HOP_REASONING;
  context_utilization_rate _ := needs_client CONTEXT_UTILIZATION
|}.

(** One goal, two questions that both reference [metric_id], with weights
    1.0 and 0.5. *)
Definition shared_metric_config (metric_id : string) : EvaluationConfig.t :=
  EvaluationConfig.make
    [GoalConfig.make "G" 1
       [QuestionConfig.make "Q1" 1 [(metric_id, 1)];
        QuestionConfig.make "Q2" 1 [(metric_id, qc 1 2)]]].

(** A question without metrics next to one with a metric. *)
Definition bare_question : QuestionConfig.t :=
  QuestionConfig.make "Q0" 1 [].

Definition bare_question_goal : GoalConfig.t :=
  GoalConfig.make "G" 1
    [QuestionConfig.make "Q1" 1 [("faithfulness", 1)]; bare_question].

(** A question whose only metric is configured with weight 0.0. *)
Definition zero_weight_config : EvaluationConfig.t :=
  EvaluationConfig.make
    [GoalConfig.make "G" 1
       [QuestionConfig.make "Q" 1 [("faithfulness", 0)]]].

(** A question with a scoring metric and a "no data" metric. *)
Definition mixed_question_config : EvaluationConfig.t :=
  EvaluationConfig.make
    [GoalConfig.make "G" 1
       [QuestionConfig.make "Q1" 1
          [("faithfulness", 1); ("multi_hop_reasoning", 1)]]].

Definition sample_test_cases : list TestCase.t :=
  [TestCase.make "what is a cache" "a store" "simple" [];
   TestCase.make "broken" "nothing" "simple" ["x"];
   TestCase.make "what is a goal" "an aim" "complex" []].

(** ** Checking a serialized document

    [document_ok avg_q avg_g doc] recomputes every recorded score of [doc]
    from the (score, weight) pairs recorded one level below: questions
    with [avg_q] over their metrics, goals and the overall score with
    [avg_g]. *)

Definition score_matches (avg : list (Qc * Qc) → Qc)
    (score_key list_key child_key : string) (entry : json) : bool :=
  match json_field entry score_key ≫= json_num,
        recorded_children list_key child_key entry with
  | Some s, Some ps => bool_decide (s = avg ps)
  | _, _ => false
  end.

Definition children_all (list_key : string) (p : json → bool) (entry : json)
  : bool :=
  match json_field entry list_key ≫= json_items with
  | Some items => forallb p items
  | None => false
  end.

Definition question_entry_ok (avg_q : list (Qc * Qc) → Qc) (entry : json)
  : bool :=
  score_matches avg_q "score" "metrics" "value" entry.

Definition goal_entry_ok (avg_q avg_g : list (Qc * Qc) → Qc) (entry : json)
  : bool :=
  score_matches avg_g "score" "questions" "score" entry
  && children_all "questions" (question_entry_ok avg_q) entry.

Definition document_ok (avg_q avg_g : list (Qc * Qc) → Qc) (doc : json)
  : bool :=
  score_matches avg_g "overall_score" "goals" "score" doc
  && children_all "goals" (goal_entry_ok avg_q avg_g) doc.

(** The weighted average with the convention for an empty list. *)
Definition average_or_zero (ps : list (Qc * Qc)) : Qc :=
  match ps with
  | [] => 0
  | _ => weighted_average ps
  end.

(** The weighted average where the total weight is positive, 0 elsewhere
    (in particular on an empty list). *)
Definition guarded_weighted_average (ps : list (Qc * Qc)) : Qc :=
  if Py.gt0 (total_weight ps) then weighted_average ps else 0.

(** ** Sample result trees *)

(** The scenario of the specification: m1 scores 0.8 with weight 1.0, m2
    scores 0.4 with weight 0.5. *)
Definition scenario_question : QuestionResult.t :=
  QuestionResult.make "Q1"
    [MetricResult.make "m1" (qc 4 5) 1 None;
     MetricResult.make "m2" (qc 2 5) (qc 1 2) None]
    1.

Definition scenario_goal : GoalResult.t :=
  GoalResult.make "G" [scenario_question] 1.

Definition scenario_result : EvaluationResult.t :=
  EvaluationResult.make [scenario_goal].

(** One question of score 0.8 and weight -1, and a configuration that
    evaluates to it when faithfulness scores 0.8. *)
Definition negative_weight_goal : GoalResult.t :=
  GoalResult.make "G"
    [QuestionResult.make "Q"
       [MetricResult.make "faithfulness" (qc 4 5) 1 None] (- 1)]
    1.

Definition negative_weight_config : EvaluationConfig.t :=
  EvaluationConfig.make
    [GoalConfig.make "G" 1
       [QuestionConfig.make "Q" (- 1) [("faithfulness", 1)]]].

Definition negative_weight_result : EvaluationResult.t :=
  EvaluationResult.make [negative_weight_goal].

(** One metric, of weight 0.0. *)
Definition zero_weight_question : QuestionResult.t :=
  QuestionResult.make "Q"
    [MetricResult.make "faithfulness" (qc 1 2) 0 None] 1.

Definition zero_weight_goal : GoalResult.t :=
  GoalResult.make "G" [zero_weight_question] 1.

Definition zero_weight_result : EvaluationResult.t :=
  EvaluationResult.make [zero_weight_goal].

(** ** Further vocabulary for the result tree *)





(** A question whose score is defined: no metrics, or metric weights that
    do not sum to zero. *)
Definition question_scorable (q : QuestionResult.t) : Prop :=
  QuestionResult.metrics q = [] ∨ total_weight (metric_pairs q) ≠ 0.

Definition result_scorable (r : EvaluationResult.t) : Prop :=
  Forall (λ g, Forall question_scorable (GoalResult.questions g))
    (EvaluationResult.goals r).

(** *** Rebuilding a result tree from its document

    The inverse reading of [to_dict]: names, texts, weights, metric ids,
    values and breakdowns are taken from the entries; the recorded scores
    are not needed. *)

Definition json_str (j : json) : option string :=
  match j with JStr s => Some s | _ => None end.

Definition metric_from_dict (entry : json) : option MetricResult.t :=
  metric_id ← json_field entry "id" ≫= json_str;
  value ← json_field entry "value" ≫= json_num;
  weight ← json_field entry "weight" ≫= json_num;
  match json_field entry "individual_scores" with
  | None => Some (MetricResult.make metric_id value weight None)
  | Some (JList rows) =>
      Some (MetricResult.make metric_id value weight (Some rows))
  | Some _ => None
  end.

Definition question_from_dict (entry : json) : option QuestionResult.t :=
  text ← json_field entry "text" ≫= json_str;
  weight ← json_field entry "weight" ≫= json_num;
  items ← json_field entry "metrics" ≫= json_items;
  metrics ← mapM metric_from_dict items;
  Some (QuestionResult.make text metrics weight).

Definition goal_from_dict (entry : json) : option GoalResult.t :=
  name ← json_field entry "name" ≫= json_str;
  weight ← json_field entry "weight" ≫= json_num;
  items ← json_field entry "questions" ≫= json_items;
  questions ← mapM question_from_dict items;
  Some (GoalResult.make name questions weight).

Definition from_dict (doc : json) : option EvaluationResult.t :=
  items ← json_field doc "goals" ≫= json_items;
  goals ← mapM goal_from_dict items;
  Some (EvaluationResult.make goals).

(** ** Further vocabulary for runs *)

Section MoreVocabulary.
Context `{Collaborators}.

(** [c] leaves the component [proj] of the state as it found it. *)
Definition keeps {A B} (proj : state → B) (c : M A) : Prop :=
  ∀ s r s', c s = (r, s') → proj s' = proj s.

(** Every exception that [c] lets through satisfies [P]. *)
Definition raises_only {A} (P : exn → Prop) (c : M A) : Prop :=
  ∀ s e s', c s = (Raise e, s') → P e.

(** Every cache entry is stored under its own [metric_id]. *)
Definition cache_keyed (s : state) : Prop :=
  ∀ k c, metric_cache s !! k = Some c → CachedMetricResult.metric_id c = k.

(** The metric references of a configuration, goal by goal and question
    by question. *)
Definition configured_metrics (config : EvaluationConfig.t) : list string :=
  EvaluationConfig.goals config
    ≫= (λ g, GoalConfig.questions g ≫= (λ q, (QuestionConfig.metrics q).*1)).

(** During [c], [execute_metric] is called for a subsequence of [l], in
    the order of [l], and for nothing else. *)
Definition executes_within {A} (l : list string) (c : M A) : Prop :=
  ∀ s r s', c s = (r, s') →
    ∃ new, executed s' = executed s ++ new ∧ sublist new l.

End MoreVocabulary.

(** ** Vocabulary for counting the executions of a metric *)

Section Accounting.
Context `{Collaborators}.

(** A property of the outside world that no call of a collaborator
    destroys (for instance: the Gemini client has been created). *)
Definition stable (inv : world → Prop) : Prop :=
  (∀ q w, inv w → inv (rag_system_query q w).2)
  ∧ (∀ w, inv w → inv (rag_system_unload w).2)
  ∧ (∀ metric_enum d w, inv w → inv (metric_function_of metric_enum d w).2).

(** On the batch [d], the computation of [metric_id] answers a score in
    every world that satisfies [inv]; or "no data" in every such world. *)
Definition scores_on (inv : world → Prop) (d : EvaluationData.t)
    (metric_id : string) : Prop :=
  ∀ w, inv w → (executor_outcome metric_id d w).1 ≠ RNone.

Definition no_data_on (inv : world → Prop) (d : EvaluationData.t)
    (metric_id : string) : Prop :=
  ∀ w, inv w → (executor_outcome metric_id d w).1 = RNone.

(** How often [metric_id] occurs in a list of metric references, and how
    often the questions of a configuration reference it. *)
Definition occurrences (metric_id : string) (l : list string) : nat :=
  length (filter (λ x, x = metric_id) l).

Definition metric_references (metric_id : string)
    (config : EvaluationConfig.t) : nat :=
  occurrences metric_id (configured_metrics config).

(** The [MetricResult]s of a result tree, goal by goal and question by
    question, and how many of them are for [metric_id]. *)
Definition results_for (metric_id : string) (ms : list MetricResult.t)
  : nat :=
  length (filter (λ m, MetricResult.metric_id m = metric_id) ms).

Definition attached_metrics (r : EvaluationResult.t) : list MetricResult.t :=
  EvaluationResult.goals r
    ≫= (λ g, GoalResult.questions g ≫= QuestionResult.metrics).

Definition metric_results (metric_id : string) (r : EvaluationResult.t)
  : nat :=
  results_for metric_id (attached_metrics r).

(** 1 when the cache holds an entry for [metric_id], 0 otherwise. *)
Definition cached (metric_id : string) (s : state) : nat :=
  match metric_cache s !! metric_id with Some _ => 1%nat | None => 0%nat end.

(** The account of [metric_id] between [s] and [s'], over a stretch of a
    run on the batch [d] that passes [references] references to the metric
    and attaches [results] results for it: a reference without a result is
    an execution that answered "no data"; the first result comes from the
    execution that fills the cache, every later one from the cache. *)
Definition settles (inv : world → Prop) (metric_id : string)
    (d : EvaluationData.t) (references results : nat) (s s' : state)
  : Prop :=
  metric_cache s ⊆ metric_cache s'
  ∧ (results ≤ references)%nat
  ∧ (invocations metric_id s' + results + cached metric_id s
     = invocations metric_id s + references + cached metric_id s')%nat
  ∧ (cached metric_id s' ≤ cached metric_id s + results)%nat
  ∧ ((0 < results)%nat → cached metric_id s' = 1%nat)
  ∧ (inv (outside s) → inv (outside s'))
  ∧ (scores_on inv d metric_id → inv (outside s) → results = references)
  ∧ (no_data_on inv d metric_id → inv (outside s) →
     cached metric_id s = 0%nat → cached metric_id s' = 0%nat).

(** The pair of a [MetricResult] that the configuration fixes. *)
Definition reference_of (m : MetricResult.t) : string * Qc :=
  (MetricResult.metric_id m, MetricResult.weight m).

(** On the batch [d] and from the state [s], the boolean [scores] tells
    for [metric_id] which of the two it is: a score in every world that
    satisfies [inv], or "no data" in every such world with no entry in the
    cache of [s]. *)
Definition determined (inv : world → Prop) (d : EvaluationData.t)
    (scores : string → bool) (s : state) (metric_id : string) : Prop :=
  if scores metric_id then scores_on inv d metric_id
  else no_data_on inv d metric_id ∧ metric_cache s !! metric_id = None.

(** Between [s] and [s'], [inv] has been kept and no metric whose
    computation on [d] answers "no data" has entered the cache. *)
Definition unscored (inv : world → Prop) (d : EvaluationData.t)
    (s s' : state) : Prop :=
  inv (outside s) →
  inv (outside s')
  ∧ ∀ metric_id, no_data_on inv d metric_id →
      metric_cache s !! metric_id = None →
      metric_cache s' !! metric_id = None.

End Accounting.

(** ** Question types ([constants.py]) *)

Inductive QuestionType : Type :=
  | SIMPLE
  | COMPLEX
  | DISTRACTING
  | SITUATIONAL
  | DOUBLE
  | CONVERSATIONAL.

Definition QuestionType_members : list QuestionType :=
  [SIMPLE; COMPLEX; DISTRACTING; SITUATIONAL; DOUBLE; CONVERSATIONAL].

Definition QuestionType_value (t : QuestionType) : string :=
  match t with
  | SIMPLE => "simple"
  | COMPLEX => "complex"
  | DISTRACTING => "distracting"
  | SITUATIONAL => "situational"
  | DOUBLE => "double"
  | CONVERSATIONAL => "conversational"
  end.

#[global] Instance QuestionType_eq_dec : EqDecision QuestionType.
Proof. solve_decision. Defined.

(** [QuestionType(s)] *)
Definition QuestionType_of_value (s : string) : result QuestionType :=
  match list_find (λ t, QuestionType_value t = s) QuestionType_members with
  | Some (_, t) => Ok t
  | None => Raise ValueError
  end.

(** ** Code that logs free text

    The lines logged below have no constructor in [event]: a computation
    [service A] runs in an outside world [W] and appends the lines it
    logs, of a type [L] of its own, to a list, each with its level. *)

Section Service.
Context {W L : Type}.

Definition service (A : Type) : Type :=
  W * list (level * L) → result A * (W * list (level * L)).

Definition sret {A} (a : A) : service A := λ st, (Ok a, st).

Definition sraise {A} (e : exn) : service A := λ st, (Raise e, st).

Definition sbind {A B} (c : service A) (k : A → service B) : service B :=
  λ st, match c st with
        | (Ok a, st') => k a st'
        | (Raise e, st') => (Raise e, st')
        end.

Definition scatch {A} (c : service A) (h : exn → service A) : service A :=
  λ st, match c st with
        | (Ok a, st') => (Ok a, st')
        | (Raise e, st') => h e st'
        end.

(** [try: c except Exception as e: ...], as a value. *)
Definition stry {A} (c : service A) : service (exn + A) :=
  λ st, match c st with
        | (Ok a, st') => (Ok (inr a), st')
        | (Raise e, st') => (Ok (inl e), st')
        end.

Definition slog (l : level) (line : L) : service () :=
  λ st, (Ok (), (st.1, st.2 ++ [(l, line)])).

Definition scall {A} (f : W → result A * W) : service A :=
  λ st, let '(r, w) := f st.1 in (r, (w, st.2)).

Definition slift {A} (r : result A) : service A := λ st, (r, st).

Definition sget : service W := λ st, (Ok st.1, st).

Definition sput (w : W) : service () := λ st, (Ok (), (w, st.2)).

Fixpoint sfor_each {A S} (xs : list A) (body : A → S → service S) (acc : S)
  : service S :=
  match xs with
  | [] => sret acc
  | x :: xs' => sbind (body x acc) (λ acc', sfor_each xs' body acc')
  end.

End Service.

(** A computation that logs nothing, run inside one that logs lines of
    the type [L]. *)
Definition silently {W L A} (c : service (W := W) (L := ()) A)
  : service (W := W) (L := L) A :=
  λ st, let '(r, (w, _)) := c (st.1, []) in (r, (w, st.2)).

Declare Scope service_scope.
Delimit Scope service_scope with service.
Notation "'let*' x ':=' c 'in' k" := (sbind c (λ x, k))
  (at level 10, x name, c at level 100, k at level 200) : service_scope.
Notation "c ';;' k" := (sbind c (λ _, k))
  (at level 100, k at level 200, right associativity) : service_scope.

(** ** [LLMMetricMapper] ([llm_metric_mapper.py], lines 42-58 and 161-169) *)

Module QuestionData.
Record t : Type := make {
  id : nat;
  goal_name : string;
  goal_weight : Qc;
  question_text : string;
  question_weight : Qc
}.
End QuestionData.

Definition has_no_metrics (question : QuestionConfig.t) : bool :=
  match QuestionConfig.metrics question with
  | [] => true
  | _ => false
  end.

(** The loops carry the pair [(questions_data, question_id)]. *)
Definition _collect_questions_data (config : EvaluationConfig.t)
  : list QuestionData.t :=
  (foldl
     (λ acc goal,
        foldl
          (λ acc question,
             if has_no_metrics question
             then (acc.1 ++ [QuestionData.make acc.2
                               (GoalConfig.name goal)
                               (GoalConfig.weight goal)
                               (QuestionConfig.text question)
                               (QuestionConfig.weight question)],
                   S acc.2)
             else acc)
          acc (GoalConfig.questions goal))
     ([], 0%nat) (EvaluationConfig.goals config)).1.

(** [_apply_mappings_to_config] assigns [question.metrics] in place; here
    it returns the configuration it leaves.  The loops carry
    [question_id]. *)
Fixpoint apply_to_questions (mappings : gmap nat (list (string * Qc)))
    (question_id : nat) (questions : list QuestionConfig.t)
  : list QuestionConfig.t * nat :=
  match questions with
  | [] => ([], question_id)
  | question :: rest =>
      if has_no_metrics question
      then
        let mapped :=
          QuestionConfig.make (QuestionConfig.text question)
            (QuestionConfig.weight question)
            (default [] (mappings !! question_id)) in
        let r := apply_to_questions mappings (S question_id) rest in
        (mapped :: r.1, r.2)
      else
        let r := apply_to_questions mappings question_id rest in
        (question :: r.1, r.2)
  end.

Fixpoint apply_to_goals (mappings : gmap nat (list (string * Qc)))
    (question_id : nat) (goals : list GoalConfig.t)
  : list GoalConfig.t * nat :=
  match goals with
  | [] => ([], question_id)
  | goal :: rest =>
      let qs := apply_to_questions mappings question_id
                  (GoalConfig.questions goal) in
      let r := apply_to_goals mappings qs.2 rest in
      (GoalConfig.make (GoalConfig.name goal) (GoalConfig.weight goal) qs.1
         :: r.1, r.2)
  end.

Definition _apply_mappings_to_config (config : EvaluationConfig.t)
    (mappings : gmap nat (list (string * Qc))) : EvaluationConfig.t :=
  EvaluationConfig.make
    (apply_to_goals mappings 0 (EvaluationConfig.goals config)).1.

(** The questions of a configuration, goal by goal; [placed_questions]
    keeps the goal each one stands in. *)
Definition all_questions (config : EvaluationConfig.t)
  : list QuestionConfig.t :=
  EvaluationConfig.goals config ≫= GoalConfig.questions.

Definition placed_questions (config : EvaluationConfig.t)
  : list (GoalConfig.t * QuestionConfig.t) :=
  EvaluationConfig.goals config
    ≫= (λ goal, (λ question, (goal, question)) <$> GoalConfig.questions goal).

(** The questions the mapper has to serve, in the order of the
    configuration. *)
Definition unmapped_questions (config : EvaluationConfig.t)
  : list (GoalConfig.t * QuestionConfig.t) :=
  filter (λ p, has_no_metrics p.2 = true) (placed_questions config).

(** ** [EvaluationPipeline.generate_test_cases] ([pipeline.py], lines 29-54) *)

(** [d[k] = v] on an insertion-ordered dict. *)
Fixpoint dict_set {K V} `{EqDecision K} (d : list (K * V)) (k : K) (v : V)
  : list (K * V) :=
  match d with
  | [] => [(k, v)]
  | (k', v') :: d' =>
      if decide (k' = k) then (k, v) :: d' else (k', v') :: dict_set d' k v
  end.

(** [d.get(k)] on an insertion-ordered dict. *)
Fixpoint dict_get {K V} `{EqDecision K} (d : list (K * V)) (k : K)
  : option V :=
  match d with
  | [] => None
  | (k', v) :: d' => if decide (k' = k) then Some v else dict_get d' k
  end.

Section GenerateTestCases.
Context {W : Type}.

(** [QuestionGenerator.generate_questions], with the pipeline's fixed
    [pinecone_config]. *)
Variable generate_questions :
  list QuestionType → list (QuestionType * json) → bool →
  W → result (list TestCase.t) * W.

Local Open Scope service_scope.

(** [test_case_generation] maps a question type name to its parameters, a
    dict; [params.get("count", 1)] is whatever the dict holds. *)
Definition generate_test_cases
    (test_case_generation : list (string * list (string * json)))
    (force_regenerate : bool)
  : service (W := W) (L := string) (list TestCase.t) :=
  slog INFO "Generating test cases";;
  let* parsed :=
    sfor_each test_case_generation
      (λ item acc,
         match QuestionType_of_value item.1 with
         | Ok question_type =>
             sret (acc.1 ++ [question_type],
                   dict_set acc.2 question_type
                     (default (JNum 1) (Py.get item.2 "count")))
         | Raise _ =>
             slog WARNING ("Unknown question type: " +:+ item.1);;
             sret acc
         end)
      ([], []) in
  match parsed.1 with
  | [] => sraise ValueError
  | _ => scall (generate_questions parsed.1 parsed.2 force_regenerate)
  end.

End GenerateTestCases.

(** The entries of [test_case_generation] that name a question type, with
    the count each one asks for. *)
Definition requested_types
    (test_case_generation : list (string * list (string * json)))
  : list (QuestionType * json) :=
  omap (λ item,
          match QuestionType_of_value item.1 with
          | Ok question_type =>
              Some (question_type,
                    default (JNum 1) (Py.get item.2 "count"))
          | Raise _ => None
          end)
       test_case_generation.

Definition unknown_types
    (test_case_generation : list (string * list (string * json)))
  : list string :=
  filter (λ name, name ∉ QuestionType_value <$> QuestionType_members)
         test_case_generation.*1.

(** ** The environment configuration ([config.py], lines 34-133) *)

(** [s.lower()], as far as the comparisons below can tell: the ASCII
    capitals become small letters, every other byte stays. *)
Definition ascii_lower (c : Ascii.ascii) : Ascii.ascii :=
  let n := Ascii.nat_of_ascii c in
  if ((65 <=? n) && (n <=? 90))%nat then Ascii.ascii_of_nat (n + 32) else c.

Fixpoint str_lower (s : string) : string :=
  match s with
  | EmptyString => EmptyString
  | String c s' => String (ascii_lower c) (str_lower s')
  end.

(** Truth value of a [str] and of an [Optional[str]]. *)
Definition str_truthy (s : string) : bool :=
  match s with
  | EmptyString => false
  | String _ _ => true
  end.

Definition opt_truthy (v : option string) : bool :=
  match v with
  | Some s => str_truthy s
  | None => false
  end.

Module config_py.

(** The dataclass [Config] with all its fields; [Config.t] above keeps the
    two that the framework reads. *)
Module Config.
Record t : Type := make {
  pinecone_api_key : option string;
  gemini_api_key : option string;
  voyage_api_key : option string;
  voyage_model : string;
  gemini_model : string;
  bertscore_model : string;
  question_cache_dir : string;
  output_dir : string;
  pinecone_index_name : option string;
  return_detailed_results : bool;
  use_metric_mapper : bool;
  tokenizers_parallelism : bool
}.

(** The list [errors] that [validate] builds. *)
Definition errors (self : t) : list string :=
  (if opt_truthy (pinecone_api_key self) then []
   else ["PINECONE_API_KEY is required"])
  ++ (if str_truthy (gemini_model self) then []
      else ["GEMINI_MODEL is required"])
  ++ (if opt_truthy (gemini_api_key self) then []
      else ["GEMINI_API_KEY is required"])
  ++ (if opt_truthy (pinecone_index_name self) then []
      else ["PINECONE_INDEX_NAME is required"]).

(** The [ValueError] carries the errors joined by commas; [exn] keeps the
    class only. *)
Definition validate (self : t) : result () :=
  match errors self with
  | [] => Ok ()
  | _ => Raise ValueError
  end.

Definition get_pinecone_config (self : t) : list (string * option string) :=
  [("api_key", pinecone_api_key self);
   ("index_name", pinecone_index_name self)].

End Config.

Module ConfigLoader.

(** [environ] is [os.environ]; [os.getenv(key)] is [environ !! key]. *)
Definition _get_bool_env (environ : gmap string string) (key : string)
    (default : bool) : bool :=
  match environ !! key with
  | None => default
  | Some value =>
      bool_decide (str_lower value ∈ ["true"; "1"; "t"; "yes"; "on"])
  end.

(** [load], after [load_dotenv] has left [os.environ] as [environ];
    [file_exists] is [self.env_path.exists()]. *)
Definition load (env_path : string) (file_exists : bool)
    (environ : gmap string string) {W}
  : service (W := W) (L := string) Config.t :=
  (slog INFO ("Loading environment variables from " +:+ env_path);;
   slog INFO ("Environment file exists: "
              +:+ (if file_exists then "True" else "False"));;
   let config :=
     Config.make
       (environ !! "PINECONE_API_KEY")
       (environ !! "GEMINI_API_KEY")
       (environ !! "VOYAGE_API_KEY")
       (default "voyage-3-large" (environ !! "VOYAGE_MODEL"))
       (default "gemini-2.5-flash" (environ !! "GEMINI_MODEL"))
       (default "roberta-large" (environ !! "BERTSCORE_MODEL"))
       (default "questions" (environ !! "QUESTION_CACHE_DIR"))
       (default "evaluation_results" (environ !! "OUTPUT_DIR"))
       (environ !! "PINECONE_INDEX_NAME")
       (_get_bool_env environ "RETURN_DETAILED_RESULTS" false)
       (_get_bool_env environ "USE_METRIC_MAPPER" false)
       (_get_bool_env environ "TOKENIZERS_PARALLELISM" false) in
   slift (Config.validate config);;
   slog INFO "Environment variables loaded successfully";;
   sret config)%service.

End ConfigLoader.

(** [get_config]: the world is the module global [_config]. *)
Definition get_config (env_path : string) (file_exists : bool)
    (environ : gmap string string)
  : service (W := option Config.t) (L := string) Config.t :=
  (let* _config := sget in
   match _config with
   | None =>
       let* loaded := ConfigLoader.load env_path file_exists environ in
       sput (Some loaded);;
       sret loaded
   | Some config => sret config
   end)%service.

End config_py.

(** What the framework reads of the environment configuration. *)
Definition framework_config (config : config_py.Config.t) : Config.t :=
  Config.make (config_py.Config.return_detailed_results config)
              (config_py.Config.use_metric_mapper config).

(** [key] is set in the environment, and not to the empty string. *)
Definition is_set (environ : gmap string string) (key : string) : Prop :=
  ∃ value, environ !! key = Some value ∧ value ≠ EmptyString.


(** ** [GQMFramework._needs_metric_mapping] ([gqm.py], lines 134-143) *)

(** The nested loops with their early [return True]. *)
Definition some_question_without_metrics (config : EvaluationConfig.t) : bool :=
  existsb
    (λ goal, existsb (λ question,
                        match QuestionConfig.metrics question with
                        | [] => true
                        | _ => false
                        end)
               (GoalConfig.questions goal))
    (EvaluationConfig.goals config).

(** The method starts with [get_config()], which loads the environment
    configuration when none is stored yet, and raises when the loaded one
    is not valid. *)
Definition _needs_metric_mapping (env_path : string) (file_exists : bool)
    (environ : gmap string string) (config : EvaluationConfig.t)
  : service (W := option config_py.Config.t) (L := string) bool :=
  (let* app_config := config_py.get_config env_path file_exists environ in
   if negb (config_py.Config.use_metric_mapper app_config)
   then slog INFO "Metric mapping is disabled via environment configuration";;
        sret false
   else sret (some_question_without_metrics config))%service.
(** ** Question generation and its cache
    ([generators/question_cache.py], [generators/question_generator.py]) *)

(** A field that is annotated [str] and defaults to a member of
    [QuestionType]: it holds what the caller passed or, where the default
    was kept, the member itself (a plain [Enum] member, not its value). *)
Inductive or_member (A : Type) : Type :=
  | Plain (a : A)
  | Member (t : QuestionType).
Arguments Plain {A} a.
Arguments Member {A} t.

(** A [TestCase] as the generator and the cache handle it: the dataclass
    does not check its fields, which hold whatever [json.loads] or
    [json.load] found; [question_type] defaults to [QuestionType.SIMPLE]. *)
Module RawTestCase.
Record t : Type := make {
  question : json;
  ground_truth : json;
  question_type : or_member json;
  entities : json
}.

(** [__post_init__]: [entities] left at [None] becomes the empty list. *)
Definition __post_init__ (self : t) : t :=
  make (question self) (ground_truth self) (question_type self)
    match entities self with
    | JNull => JList []
    | entities => entities
    end.

(** [TestCase(question=..., ground_truth=..., question_type=...,
    entities=...)] *)
Definition init (question ground_truth : json) (question_type : or_member json)
    (entities : json) : t :=
  __post_init__ (make question ground_truth question_type entities).
End RawTestCase.

Definition raw (tc : TestCase.t) : RawTestCase.t :=
  RawTestCase.init (JStr (TestCase.question tc))
    (JStr (TestCase.ground_truth tc))
    (Plain (JStr (TestCase.question_type tc)))
    (JList (JStr <$> TestCase.entities tc)).

(** What [get_cached_questions] can catch while it reads a file. *)
Inductive cache_exn : Type :=
  | JSONDecodeError
  | CacheTypeError
  | CacheKeyError (key : string).

(** What [cache_questions] can catch while it writes a file: the [OSError]
    of [open], or the [TypeError] of [json.dump] on a value that is not
    JSON serializable. *)
Inductive cache_write_exn : Type :=
  | CacheOSError
  | NotSerializable.

(** The lines logged by the cache and by the generator. *)
Inductive generator_line : Type :=
  | LoadedCachedTestCases (n : nat) (filename : string)
  | FailedToLoadCachedQuestions (e : cache_exn)
  | CachedTestCases (n : nat) (filename : string)
  | FailedToCacheQuestions (e : cache_write_exn)
  | ClearedQuestionCache
  | GeneratingQuestions
  | DocumentsNeeded (sample_size : Z)
  | SampledDocuments (n : nat)
  | GeneratedTotal (n : nat).

(** [for item in data]: a list gives its items, a dict its keys, a string
    its characters; nothing else can be iterated. *)
Definition iterate (data : json) : cache_exn + list json :=
  match data with
  | JList items => inr items
  | JDict fields => inr (JStr <$> fields.*1)
  | JStr s =>
      inr ((λ c, JStr (String c EmptyString)) <$> String.list_ascii_of_string s)
  | _ => inl CacheTypeError
  end.

(** [TestCase(question=item['question'], ...)] *)
Definition test_case_of_item (item : json) : cache_exn + RawTestCase.t :=
  match item with
  | JDict fields =>
      match Py.get fields "question" with
      | None => inl (CacheKeyError "question")
      | Some question =>
          match Py.get fields "ground_truth" with
          | None => inl (CacheKeyError "ground_truth")
          | Some ground_truth =>
              inr (RawTestCase.init question ground_truth
                     (Plain (default (JStr "simple")
                               (Py.get fields "question_type")))
                     (default (JList []) (Py.get fields "entities")))
          end
      end
  | _ => inl CacheTypeError
  end.

Fixpoint test_cases_of_items (items : list json)
  : cache_exn + list RawTestCase.t :=
  match items with
  | [] => inr []
  | item :: rest =>
      match test_case_of_item item with
      | inl e => inl e
      | inr test_case =>
          match test_cases_of_items rest with
          | inl e => inl e
          | inr test_cases => inr (test_case :: test_cases)
          end
      end
  end.

(** A cache file holds JSON text; [None] stands for text that [json.load]
    rejects. *)
Definition read_test_cases (content : option json)
  : cache_exn + list RawTestCase.t :=
  match content with
  | None => inl JSONDecodeError
  | Some data =>
      match iterate data with
      | inl e => inl e
      | inr items => test_cases_of_items items
      end
  end.

(** The text that [json.dump] writes for the dict built from a test
    case; a member of [QuestionType] is not JSON serializable. *)
Definition item_of_test_case (tc : RawTestCase.t) : option json :=
  match RawTestCase.question_type tc with
  | Plain question_type =>
      Some (JDict [("question", RawTestCase.question tc);
                   ("ground_truth", RawTestCase.ground_truth tc);
                   ("question_type", question_type);
                   ("entities", RawTestCase.entities tc)])
  | Member _ => None
  end.

(** What a cache file holds after [json.dump(data, f, indent=2)]: the
    text of the list, or, when the dump stopped at a value it cannot
    serialize, the beginning of a text, which [json.load] rejects. *)
Definition dumped (test_cases : list RawTestCase.t) : option json :=
  JList <$> mapM item_of_test_case test_cases.

Definition ends_with (suffix s : string) : bool :=
  let n := String.length s in
  let m := String.length suffix in
  ((m <=? n)%nat && String.eqb (String.substring (n - m) m s) suffix).

Definition docs_per_question (question_type : QuestionType) : Z :=
  match question_type with
  | SIMPLE => 1
  | COMPLEX => 3
  | _ => 2
  end.

(** [int(total_docs * 0.1)] truncates towards zero. *)
Definition _calculate_documents_needed
    (counts_per_type : list (QuestionType * Z)) : Z :=
  let total_docs :=
    foldl (λ total_docs item,
             (total_docs + item.2 * docs_per_question item.1)%Z)
          0%Z counts_per_type in
  let buffer := Z.max 5 (Z.quot total_docs 10) in
  (total_docs + buffer)%Z.

Section QuestionGenerator.

(** The world is the cache directory, file name to content, and the rest
    [X]: the Pinecone index and the LLM. *)
Context {X Doc : Type}.
Definition generator (A : Type) : Type :=
  service (W := gmap string (option json) * X) (L := generator_line) A.

(** [get_config().get_pinecone_config()['index_name']], and the first
    twelve hex digits of the MD5 of the configuration dumped with sorted
    keys. *)
Variable index_name : option string.
Variable config_hash : list string * list (string * Z) → string.

(** Whether [open(cache_file, 'w')] succeeds. *)
Variable can_open : string → X → bool.

(** [connect_pinecone] followed by [_sample_documents_from_pinecone], and
    [_generate_all_questions]. *)
Variable sample_documents : Z → X → result (list Doc) * X.
Variable _generate_all_questions :
  list Doc → list QuestionType → list (QuestionType * Z) →
  X → result (list RawTestCase.t) * X.

Local Open Scope service_scope.

Definition _get_cache_filename
    (generation_config : list string * list (string * Z)) : string :=
  default "None" index_name +:+ "_" +:+ config_hash generation_config
    +:+ ".json".

Definition get_cached_questions
    (generation_config : list string * list (string * Z))
  : generator (option (list RawTestCase.t)) :=
  let filename := _get_cache_filename generation_config in
  let* w := sget in
  match w.1 !! filename with
  | Some content =>
      match read_test_cases content with
      | inr test_cases =>
          slog INFO (LoadedCachedTestCases (length test_cases) filename);;
          sret (Some test_cases)
      | inl e =>
          slog ERROR (FailedToLoadCachedQuestions e);;
          sret None
      end
  | None => sret None
  end.

(** The [try] block opens the file for writing, which fails and leaves
    the directory as it is, or empties the file; then [json.dump] writes
    the text piece by piece and raises at the first value that it cannot
    serialize.  The [except] branch logs the exception and returns. *)
Definition cache_questions (test_cases : list RawTestCase.t)
    (generation_config : list string * list (string * Z)) : generator () :=
  let filename := _get_cache_filename generation_config in
  let* w := sget in
  if can_open filename w.2
  then
    sput (<[filename := dumped test_cases]> w.1, w.2);;
    match dumped test_cases with
    | Some _ => slog INFO (CachedTestCases (length test_cases) filename)
    | None => slog ERROR (FailedToCacheQuestions NotSerializable)
    end
  else slog ERROR (FailedToCacheQuestions CacheOSError).

Definition clear_cache : generator () :=
  let* w := sget in
  sput (filter (λ file, ends_with ".json" file.1 = false) w.1, w.2);;
  slog INFO ClearedQuestionCache.

Definition in_index {A} (f : X → result A * X) : generator A :=
  λ st, let '(r, x) := f st.1.2 in (r, ((st.1.1, x), st.2)).

(** [generate_questions], from [Generating questions...] on (lines
    95-113): what happens when the cache is not used. *)
Definition generate_and_cache (question_types : list QuestionType)
    (counts_per_type : list (QuestionType * Z))
    (generation_config : list string * list (string * Z))
  : generator (list RawTestCase.t) :=
  slog INFO GeneratingQuestions;;
  let sample_size := _calculate_documents_needed counts_per_type in
  slog INFO (DocumentsNeeded sample_size);;
  let* documents := in_index (sample_documents sample_size) in
  match documents with
  | [] => sraise ValueError
  | _ =>
      slog INFO (SampledDocuments (length documents));;
      let* all_questions :=
        in_index (_generate_all_questions documents question_types
                    counts_per_type) in
      cache_questions all_questions generation_config;;
      slog INFO (GeneratedTotal (length all_questions));;
      sret all_questions
  end.

Definition generation_config_of (question_types : list QuestionType)
    (counts_per_type : list (QuestionType * Z))
  : list string * list (string * Z) :=
  (QuestionType_value <$> question_types,
   (λ item, (QuestionType_value item.1, item.2)) <$> counts_per_type).

(** An empty list of cached questions is not used ([if
    cached_questions:]). *)
Definition generate_questions (question_types : list QuestionType)
    (counts_per_type : list (QuestionType * Z)) (force_regenerate : bool)
  : generator (list RawTestCase.t) :=
  let generation_config :=
    generation_config_of question_types counts_per_type in
  let* cached_questions :=
    if force_regenerate then sret None
    else get_cached_questions generation_config in
  match cached_questions with
  | Some (test_case :: test_cases) => sret (test_case :: test_cases)
  | _ => generate_and_cache question_types counts_per_type generation_config
  end.

End QuestionGenerator.

(** ** [QuestionGenerator._prepare_contexts]
    ([generators/question_generator.py], lines 133-175) *)

(** A loop whose body may raise. *)
Fixpoint rfold {A S} (body : S → A → result S) (acc : S) (xs : list A)
  : result S :=
  match xs with
  | [] => Ok acc
  | x :: xs' => let! acc' := body acc x in rfold body acc' xs'
  end.

Definition newline : string := String (Ascii.ascii_of_nat 10) EmptyString.

Module GenerationContext.
Record t {Doc : Type} : Type := make {
  id : nat;
  type : string;
  context : string;
  source_docs : list Doc
}.
Arguments t : clear implicits.
End GenerationContext.

Section PrepareContexts.
Context {Doc : Type}.

(** [doc['text']], and the outcome of [random.shuffle] on a copy of the
    documents. *)
Variable doc_text : Doc → string.
Variable shuffle : list Doc → list Doc.

(** The loop [for _ in range(docs_needed)]; [x % 0] raises. *)
Fixpoint select_docs (shuffled_docs : list Doc) (docs_needed : nat)
    (acc : list Doc * nat) : result (list Doc * nat) :=
  match docs_needed with
  | O => Ok acc
  | S docs_needed' =>
      let '(selected_docs, doc_index) := acc in
      let! doc :=
        match shuffled_docs with
        | [] => Raise ZeroDivisionError
        | first :: _ =>
            if (doc_index <? length shuffled_docs)%nat
            then Ok (nth doc_index shuffled_docs first)
            else Ok (nth (doc_index mod length shuffled_docs) shuffled_docs
                       first)
        end in
      select_docs shuffled_docs docs_needed'
        (selected_docs ++ [doc], S doc_index)
  end.

Definition _prepare_contexts (documents : list Doc)
    (question_types : list QuestionType)
    (counts_per_type : list (QuestionType * Z))
  : result (list (GenerationContext.t Doc)) :=
  let shuffled_docs := shuffle documents in
  let! final :=
    rfold
      (λ acc question_type,
         let count := default 1%Z (dict_get counts_per_type question_type) in
         rfold
           (λ acc (_ : nat),
              let '(contexts, question_id, doc_index) := acc in
              let docs_needed :=
                match question_type with
                | SIMPLE => 1%nat
                | COMPLEX => 3%nat
                | _ => 2%nat
                end in
              let! selected :=
                select_docs shuffled_docs docs_needed ([], doc_index) in
              let context_text :=
                String.concat (newline +:+ newline)
                  ((λ doc, String.substring 0 800 (doc_text doc))
                     <$> selected.1) in
              Ok (contexts
                    ++ [GenerationContext.make Doc question_id
                          (QuestionType_value question_type) context_text
                          selected.1],
                  S question_id, selected.2))
           acc (seq 0 (Z.to_nat count)))
      ([], 0%nat, 0%nat) question_types in
  Ok final.1.1.

End PrepareContexts.

(** How many contexts, and how many documents, the requested questions
    take. *)
Definition questions_requested (question_types : list QuestionType)
    (counts_per_type : list (QuestionType * Z)) : list QuestionType :=
  question_types
    ≫= (λ question_type,
          replicate
            (Z.to_nat (default 1%Z (dict_get counts_per_type question_type)))
            question_type).

Definition documents_used (question_types : list QuestionType)
    (counts_per_type : list (QuestionType * Z)) : nat :=
  sum_list (Z.to_nat ∘ docs_per_question
              <$> questions_requested question_types counts_per_type).

Section ExpectedContexts.
Context {Doc : Type}.
Variable doc_text : Doc → string.

(** The documents at the positions [doc_index], ..., [doc_index + n - 1]
    of the shuffled list read as a cycle. *)
Definition cycle_from (shuffled_docs : list Doc) (first : Doc)
    (doc_index n : nat) : list Doc :=
  (λ i, nth (i mod length shuffled_docs) shuffled_docs first)
    <$> seq doc_index n.

(** The contexts for the questions [requested], one after the other. *)
Fixpoint contexts_from (shuffled_docs : list Doc) (first : Doc)
    (question_id doc_index : nat) (requested : list QuestionType)
  : list (GenerationContext.t Doc) :=
  match requested with
  | [] => []
  | question_type :: rest =>
      let docs_needed := Z.to_nat (docs_per_question question_type) in
      let selected_docs :=
        cycle_from shuffled_docs first doc_index docs_needed in
      GenerationContext.make Doc question_id
        (QuestionType_value question_type)
        (String.concat (newline +:+ newline)
           ((λ doc, String.substring 0 800 (doc_text doc))
              <$> selected_docs))
        selected_docs
      :: contexts_from shuffled_docs first (S question_id)
           (doc_index + docs_needed) rest
  end.

End ExpectedContexts.

(** ** The Gemini client instance ([clients/gemini_client.py], lines 75-92) *)

Section GeminiClientInstance.

(** The world is the module global [_gemini_client_instance] and the rest
    [X]; [GeminiClient] is the constructor of the class. *)
Context {X Client : Type}.
Variable GeminiClient : X → result Client * X.

Local Open Scope service_scope.

Definition create_gemini_client
  : service (W := option Client * X) (L := ()) Client :=
  let* w := sget in
  match w.1 with
  | Some _ => sraise (RuntimeError "Gemini client instance already exists")
  | None =>
      let* client :=
        (λ st, let '(r, x) := GeminiClient st.1.2 in
               (r, ((st.1.1, x), st.2))) in
      let* w := sget in
      sput (Some client, w.2);;
      sret client
  end.

Definition get_gemini_client
  : service (W := option Client * X) (L := ()) (option Client) :=
  let* w := sget in
  match w.1 with
  | None => create_gemini_client;; sret ()
  | Some _ => sret ()
  end;;
  let* w := sget in
  sret w.1.

End GeminiClientInstance.

(** ** The system metrics ([metrics/system_metrics.py]) *)

(** [re.search(r'(\d+(?:\.\d+)?)', response)] followed by [float]: the
    first run of digits of the response, with the fraction that follows it
    if there is one.  Digits are the ASCII digits. *)
Definition digit_of (c : Ascii.ascii) : option Z :=
  let n := Ascii.nat_of_ascii c in
  if ((48 <=? n) && (n <=? 57))%nat then Some (Z.of_nat (n - 48)) else None.

(** The digits at the head of [s] appended to [acc]; how many they are;
    what follows them. *)
Fixpoint read_digits (s : string) (acc : Z) (count : nat)
  : Z * nat * string :=
  match s with
  | EmptyString => (acc, count, s)
  | String c s' =>
      match digit_of c with
      | Some d => read_digits s' (10 * acc + d)%Z (S count)
      | None => (acc, count, s)
      end
  end.

Definition full_stop : Ascii.ascii := Ascii.ascii_of_nat 46.

Fixpoint first_number (response : string) : option Qc :=
  match response with
  | EmptyString => None
  | String c rest =>
      match digit_of c with
      | None => first_number rest
      | Some d =>
          let '(whole, _, after) := read_digits rest d 1 in
          match after with
          | String point (String c' rest') =>
              match (if Ascii.eqb point full_stop then digit_of c'
                     else None) with
              | Some d' =>
                  let '(fraction, places, _) := read_digits rest' d' 1 in
                  Some (Q2Qc (inject_Z whole)
                        + Q2Qc (inject_Z fraction)
                          / Q2Qc (inject_Z (10 ^ Z.of_nat places)))
              | None => Some (Q2Qc (inject_Z whole))
              end
          | _ => Some (Q2Qc (inject_Z whole))
          end
      end
  end.

Definition Qc_min (x y : Qc) : Qc := if bool_decide (x ≤ y) then x else y.
Definition Qc_max (x y : Qc) : Qc := if bool_decide (x ≤ y) then y else x.

(** [np.mean(xs)] of a non-empty list. *)
Definition mean (xs : list Qc) : Qc :=
  Py.sum xs / Q2Qc (inject_Z (Z.of_nat (length xs))).

(** A [TestCaseResult] as a metric finds it: [question_type] is annotated
    [str] and defaults to [QuestionType.SIMPLE], so it holds a string (as
    in the results that [_test_rag_system] builds from test cases with a
    string type) or a member. *)
Module RawTestCaseResult.
Record t : Type := make {
  query : string;
  generated_answer : string;
  retrieved_documents : list Document;
  ground_truth : string;
  entities : list string;
  question_type : or_member string
}.
End RawTestCaseResult.

Module RawEvaluationData.
Record t : Type := make {
  test_case_results : list RawTestCaseResult.t
}.
End RawEvaluationData.

Definition found (result : TestCaseResult.t) : RawTestCaseResult.t :=
  RawTestCaseResult.make (TestCaseResult.query result)
    (TestCaseResult.generated_answer result)
    (TestCaseResult.retrieved_documents result)
    (TestCaseResult.ground_truth result)
    (TestCaseResult.entities result)
    (Plain (TestCaseResult.question_type result)).

Definition found_data (evaluation_data : EvaluationData.t)
  : RawEvaluationData.t :=
  RawEvaluationData.make
    (found <$> EvaluationData.test_case_results evaluation_data).

(** [value != member]: a [str] never equals a member of a plain [Enum];
    two members are equal when they are the same member. *)
Definition ne_member (value : or_member string) (member : QuestionType)
  : bool :=
  match value with
  | Plain _ => true
  | Member t => bool_decide (t ≠ member)
  end.

(** A row of [individual_scores], and what a metric returns: [None], a
    float, or the dict of a score and its rows. *)
Module DetailedRow.
Record t : Type := make {
  query : string;
  generated_answer : string;
  question_type : or_member string;
  score : Qc
}.
End DetailedRow.

Inductive rated_return : Type :=
  | RatedNone
  | RatedFloat (x : Qc)
  | RatedDict (score : Qc) (individual_scores : list DetailedRow.t).

(** Why [_evaluate_with_llm] fell back to the default score: there is no
    client to call, the client raised, or the response holds no number
    ([re.search] returned [None]). *)
Inductive llm_failure : Type :=
  | NoClient
  | ClientRaised (e : exn)
  | NoNumberInResponse.

Inductive system_metrics_line : Type :=
  | LLMEvaluationFailed (e : llm_failure).

Module system_metrics.
Section SystemMetrics.

(** The world is the module global [_gemini_client_instance] and the rest
    [X]. *)
Context {X Client : Type}.

(** The constructor and the method of [GeminiClient]; the environment
    configuration, which [get_config()] returns without loading anything
    once a client exists, since the constructor of the client has called
    it; the text of a document ([doc.get_content()] or [str(doc)]) and
    Python's rendering of a list of strings inside an f-string. *)
Variable GeminiClient : X → result Client * X.
Variable generate_for_metrics : Client → string → X → result string * X.
Variable app_config : Config.t.
Variable document_content : Document → string.
Variable repr_list : list string → string.

Local Open Scope service_scope.

Definition metric (A : Type) : Type :=
  service (W := option Client * X) (L := system_metrics_line) A.

(** [SystemMetrics()]: [self.model = get_gemini_client()]. *)
Definition SystemMetrics : metric (option Client) :=
  silently (get_gemini_client GeminiClient).

Definition with_client {A} (f : X → result A * X) : metric A :=
  λ st, let '(r, x) := f st.1.2 in (r, ((st.1.1, x), st.2)).

Definition _evaluate_with_llm (model : option Client) (prompt : string)
    (default_score : Qc) : metric Qc :=
  let failed (e : llm_failure) :=
    slog WARNING (LLMEvaluationFailed e);;
    sret default_score in
  match model with
  | None => failed NoClient
  | Some client =>
      let* response :=
        stry (with_client (generate_for_metrics client prompt)) in
      match response with
      | inl e => failed (ClientRaised e)
      | inr response =>
          match first_number response with
          | Some score => sret (Qc_min (Qc_max (score / qc 10 1) 0) 1)
          | None => failed NoNumberInResponse
          end
      end
  end.

Definition detailed_row (result : RawTestCaseResult.t) (score : Qc)
  : DetailedRow.t :=
  DetailedRow.make (RawTestCaseResult.query result)
    (RawTestCaseResult.generated_answer result)
    (RawTestCaseResult.question_type result) score.

(** The loop shared by the three metrics: [skip] is the test of the
    [continue], [prompt] the f-string. *)
Definition score_results (model : option Client)
    (skip : RawTestCaseResult.t → bool)
    (prompt : RawTestCaseResult.t → string)
    (evaluation_data : RawEvaluationData.t)
  : metric (list Qc * list DetailedRow.t) :=
  sfor_each (RawEvaluationData.test_case_results evaluation_data)
    (λ result acc,
       if skip result then sret acc
       else
         let* score := _evaluate_with_llm model (prompt result) (qc 1 2) in
         sret (acc.1 ++ [score],
               if Config.return_detailed_results app_config
               then acc.2 ++ [detailed_row result score]
               else acc.2))
    ([], []).

(** The end of [answer_correctness] and of [context_utilization_rate]. *)
Definition overall (scored : list Qc * list DetailedRow.t) : rated_return :=
  let overall_score :=
    match scored.1 with
    | [] => 0
    | _ => mean scored.1
    end in
  if Config.return_detailed_results app_config
  then RatedDict overall_score scored.2
  else RatedFloat overall_score.

Definition answer_correctness_prompt (result : RawTestCaseResult.t)
  : string :=
  "Rate answer correctness against ground truth (0-10).

Query: " +:+ RawTestCaseResult.query result +:+ "
Ground Truth: " +:+ RawTestCaseResult.ground_truth result +:+ "
Generated Answer: " +:+ RawTestCaseResult.generated_answer result +:+ "

Consider:
- Factual accuracy
- Completeness of important points
- No contradictions

Output only the numeric score (0-10).

Score (0-10):".

Definition answer_correctness_skips (result : RawTestCaseResult.t) : bool :=
  negb (str_truthy (RawTestCaseResult.ground_truth result))
  || negb (str_truthy (RawTestCaseResult.generated_answer result)).

Definition answer_correctness (evaluation_data : RawEvaluationData.t)
  : metric rated_return :=
  let* evaluator := SystemMetrics in
  let* scored :=
    score_results evaluator answer_correctness_skips
      answer_correctness_prompt evaluation_data in
  sret (overall scored).

Definition multi_hop_prompt (result : RawTestCaseResult.t) : string :=
  "Rate multi-hop reasoning quality (0-10).

Query: " +:+ RawTestCaseResult.query result +:+ "
Answer: " +:+ RawTestCaseResult.generated_answer result +:+ "
Documents Used: "
  +:+ pretty (length (RawTestCaseResult.retrieved_documents result)) +:+ "

Rate how well the answer:
1. Connects information across multiple documents (cross-references sources).
2. Presents a clear chain of reasoning.
3. Synthesizes information from the sources effectively.

Output only the numeric score (0-10).

Score (0-10):".

(** The two [continue] tests of [multi_hop_reasoning_score]. *)
Definition multi_hop_skips (result : RawTestCaseResult.t) : bool :=
  ne_member (RawTestCaseResult.question_type result) COMPLEX
  || (negb (str_truthy (RawTestCaseResult.generated_answer result))
      || (length (RawTestCaseResult.retrieved_documents result) <? 2)%nat).

Definition multi_hop_reasoning_score (evaluation_data : RawEvaluationData.t)
  : metric rated_return :=
  let* evaluator := SystemMetrics in
  let* scored :=
    score_results evaluator multi_hop_skips multi_hop_prompt
      evaluation_data in
  match scored.1 with
  | [] => sret RatedNone
  | _ => sret (overall scored)
  end.

Definition context_utilization_prompt (result : RawTestCaseResult.t)
  : string :=
  "Rate context utilization effectiveness (0-10).

Query: " +:+ RawTestCaseResult.query result +:+ "
Answer: " +:+ RawTestCaseResult.generated_answer result +:+ "
Available Contexts: "
  +:+ repr_list (document_content
                   <$> take 5 (RawTestCaseResult.retrieved_documents result))
  +:+ "

Rate how well the answer:
1. Uses information from the provided contexts
2. Doesn't ignore relevant available information
3. Synthesizes context information effectively

Output only the numeric score (0-10).

Score (0-10):".

Definition context_utilization_skips (result : RawTestCaseResult.t) : bool :=
  match RawTestCaseResult.retrieved_documents result with
  | [] => true
  | _ => false
  end
  || negb (str_truthy (RawTestCaseResult.generated_answer result)).

Definition context_utilization_rate (evaluation_data : RawEvaluationData.t)
  : metric rated_return :=
  let* evaluator := SystemMetrics in
  let* scored :=
    score_results evaluator context_utilization_skips
      context_utilization_prompt evaluation_data in
  sret (overall scored).

End SystemMetrics.
End system_metrics.

(** The test case results that a metric does not skip. *)
Definition scored_results (skip : RawTestCaseResult.t → bool)
    (evaluation_data : RawEvaluationData.t) : list RawTestCaseResult.t :=
  filter (λ result, skip result = false)
         (RawEvaluationData.test_case_results evaluation_data).

(** ** [context_precision] ([metrics/retrieval_metrics.py], lines 48-125) *)

Definition Qc_of_nat (n : nat) : Qc := Q2Qc (inject_Z (Z.of_nat n)).

(** The loop over [enumerate(relevance, 1)]. *)
Fixpoint precision_loop (relevance : list nat) (k relevant_count : nat)
    (precision_sum : Qc) : result Qc :=
  match relevance with
  | [] => Ok precision_sum
  | is_relevant :: rest =>
      match is_relevant with
      | O => precision_loop rest (S k) relevant_count precision_sum
      | S _ =>
          let relevant_count := S relevant_count in
          let! ratio :=
            Py.truediv (Qc_of_nat relevant_count) (Qc_of_nat k) in
          precision_loop rest (S k) relevant_count (precision_sum + ratio)
      end
  end.

(** What the [except] of the loop body can catch: there is no client to
    call, the client raised, the response holds no array that [json.loads]
    accepts, the arithmetic of the loop raised, or the sum of the array is
    an int too large to be converted to a float. *)
Inductive precision_failure : Type :=
  | PrecisionNoClient
  | PrecisionClientRaised (e : exn)
  | NoRelevanceArray
  | PrecisionArithmetic (e : exn)
  | IntTooLargeForFloat.

(** [float(n)] of an int, as the division of a float by an int performs
    it: from [2**1024 - 2**970] on the nearest float is out of range and
    [OverflowError] is raised. *)
Definition float_int_limit : Z := 2 ^ 1024 - 2 ^ 970.

Definition float_of_int (n : nat) : option Qc :=
  if (Z.of_nat n <? float_int_limit)%Z then Some (Qc_of_nat n) else None.

(** The precision of one answer of the LLM: [relevance] is the array that
    [json.loads] read. *)
Definition precision_of (relevance : list nat) : precision_failure + Qc :=
  match precision_loop relevance 1 0 0 with
  | Raise e => inl (PrecisionArithmetic e)
  | Ok precision_sum =>
      if (0 <? sum_list relevance)%nat
      then
        match float_of_int (sum_list relevance) with
        | None => inl IntTooLargeForFloat
        | Some total =>
            match Py.truediv precision_sum total with
            | Ok precision => inr precision
            | Raise e => inl (PrecisionArithmetic e)
            end
        end
      else inr 0
  end.

Inductive context_precision_line : Type :=
  | PrecisionEvaluationFailed (e : precision_failure).

Module retrieval_metrics.
Section ContextPrecision.

(** The world is the module global [_gemini_client_instance] and the rest
    [X]. *)
Context {X Client : Type}.

(** The constructor and the method of [GeminiClient];
    [re.search(r'\[[\d,\s]+\]', response)] followed by [json.loads], which
    yields a list of natural numbers or fails; the environment
    configuration, which [get_config()] returns without loading anything
    once a client exists; the text of a document. *)
Variable GeminiClient : X → result Client * X.
Variable generate_for_metrics : Client → string → X → result string * X.
Variable relevance_array : string → option (list nat).
Variable app_config : Config.t.
Variable document_content : Document → string.

Local Open Scope service_scope.

Definition metric (A : Type) : Type :=
  service (W := option Client * X) (L := context_precision_line) A.

Definition with_client {A} (f : X → result A * X) : metric A :=
  λ st, let '(r, x) := f st.1.2 in (r, ((st.1.1, x), st.2)).

Definition _extract_document_texts (documents : list Document)
  : list string :=
  document_content <$> documents.

Definition context_precision_prompt (result : RawTestCaseResult.t) : string :=
  let contexts :=
    take 5 (_extract_document_texts
              (RawTestCaseResult.retrieved_documents result)) in
  let contexts_text :=
    String.concat (newline +:+ newline)
      (imap (λ i ctx,
               pretty (i + 1)%nat +:+ ". " +:+ String.substring 0 200 ctx
               +:+ "...")
            contexts) in
  "Evaluate the relevance of each retrieved context to the query.

Query: " +:+ RawTestCaseResult.query result +:+ "

Retrieved Contexts:
" +:+ contexts_text +:+ "

For each context, determine if it contains information that would be useful for answering the query.

Respond with ONLY a JSON array of 1 (relevant) or 0 (not relevant), one for each context in order.

Example response: [1, 0, 1, 0, 1]

Response:".

(** The [try] block of the loop body, with its [except]. *)
Definition judged_precision (model : option Client)
    (result : RawTestCaseResult.t) : metric Qc :=
  let failed (e : precision_failure) :=
    slog WARNING (PrecisionEvaluationFailed e);;
    sret 0 in
  match model with
  | None => failed PrecisionNoClient
  | Some client =>
      let* response :=
        stry (with_client
                (generate_for_metrics client
                   (context_precision_prompt result))) in
      match response with
      | inl e => failed (PrecisionClientRaised e)
      | inr response =>
          match relevance_array response with
          | None => failed NoRelevanceArray
          | Some relevance =>
              match precision_of relevance with
              | inr precision => sret precision
              | inl e => failed e
              end
          end
      end
  end.

Definition context_precision_skips (result : RawTestCaseResult.t) : bool :=
  match RawTestCaseResult.retrieved_documents result with
  | [] => true
  | _ => false
  end
  || negb (str_truthy (RawTestCaseResult.query result)).

(** [count] is at most the length of a Python list: its conversion to a
    float in [total_precision / count] is exact. *)
Definition context_precision (evaluation_data : RawEvaluationData.t)
  : metric rated_return :=
  let* model := silently (get_gemini_client GeminiClient) in
  let* final :=
    sfor_each (RawEvaluationData.test_case_results evaluation_data)
      (λ result acc,
         let '(total_precision, count, detailed_results) := acc in
         if context_precision_skips result then sret acc
         else
           let* precision := judged_precision model result in
           sret (total_precision + precision, S count,
                 if Config.return_detailed_results app_config
                 then detailed_results
                      ++ [system_metrics.detailed_row result precision]
                 else detailed_results))
      (0, 0%nat, []) in
  let '(total_precision, count, detailed_results) := final in
  let* overall_score :=
    if (0 <? count)%nat
    then slift (Py.truediv total_precision (Qc_of_nat count))
    else sret 0 in
  if Config.return_detailed_results app_config
  then sret (RatedDict overall_score detailed_results)
  else sret (RatedFloat overall_score).

End ContextPrecision.
End retrieval_metrics.

(** ** Sample collaborators for the code above *)

Definition sample_environ : gmap string string :=
  list_to_map [("PINECONE_API_KEY", "pk"); ("GEMINI_API_KEY", "gk");
               ("PINECONE_INDEX_NAME", "idx");
               ("RETURN_DETAILED_RESULTS", "Yes")].

(** A stand-in for the MD5 of the generation configuration. *)
Definition sample_hash (generation_config : list string * list (string * Z))
  : string :=
  String.concat "-" generation_config.1.

(** An index that yields one document, and an LLM that writes one
    question. *)
Definition sample_index (sample_size : Z) (x : ()) : result (list string) * () :=
  (Ok ["a document"], x).

Definition sample_question_writer (documents : list string)
    (question_types : list QuestionType)
    (counts_per_type : list (QuestionType * Z)) (x : ())
  : result (list RawTestCase.t) * () :=
  (Ok [raw (TestCase.make "what is a cache" "a store" "simple" [])], x).

(** A client that can always be constructed and that answers every prompt
    with a rating. *)
Definition sample_client (x : ()) : result () * () := (Ok (), x).

Definition sample_rater (client : ()) (prompt : string) (w : ())
  : result string * () :=
  (Ok "Score: 8.5", w).

(** One result of a string type and one that holds the member
    [QuestionType.COMPLEX], both with an answer and two documents. *)
Definition sample_string_typed : RawTestCaseResult.t :=
  RawTestCaseResult.make "q" "an answer" ["d1"; "d2"] "a truth" []
    (Plain "complex").

Definition sample_member_typed : RawTestCaseResult.t :=
  RawTestCaseResult.make "q" "an answer" ["d1"; "d2"] "a truth" []
    (Member COMPLEX).

(** ** Properties *)

(** *** Python arithmetic *)

Lemma truediv_nonzero (x y : Qc) : y ≠ 0 → Py.truediv x y = Ok (x / y).
Proof. intros Hy. unfold Py.truediv. by destruct (decide (y = 0)). Qed.

Lemma truediv_zero (x : Qc) : Py.truediv x 0 = Raise ZeroDivisionError.
Proof. unfold Py.truediv. by destruct (decide (0 = 0)). Qed.

Lemma gt0_true (y : Qc) : 0 < y → Py.gt0 y = true.
Proof. intros Hy. unfold Py.gt0. by apply bool_decide_eq_true. Qed.

Lemma gt0_false (y : Qc) : ¬ 0 < y → Py.gt0 y = false.
Proof. intros Hy. unfold Py.gt0. by apply bool_decide_eq_false. Qed.

Lemma Qc_pos_nonzero (y : Qc) : 0 < y → y ≠ 0.
Proof. intros Hy ->. by apply (Qcle_not_lt 0 0). Qed.

Lemma sum_gen_Ok {A} (f : A → result Qc) (xs : list A) (vs : list Qc) acc :
  Forall2 (λ x v, f x = Ok v) xs vs →
  Py.sum_gen f acc xs = Ok (foldl Qcplus acc vs).
Proof.
  intros HF. revert acc.
  induction HF as [|x v xs vs Hx _ IH]; intros acc; simpl; [done|].
  rewrite Hx. simpl. apply IH.
Qed.

Lemma weighted_scores_zip {A} (score : A → result Qc) (weight : A → Qc)
    (xs : list A) (ss : list Qc) :
  Forall2 (λ x s, score x = Ok s) xs ss →
  Forall2 (λ x v, (let! s := score x in Ok (s * weight x)) = Ok v)
    xs ((λ p, p.1 * p.2) <$> zip ss (weight <$> xs)).
Proof.
  induction 1 as [|x s xs ss Hx _ IH]; simpl; constructor; [|done].
  by rewrite Hx.
Qed.

Lemma total_weight_zip {A} (weight : A → Qc) (xs : list A) (ss : list Qc) :
  length xs = length ss →
  total_weight (zip ss (weight <$> xs)) = Py.sum (weight <$> xs).
Proof.
  intros Hlen. unfold total_weight. rewrite snd_zip; [done|].
  rewrite length_fmap. lia.
Qed.

Lemma guarded_average {A} (score : A → result Qc) (weight : A → Qc)
    (xs : list A) (ss : list Qc) :
  Forall2 (λ x s, score x = Ok s) xs ss →
  (let! weighted_sum :=
     Py.sum_gen (λ x, let! s := score x in Ok (s * weight x)) 0 xs in
   if Py.gt0 (Py.sum (weight <$> xs))
   then Py.truediv weighted_sum (Py.sum (weight <$> xs))
   else Ok 0)
  = Ok (if Py.gt0 (total_weight (zip ss (weight <$> xs)))
        then weighted_average (zip ss (weight <$> xs))
        else 0).
Proof.
  intros HF.
  rewrite (sum_gen_Ok _ _ _ _ (weighted_scores_zip score weight xs ss HF)).
  rewrite <-(total_weight_zip weight xs ss) by (by eapply Forall2_length).
  simpl. unfold Py.gt0. case_bool_decide as Hpos; [|done].
  by rewrite truediv_nonzero by by apply Qc_pos_nonzero.
Qed.

(** *** The three [score] properties *)

Lemma QuestionResult_score_empty q :
  QuestionResult.metrics q = [] → QuestionResult.score q = Ok 0.
Proof. intros Hq. unfold QuestionResult.score. by rewrite Hq. Qed.

Lemma QuestionResult_score_unfold q :
  QuestionResult.metrics q ≠ [] →
  QuestionResult.score q
  = Py.truediv (Py.sum ((λ p, p.1 * p.2) <$> metric_pairs q))
      (total_weight (metric_pairs q)).
Proof.
  intros Hq. unfold QuestionResult.score, total_weight, metric_pairs.
  destruct (QuestionResult.metrics q) as [|m ms]; [done|].
  by rewrite <-!list_fmap_compose.
Qed.

Lemma QuestionResult_score_average q :
  QuestionResult.metrics q ≠ [] →
  total_weight (metric_pairs q) ≠ 0 →
  QuestionResult.score q = Ok (weighted_average (metric_pairs q)).
Proof.
  intros Hq Hw. rewrite QuestionResult_score_unfold by done.
  by apply truediv_nonzero.
Qed.

Lemma QuestionResult_score_zero_weight q :
  QuestionResult.metrics q ≠ [] →
  total_weight (metric_pairs q) = 0 →
  QuestionResult.score q = Raise ZeroDivisionError.
Proof.
  intros Hq Hw. rewrite QuestionResult_score_unfold by done.
  rewrite Hw. apply truediv_zero.
Qed.

Lemma GoalResult_score_empty g :
  GoalResult.questions g = [] → GoalResult.score g = Ok 0.
Proof. intros Hg. unfold GoalResult.score. by rewrite Hg. Qed.

Lemma GoalResult_score_children g ss :
  GoalResult.questions g ≠ [] →
  Forall2 (λ q s, QuestionResult.score q = Ok s) (GoalResult.questions g) ss →
  let ps := zip ss (QuestionResult.weight <$> GoalResult.questions g) in
  GoalResult.score g
  = Ok (if Py.gt0 (total_weight ps) then weighted_average ps else 0).
Proof.
  intros Hg HF ps. subst ps. unfold GoalResult.score.
  rewrite <-(guarded_average _ _ _ _ HF).
  by destruct (GoalResult.questions g).
Qed.

Lemma EvaluationResult_score_empty r :
  EvaluationResult.goals r = [] → EvaluationResult.score r = Ok 0.
Proof. intros Hr. unfold EvaluationResult.score. by rewrite Hr. Qed.

Lemma EvaluationResult_score_children r ss :
  EvaluationResult.goals r ≠ [] →
  Forall2 (λ g s, GoalResult.score g = Ok s) (EvaluationResult.goals r) ss →
  let ps := zip ss (GoalResult.weight <$> EvaluationResult.goals r) in
  EvaluationResult.score r
  = Ok (if Py.gt0 (total_weight ps) then weighted_average ps else 0).
Proof.
  intros Hr HF ps. subst ps. unfold EvaluationResult.score.
  rewrite <-(guarded_average _ _ _ _ HF).
  by destruct (EvaluationResult.goals r).
Qed.

(** *** C1 *)

(** C1, as stated, fails where the children's total weight is negative:
    for one question of score 0.8 and weight -1, as a configuration with
    that question weight produces it, the formula sum(s_i*w_i)/sum(w_i)
    gives 0.8 and [GoalResult.score] gives 0.0. *)
Lemma C1_counterexample_negative_total_weight :
  (@evaluate plain_run negative_weight_config []
     (@GQMFramework_init plain_run ())).1
  = Ok (EvaluationResult.make [negative_weight_goal])
  ∧ Forall2 (λ q s, QuestionResult.score q = Ok s)
      (GoalResult.questions negative_weight_goal) [qc 4 5]
  ∧ weighted_average
      (zip [qc 4 5]
         (QuestionResult.weight <$> GoalResult.questions negative_weight_goal))
    = qc 4 5
  ∧ GoalResult.score negative_weight_goal = Ok 0
  ∧ ¬ (∀ g ss,
         GoalResult.questions g ≠ [] →
         Forall2 (λ q s, QuestionResult.score q = Ok s)
           (GoalResult.questions g) ss →
         GoalResult.score g
         = Ok (weighted_average
                 (zip ss (QuestionResult.weight <$> GoalResult.questions g)))).
Proof.
  assert (HF : Forall2 (λ q s, QuestionResult.score q = Ok s)
                 (GoalResult.questions negative_weight_goal) [qc 4 5]).
  { constructor; [by vm_compute | constructor]. }
  split_and!; [by vm_compute | done | by vm_compute | by vm_compute |].
  intros Hclaim.
  specialize (Hclaim negative_weight_goal [qc 4 5] ltac:(done) HF).
  vm_compute in Hclaim. discriminate Hclaim.
Qed.

(** C1 (amended).  A parent with children evaluates to the weighted average
    sum(s_i*w_i)/sum(w_i) of its children's scores whenever their total
    weight is positive ([QuestionResult]: whenever it is not zero); a
    [GoalResult] or [EvaluationResult] whose children's total weight is not
    positive evaluates to 0.0; a parent without children evaluates to 0.0.
    In the scenario of the specification the question, the goal and the
    overall score are all 2/3. *)
Theorem C1_scores_are_weighted_averages :
  (∀ q, QuestionResult.metrics q ≠ [] →
        total_weight (metric_pairs q) ≠ 0 →
        QuestionResult.score q = Ok (weighted_average (metric_pairs q)))
  ∧ (∀ g ss,
        GoalResult.questions g ≠ [] →
        Forall2 (λ q s, QuestionResult.score q = Ok s)
          (GoalResult.questions g) ss →
        let ps := zip ss (QuestionResult.weight <$> GoalResult.questions g) in
        (0 < total_weight ps → GoalResult.score g = Ok (weighted_average ps))
        ∧ (¬ 0 < total_weight ps → GoalResult.score g = Ok 0))
  ∧ (∀ r ss,
        EvaluationResult.goals r ≠ [] →
        Forall2 (λ g s, GoalResult.score g = Ok s)
          (EvaluationResult.goals r) ss →
        let ps := zip ss (GoalResult.weight <$> EvaluationResult.goals r) in
        (0 < total_weight ps →
         EvaluationResult.score r = Ok (weighted_average ps))
        ∧ (¬ 0 < total_weight ps → EvaluationResult.score r = Ok 0))
  ∧ (∀ q, QuestionResult.metrics q = [] → QuestionResult.score q = Ok 0)
  ∧ (∀ g, GoalResult.questions g = [] → GoalResult.score g = Ok 0)
  ∧ (∀ r, EvaluationResult.goals r = [] → EvaluationResult.score r = Ok 0)
  ∧ QuestionResult.score scenario_question = Ok (qc 2 3)
  ∧ GoalResult.score scenario_goal = Ok (qc 2 3)
  ∧ EvaluationResult.score scenario_result = Ok (qc 2 3).
Proof.
  split_and!.
  - apply QuestionResult_score_average.
  - intros g ss Hg HF ps.
    rewrite (GoalResult_score_children g ss Hg HF). fold ps.
    split; intros Hw; [by rewrite gt0_true | by rewrite gt0_false].
  - intros r ss Hr HF ps.
    rewrite (EvaluationResult_score_children r ss Hr HF). fold ps.
    split; intros Hw; [by rewrite gt0_true | by rewrite gt0_false].
  - apply QuestionResult_score_empty.
  - apply GoalResult_score_empty.
  - apply EvaluationResult_score_empty.
  - by vm_compute.
  - by vm_compute.
  - by vm_compute.
Qed.

Lemma C1_witness :
  GoalResult.questions scenario_goal ≠ []
  ∧ Forall2 (λ q s, QuestionResult.score q = Ok s)
      (GoalResult.questions scenario_goal) [qc 2 3]
  ∧ 0 < total_weight (zip [qc 2 3] [1])
  ∧ GoalResult.score scenario_goal
    = Ok (weighted_average (zip [qc 2 3] [1])).
Proof.
  assert (H1 : GoalResult.questions scenario_goal ≠ []) by done.
  assert (H2 : Forall2 (λ q s, QuestionResult.score q = Ok s)
                 (GoalResult.questions scenario_goal) [qc 2 3]).
  { constructor; [by vm_compute | constructor]. }
  assert (H3 : 0 < total_weight (zip [qc 2 3] [1])) by reflexivity.
  split_and!; [exact H1 | exact H2 | exact H3 |].
  exact (proj1 (proj1 (proj2 C1_scores_are_weighted_averages)
                  scenario_goal [qc 2 3] H1 H2) H3).
Defined.

(** *** C3 *)

(** C3 (the code at the failing input).  A [QuestionResult] whose only
    metric has weight 0.0 has a non-empty metric list of total weight 0;
    its [score] divides without a guard and raises [ZeroDivisionError], and
    so do the scores of the goal and of the evaluation result that contain
    it, and [to_dict].  A configuration with the metric weight 0.0 leads
    there: [evaluate] returns such a tree, and [EvaluationPipeline.evaluate]
    raises when it logs the overall score. *)
Theorem C3_question_score_divides_by_zero :
  QuestionResult.metrics zero_weight_question ≠ []
  ∧ total_weight (metric_pairs zero_weight_question) = 0
  ∧ QuestionResult.score zero_weight_question = Raise ZeroDivisionError
  ∧ GoalResult.score zero_weight_goal = Raise ZeroDivisionError
  ∧ EvaluationResult.score zero_weight_result = Raise ZeroDivisionError
  ∧ to_dict zero_weight_result = Raise ZeroDivisionError
  ∧ (∃ r, (@evaluate plain_run zero_weight_config []
             (@GQMFramework_init plain_run ())).1 = Ok r
          ∧ EvaluationResult.score r = Raise ZeroDivisionError)
  ∧ (@pipeline_evaluate plain_run zero_weight_config []
       (@GQMFramework_init plain_run ())).1 = Raise ZeroDivisionError.
Proof.
  split_and!; [done | by vm_compute .. | | by vm_compute].
  eexists. split; by vm_compute.
Qed.

(** The guard of the two sibling properties: with children that all have a
    score and whose weights sum to zero, the result is 0.0. *)
Lemma GoalResult_score_guarded g ss :
  Forall2 (λ q s, QuestionResult.score q = Ok s) (GoalResult.questions g) ss →
  Py.sum (QuestionResult.weight <$> GoalResult.questions g) = 0 →
  GoalResult.score g = Ok 0.
Proof.
  intros HF Hw. destruct (decide (GoalResult.questions g = [])) as [Hg|Hg].
  - by apply GoalResult_score_empty.
  - rewrite (GoalResult_score_children g ss Hg HF).
    rewrite total_weight_zip by (by eapply Forall2_length).
    by rewrite Hw.
Qed.

Lemma EvaluationResult_score_guarded r ss :
  Forall2 (λ g s, GoalResult.score g = Ok s) (EvaluationResult.goals r) ss →
  Py.sum (GoalResult.weight <$> EvaluationResult.goals r) = 0 →
  EvaluationResult.score r = Ok 0.
Proof.
  intros HF Hw. destruct (decide (EvaluationResult.goals r = [])) as [Hr|Hr].
  - by apply EvaluationResult_score_empty.
  - rewrite (EvaluationResult_score_children r ss Hr HF).
    rewrite total_weight_zip by (by eapply Forall2_length).
    by rewrite Hw.
Qed.

(** *** Serialization *)

Lemma rmapM_Ok {A B} (f : A → result B) xs ys :
  rmapM f xs = Ok ys → Forall2 (λ x y, f x = Ok y) xs ys.
Proof.
  revert ys. induction xs as [|x xs IH]; intros ys; simpl.
  - intros [= <-]. constructor.
  - destruct (f x) as [y|] eqn:Hx; simpl; [|done].
    destruct (rmapM f xs) as [ys'|]; simpl; [|done].
    intros [= <-]. constructor; [done|by apply IH].
Qed.

Lemma rmapM_length {A B} (f : A → result B) xs ys :
  rmapM f xs = Ok ys → length ys = length xs.
Proof. intros Hm. symmetry. by eapply Forall2_length, rmapM_Ok. Qed.

Lemma recorded_metric m :
  recorded "value" (metric_to_dict m)
  = Some (MetricResult.value m, MetricResult.weight m).
Proof. unfold metric_to_dict. by destruct (MetricResult.has_details m). Qed.

Lemma option_mapM_cons {A B} (f : A → option B) x l :
  mapM f (x :: l) = y ← f x; k ← mapM f l; Some (y :: k).
Proof. done. Qed.

Lemma recorded_metrics ms :
  mapM (recorded "value") (metric_to_dict <$> ms)
  = Some ((λ m, (MetricResult.value m, MetricResult.weight m)) <$> ms).
Proof.
  induction ms as [|m ms IH]; [done|].
  rewrite !fmap_cons, option_mapM_cons. by rewrite recorded_metric, IH.
Qed.

Lemma QuestionResult_score_Ok q s :
  QuestionResult.score q = Ok s → s = average_or_zero (metric_pairs q).
Proof.
  unfold QuestionResult.score, average_or_zero, metric_pairs.
  destruct (QuestionResult.metrics q) as [|m ms] eqn:Hq.
  - by intros [= <-].
  - unfold Py.truediv. case_decide; [done|]. intros [= <-].
    unfold weighted_average, total_weight.
    by rewrite <-!list_fmap_compose.
Qed.

Lemma question_to_dict_Ok q e :
  question_to_dict q = Ok e →
  ∃ s, QuestionResult.score q = Ok s
       ∧ recorded "score" e = Some (s, QuestionResult.weight q)
       ∧ question_entry_ok average_or_zero e = true.
Proof.
  unfold question_to_dict.
  destruct (QuestionResult.score q) as [s|] eqn:Hs; simpl; [|done].
  intros [= <-]. exists s. split_and!; [done..|].
  unfold question_entry_ok, score_matches, recorded_children. simpl.
  rewrite recorded_metrics. simpl.
  apply bool_decide_eq_true. by apply QuestionResult_score_Ok.
Qed.

Lemma questions_to_dict_Ok qs es :
  Forall2 (λ q e, question_to_dict q = Ok e) qs es →
  ∃ ss, Forall2 (λ q s, QuestionResult.score q = Ok s) qs ss
        ∧ mapM (recorded "score") es
          = Some (zip ss (QuestionResult.weight <$> qs))
        ∧ forallb (question_entry_ok average_or_zero) es = true.
Proof.
  induction 1 as [|q e qs es Hq _ (ss & HF & Hm & Hall)].
  - by exists [].
  - destruct (question_to_dict_Ok q e Hq) as (s & Hs & Hr & Hok).
    exists (s :: ss). split_and!.
    + by constructor.
    + rewrite option_mapM_cons. by rewrite Hr, Hm.
    + simpl. by rewrite Hok, Hall.
Qed.

Lemma GoalResult_score_Ok g s ss :
  GoalResult.score g = Ok s →
  Forall2 (λ q s, QuestionResult.score q = Ok s) (GoalResult.questions g) ss →
  s = guarded_weighted_average
        (zip ss (QuestionResult.weight <$> GoalResult.questions g)).
Proof.
  intros Hs HF. destruct (decide (GoalResult.questions g = [])) as [Hg|Hg].
  - rewrite GoalResult_score_empty in Hs by done. rewrite Hg.
    destruct ss; by inversion Hs.
  - rewrite (GoalResult_score_children g ss Hg HF) in Hs. by inversion Hs.
Qed.

Lemma EvaluationResult_score_Ok r s ss :
  EvaluationResult.score r = Ok s →
  Forall2 (λ g s, GoalResult.score g = Ok s) (EvaluationResult.goals r) ss →
  s = guarded_weighted_average
        (zip ss (GoalResult.weight <$> EvaluationResult.goals r)).
Proof.
  intros Hs HF. destruct (decide (EvaluationResult.goals r = [])) as [Hr|Hr].
  - rewrite EvaluationResult_score_empty in Hs by done. rewrite Hr.
    destruct ss; by inversion Hs.
  - rewrite (EvaluationResult_score_children r ss Hr HF) in Hs.
    by inversion Hs.
Qed.

Lemma goal_to_dict_Ok g e :
  goal_to_dict g = Ok e →
  ∃ s, GoalResult.score g = Ok s
       ∧ recorded "score" e = Some (s, GoalResult.weight g)
       ∧ goal_entry_ok average_or_zero guarded_weighted_average e = true.
Proof.
  unfold goal_to_dict.
  destruct (GoalResult.score g) as [s|] eqn:Hs; simpl; [|done].
  destruct (rmapM question_to_dict (GoalResult.questions g)) as [es|] eqn:Hes;
    simpl; [|done].
  intros [= <-]. exists s. split_and!; [done..|].
  destruct (questions_to_dict_Ok _ _ (rmapM_Ok _ _ _ Hes))
    as (ss & HF & Hm & Hall).
  unfold goal_entry_ok, score_matches, recorded_children, children_all.
  simpl. rewrite Hm, Hall. simpl.
  rewrite andb_true_r. apply bool_decide_eq_true.
  by apply GoalResult_score_Ok.
Qed.

Lemma goals_to_dict_Ok gs es :
  Forall2 (λ g e, goal_to_dict g = Ok e) gs es →
  ∃ ss, Forall2 (λ g s, GoalResult.score g = Ok s) gs ss
        ∧ mapM (recorded "score") es = Some (zip ss (GoalResult.weight <$> gs))
        ∧ forallb (goal_entry_ok average_or_zero guarded_weighted_average) es
          = true.
Proof.
  induction 1 as [|g e gs es Hg _ (ss & HF & Hm & Hall)].
  - by exists [].
  - destruct (goal_to_dict_Ok g e Hg) as (s & Hs & Hr & Hok).
    exists (s :: ss). split_and!.
    + by constructor.
    + rewrite option_mapM_cons. by rewrite Hr, Hm.
    + simpl. by rewrite Hok, Hall.
Qed.

(** *** C10 *)

(** C10, as stated, fails on the same input as C1: the document of
    [negative_weight_result] records the goal score 0.0 over one question
    entry of score 0.8 and weight -1, whose weighted average is 0.8. *)
Lemma C10_counterexample_negative_total_weight :
  (@evaluate plain_run negative_weight_config []
     (@GQMFramework_init plain_run ())).1
  = Ok negative_weight_result
  ∧ ∃ doc goal,
      to_dict negative_weight_result = Ok doc
      ∧ json_field doc "goals" = Some (JList [goal])
      ∧ recorded "score" goal = Some (0, 1)
      ∧ recorded_children "questions" "score" goal = Some [(qc 4 5, - 1)]
      ∧ weighted_average [(qc 4 5, - 1)] = qc 4 5
      ∧ document_ok average_or_zero average_or_zero doc = false.
Proof.
  split; [by vm_compute|]. eexists _, _.
  split_and!; [by vm_compute | reflexivity | by vm_compute ..].
Qed.

(** C10 (amended).  Every document that [to_dict] produces is internally
    consistent in this sense: each question's recorded score is the
    weighted average of its recorded metric values and weights (0.0 without
    metrics); each goal's recorded score is the weighted average of its
    questions' recorded scores and weights where their total weight is
    positive and 0.0 otherwise; the recorded overall score is obtained in
    the same way from the recorded goal scores and weights. *)
Theorem C10_document_scores_recomputed_from_children r doc :
  to_dict r = Ok doc →
  document_ok average_or_zero guarded_weighted_average doc = true.
Proof.
  unfold to_dict.
  destruct (EvaluationResult.score r) as [s|] eqn:Hs; simpl; [|done].
  destruct (rmapM goal_to_dict (EvaluationResult.goals r)) as [es|] eqn:Hes;
    simpl; [|done].
  intros [= <-].
  destruct (goals_to_dict_Ok _ _ (rmapM_Ok _ _ _ Hes)) as (ss & HF & Hm & Hall).
  unfold document_ok, score_matches, recorded_children, children_all.
  simpl. rewrite Hm, Hall. simpl.
  rewrite andb_true_r. apply bool_decide_eq_true.
  by apply EvaluationResult_score_Ok.
Qed.

Lemma C10_witness :
  ∃ doc, to_dict scenario_result = Ok doc
         ∧ document_ok average_or_zero guarded_weighted_average doc = true.
Proof.
  eexists. split; [by vm_compute|].
  apply (C10_document_scores_recomputed_from_children scenario_result).
  by vm_compute.
Defined.

(** *** The dispatcher and the cache *)

Section Run.
Context `{Collaborators}.
Local Open Scope M_scope.

Lemma MetricId_of_value_members m :
  MetricId_of_value (MetricId_value m) = Ok m.
Proof. by destruct m. Qed.

Lemma MetricId_of_value_unknown metric_id :
  metric_id ∉ (MetricId_value <$> MetricId_members) →
  MetricId_of_value metric_id = Raise ValueError.
Proof.
  intros Hnot. unfold MetricId_of_value.
  destruct (list_find _ _) as [[i m]|] eqn:Hfind; [|done].
  apply list_find_Some in Hfind as (Hi & <- & _).
  destruct Hnot. apply list_elem_of_fmap. exists m. split; [done|].
  by eapply list_elem_of_lookup_2.
Qed.

Lemma execute_metric_spec metric_id d s :
  execute_metric metric_id d s
  = (Ok (executor_outcome metric_id d (outside s)).1,
     State (metric_cache s)
       (executor_outcome metric_id d (outside s)).2
       (log s ++ executor_log metric_id d (outside s))
       (executed s ++ [metric_id])
       (queried s)).
Proof.
  unfold execute_metric, executor_outcome, executor_log, bind, note_executed.
  destruct (MetricId_of_value metric_id) as [m|e].
  - unfold catch, metric_functions, metric_function_of, call, ret, bind, logger.
    destruct m; simpl;
      match goal with
      | |- context [?f d (outside s)] =>
          destruct (f d (outside s)) as [[v|e] w']
      end; simpl; by rewrite ?app_nil_r.
  - by unfold logger, ret; simpl.
Qed.

Lemma get_or_execute_hit metric_id weight d s c :
  metric_cache s !! metric_id = Some c →
  _get_or_execute_metric metric_id weight d s
  = (Ok (Some (MetricResult.make metric_id (CachedMetricResult.value c)
                 weight (CachedMetricResult.individual_scores c))),
     State (metric_cache s) (outside s)
       (log s ++ [(INFO, UsingCachedResult metric_id)])
       (executed s) (queried s)).
Proof.
  intros Hc. unfold _get_or_execute_metric, bind, read_metric_cache.
  by rewrite Hc.
Qed.

Lemma get_or_execute_miss metric_id weight d s :
  metric_cache s !! metric_id = None →
  let v := (executor_outcome metric_id d (outside s)).1 in
  let w' := (executor_outcome metric_id d (outside s)).2 in
  let l := (log s ++ [(INFO, ExecutingMetric metric_id)])
           ++ executor_log metric_id d (outside s) in
  let stored x ind :=
    (Ok (Some (MetricResult.make metric_id x weight ind)),
     State (<[metric_id := CachedMetricResult.make metric_id x ind]>
              (metric_cache s))
       w' (l ++ [(INFO, MetricExecuted metric_id v)])
       (executed s ++ [metric_id]) (queried s)) in
  _get_or_execute_metric metric_id weight d s
  = match v with
    | RNone =>
        (Ok None,
         State (metric_cache s) w' l (executed s ++ [metric_id]) (queried s))
    | RFloat x => stored x None
    | RDict score individual_scores =>
        if Config.return_detailed_results get_config
        then stored (default 0 score) individual_scores
        else (Raise TypeError,
              State (metric_cache s) w'
                ((l ++ [(INFO, MetricExecuted metric_id v)])
                 ++ [(ERROR, MetricFailed metric_id TypeError)])
                (executed s ++ [metric_id]) (queried s))
    end.
Proof.
  intros Hc. simpl.
  unfold _get_or_execute_metric, bind at 1, read_metric_cache.
  rewrite Hc. unfold bind at 1, logger at 1, catch, bind at 1.
  rewrite execute_metric_spec. simpl.
  destruct (executor_outcome metric_id d (outside s)).1 as [|x|sc ind];
    simpl; [done|done|].
  by destruct (Config.return_detailed_results get_config).
Qed.

(** *** Relations that every step of a run respects *)

Section Relation.
Variable R : state → state → Prop.
Hypothesis R_trans : ∀ s1 s2 s3, R s1 s2 → R s2 s3 → R s1 s3.
Hypothesis R_frame :
  ∀ s s', metric_cache s' = metric_cache s → executed s' = executed s → R s s'.

Lemma always_ret {A} (a : A) : always R (ret a).
Proof. intros s r s' [= _ <-]. by apply R_frame. Qed.

Lemma always_raise {A} e : always R (raise (A := A) e).
Proof. intros s r s' [= _ <-]. by apply R_frame. Qed.

Lemma always_lift {A} (r : result A) : always R (lift r).
Proof. intros s r' s' [= _ <-]. by apply R_frame. Qed.

Lemma always_logger l e : always R (logger l e).
Proof. intros s r s' [= _ <-]. by apply R_frame. Qed.

Lemma always_note_queried q : always R (note_queried q).
Proof. intros s r s' [= _ <-]. by apply R_frame. Qed.

Lemma always_call {A} (f : effect A) : always R (call f).
Proof.
  intros s r s'. unfold call. destruct (f (outside s)) as [r' w].
  intros [= _ <-]. by apply R_frame.
Qed.

Lemma always_bind {A B} (c : M A) (k : A → M B) :
  always R c → (∀ a, always R (k a)) → always R (bind c k).
Proof.
  intros Hc Hk s r s'. unfold bind.
  destruct (c s) as [[a|e] s1] eqn:Hcs.
  - intros Hks. eapply R_trans; [by eapply Hc | by eapply Hk].
  - intros [= _ <-]. by eapply Hc.
Qed.

Lemma always_catch {A} (c : M A) (h : exn → M A) :
  always R c → (∀ e, always R (h e)) → always R (catch c h).
Proof.
  intros Hc Hh s r s'. unfold catch.
  destruct (c s) as [[a|e] s1] eqn:Hcs.
  - intros [= _ <-]. by eapply Hc.
  - intros Hhs. eapply R_trans; [by eapply Hc | by eapply Hh].
Qed.

Lemma always_for_each {A S} (xs : list A) (body : A → S → M S) acc :
  (∀ x acc, always R (body x acc)) → always R (for_each xs body acc).
Proof.
  intros Hbody. revert acc.
  induction xs as [|x xs IH]; intros acc; simpl.
  - apply always_ret.
  - apply always_bind; [apply Hbody | intros acc'; apply IH].
Qed.

Ltac framed :=
  repeat first
    [ solve [auto] | apply always_ret | apply always_raise | apply always_lift
    | apply always_logger | apply always_note_queried | apply always_call
    | apply always_bind; [|intros ?]
    | apply always_catch; [|intros ?]
    | apply always_for_each; intros ? ?; cbv beta
    | match goal with
      | |- always _ (match ?x with _ => _ end) => destruct x
      end
    ].

Lemma always_test_rag_system tcs : always R (_test_rag_system tcs).
Proof. unfold _test_rag_system. framed. Qed.

Lemma always_unload_rag_system : always R _unload_rag_system.
Proof. unfold _unload_rag_system. framed. Qed.

Section Always.
Hypothesis R_metric :
  ∀ metric_id w d, always R (_get_or_execute_metric metric_id w d).

Lemma always_evaluate_question qc d : always R (evaluate_question qc d).
Proof. unfold evaluate_question. framed. Qed.

Lemma always_evaluate_goal gc d : always R (evaluate_goal gc d).
Proof.
  unfold evaluate_goal. pose proof always_evaluate_question. framed.
Qed.

Lemma always_evaluate config tcs : always R (evaluate config tcs).
Proof.
  unfold evaluate.
  pose proof always_evaluate_goal. pose proof always_test_rag_system.
  pose proof always_unload_rag_system. framed.
Qed.

Lemma always_pipeline_evaluate config tcs :
  always R (pipeline_evaluate config tcs).
Proof. unfold pipeline_evaluate. pose proof always_evaluate. framed. Qed.
End Always.

End Relation.

(** *** The cache only grows *)

Lemma extends_trans s1 s2 s3 : extends s1 s2 → extends s2 s3 → extends s1 s3.
Proof.
  intros (Hc1 & n1 & He1 & Hn1) (Hc2 & n2 & He2 & Hn2). split.
  - by etrans.
  - exists (n1 ++ n2). split; [by rewrite He2, He1, (assoc_L (++))|].
    intros m [Hm|Hm]%elem_of_app; [by apply Hn1|].
    eapply lookup_weaken_None; [by apply Hn2 | done].
Qed.

Lemma extends_frame s s' :
  metric_cache s' = metric_cache s → executed s' = executed s → extends s s'.
Proof.
  intros Hc He. split; [by rewrite Hc|].
  exists []. split; [by rewrite He, app_nil_r | by intros m ?%elem_of_nil].
Qed.

Lemma extends_get_or_execute metric_id w d :
  always extends (_get_or_execute_metric metric_id w d).
Proof.
  intros s r s'. destruct (metric_cache s !! metric_id) as [c|] eqn:Hc.
  - rewrite (get_or_execute_hit _ _ _ _ _ Hc). intros [= _ <-].
    by apply extends_frame.
  - rewrite (get_or_execute_miss _ _ _ _ Hc). cbv zeta.
    assert (∀ m, m ∈ [metric_id] → metric_cache s !! m = None) as Hnew.
    { by intros m ->%list_elem_of_singleton. }
    destruct (executor_outcome metric_id d (outside s)).1 as [|x|sc ind];
      [| |destruct (Config.return_detailed_results get_config)];
      intros [= _ <-]; (split; [|by eexists]); simpl;
      first [done | by apply insert_subseteq].
Qed.

Lemma invocations_snoc metric_id s s' metric_id' :
  executed s' = executed s ++ [metric_id'] →
  invocations metric_id s'
  = (invocations metric_id s + if decide (metric_id' = metric_id) then 1 else 0)%nat.
Proof.
  intros He. unfold invocations. rewrite He, filter_app, length_app.
  f_equal. rewrite filter_cons, filter_nil. by case_decide.
Qed.

(** *** The result tree mirrors the configuration *)

Lemma from_cache_mono cache cache' m :
  cache ⊆ cache' → from_cache cache m → from_cache cache' m.
Proof.
  intros Hsub (c & Hc & Hv & Hi). exists c.
  split; [by eapply lookup_weaken|done].
Qed.

Lemma question_faithful_mono cache cache' qc qr :
  cache ⊆ cache' → question_faithful cache qc qr →
  question_faithful cache' qc qr.
Proof.
  intros Hsub (Ht & Hw & Hs & Hf & Hy). split_and!; [done..| |done].
  eapply Forall_impl; [done|]. intros m. by apply from_cache_mono.
Qed.

Lemma goal_faithful_mono cache cache' gc gr :
  cache ⊆ cache' → goal_faithful cache gc gr → goal_faithful cache' gc gr.
Proof.
  intros Hsub (Hn & Hw & Hq). split_and!; [done..|].
  eapply Forall2_impl; [done|]. intros qc qr. by apply question_faithful_mono.
Qed.

Lemma get_or_execute_Ok metric_id w d s r s' :
  _get_or_execute_metric metric_id w d s = (Ok r, s') →
  match r with
  | Some m =>
      MetricResult.metric_id m = metric_id
      ∧ MetricResult.weight m = w
      ∧ from_cache (metric_cache s') m
  | None =>
      (executor_outcome metric_id d (outside s)).1 = RNone
      ∧ metric_cache s !! metric_id = None
  end.
Proof.
  destruct (metric_cache s !! metric_id) as [c|] eqn:Hc.
  - rewrite (get_or_execute_hit _ _ _ _ _ Hc). intros [= <- <-]. simpl.
    split_and!; [done..|]. by exists c.
  - rewrite (get_or_execute_miss _ _ _ _ Hc). cbv zeta.
    destruct (executor_outcome metric_id d (outside s)).1 as [|x|sc ind];
      [| |destruct (Config.return_detailed_results get_config)];
      intros [= <- <-]; simpl; [done|..];
      (split_and!; [done..|]); eexists; by rewrite lookup_insert_eq.
Qed.

Lemma for_each_Ok_ind {A S} (I : list A → S → state → Prop)
    (body : A → S → M S) xs acc s r s' :
  I [] acc s →
  (∀ seen x acc s acc' s',
     I seen acc s → body x acc s = (Ok acc', s') → I (seen ++ [x]) acc' s') →
  for_each xs body acc s = (Ok r, s') →
  I xs r s'.
Proof.
  intros Hinit Hstep.
  cut (∀ seen acc s, I seen acc s →
         for_each xs body acc s = (Ok r, s') → I (seen ++ xs) r s').
  { intros Hgen. by apply (Hgen []). }
  induction xs as [|x xs IH]; intros seen acc0 s0 HI; simpl.
  - intros [= <- <-]. by rewrite app_nil_r.
  - unfold bind. destruct (body x acc0 s0) as [[acc1|e] s1] eqn:Hb; [|done].
    intros Hrest. rewrite (cons_middle x seen xs), (assoc_L (++)).
    eapply IH; [|done]. by eapply Hstep.
Qed.

Lemma for_each_append_Forall2 {A B}
    (P : gmap string CachedMetricResult.t → A → B → Prop)
    (f : A → M B) xs s r s' :
  (∀ c c' x y, c ⊆ c' → P c x y → P c' x y) →
  (∀ x, always extends (f x)) →
  (∀ x s y s', f x s = (Ok y, s') → P (metric_cache s') x y) →
  for_each xs (λ x acc, let* y := f x in ret (acc ++ [y])) [] s = (Ok r, s') →
  Forall2 (P (metric_cache s')) xs r.
Proof.
  intros Hmono Hext Hf.
  apply (for_each_Ok_ind (λ seen acc st, Forall2 (P (metric_cache st)) seen acc)).
  - constructor.
  - intros seen x acc st acc' st' HI. unfold bind, ret.
    destruct (f x st) as [[y|e] st1] eqn:Hfx; [|done].
    intros [= <- <-]. apply Forall2_app.
    + eapply Forall2_impl; [done|]. intros a b.
      apply Hmono. by eapply Hext.
    + constructor; [by eapply Hf|constructor].
Qed.

Lemma extends_evaluate_question qc d : always extends (evaluate_question qc d).
Proof.
  exact (always_evaluate_question extends extends_trans extends_frame
           extends_get_or_execute qc d).
Qed.

Lemma extends_evaluate_goal gc d : always extends (evaluate_goal gc d).
Proof.
  exact (always_evaluate_goal extends extends_trans extends_frame
           extends_get_or_execute gc d).
Qed.

Lemma extends_evaluate config tcs : always extends (evaluate config tcs).
Proof.
  exact (always_evaluate extends extends_trans extends_frame
           extends_get_or_execute config tcs).
Qed.

Lemma evaluate_question_faithful qc d s qr s' :
  evaluate_question qc d s = (Ok qr, s') →
  question_faithful (metric_cache s') qc qr.
Proof.
  unfold evaluate_question. unfold bind at 1, logger at 1. unfold bind at 1.
  destruct (for_each _ _ _ _) as [[ms|e] s1] eqn:Hloop; [|done].
  intros [= <- <-]. unfold question_faithful. simpl.
  split; [done|]. split; [done|]. revert Hloop.
  apply (for_each_Ok_ind (λ seen acc st,
    sublist ((λ m, (MetricResult.metric_id m, MetricResult.weight m)) <$> acc)
      seen
    ∧ Forall (from_cache (metric_cache st)) acc
    ∧ ∀ metric_id w, yields_score metric_id → (metric_id, w) ∈ seen →
        ∃ m, m ∈ acc ∧ MetricResult.metric_id m = metric_id
             ∧ MetricResult.weight m = w)).
  - split_and!; [done|constructor|]. by intros ?? _ ?%elem_of_nil.
  - intros seen [metric_id w] acc st acc' st' (Hsub & Hfrom & Hcov).
    unfold bind. simpl.
    destruct (_get_or_execute_metric metric_id w d st) as [[r|e] st1] eqn:Hg;
      [|done].
    pose proof (proj1 (extends_get_or_execute _ _ _ _ _ _ Hg)) as Hmono.
    apply get_or_execute_Ok in Hg.
    assert (Forall (from_cache (metric_cache st1)) acc) as Hfrom1.
    { eapply Forall_impl; [done|]. intros m. by apply from_cache_mono. }
    destruct r as [m|]; intros [= <- <-].
    + destruct Hg as (Hid & Hw & Hm). split_and!.
      * rewrite fmap_app. apply sublist_app; [done|]. simpl.
        by rewrite Hid, Hw.
      * apply Forall_app. split; [done|]. by constructor.
      * intros mid' w' Hys [Hin|Hin]%elem_of_app.
        -- destruct (Hcov _ _ Hys Hin) as (m' & Hm' & ?).
           exists m'. split; [|done]. apply elem_of_app. by left.
        -- apply list_elem_of_singleton in Hin as [= -> ->].
           exists m. split; [|done]. apply elem_of_app. right.
           by apply list_elem_of_singleton.
    + destruct Hg as (Hnone & _). split_and!.
      * by apply sublist_inserts_r.
      * done.
      * intros mid' w' Hys [Hin|Hin]%elem_of_app; [by apply Hcov|].
        apply list_elem_of_singleton in Hin as [= -> ->].
        by destruct (Hys d (outside st)).
Qed.

Lemma evaluate_goal_faithful gc d s gr s' :
  evaluate_goal gc d s = (Ok gr, s') →
  goal_faithful (metric_cache s') gc gr.
Proof.
  unfold evaluate_goal. unfold bind at 1, logger at 1. unfold bind at 1.
  destruct (for_each _ _ _ _) as [[qs|e] s1] eqn:Hloop; [|done].
  intros [= <- <-]. unfold goal_faithful. simpl.
  split; [done|]. split; [done|]. revert Hloop.
  apply for_each_append_Forall2.
  - intros c c' qc qr. apply question_faithful_mono.
  - intros qc. apply extends_evaluate_question.
  - intros qc st qr st'. apply evaluate_question_faithful.
Qed.

Lemma evaluate_faithful config tcs s r s' :
  evaluate config tcs s = (Ok r, s') →
  result_faithful (metric_cache s') config r.
Proof.
  unfold evaluate. unfold bind at 1, logger at 1. unfold bind at 1.
  destruct (_test_rag_system tcs _) as [[d|e] s1]; [|done].
  unfold bind at 1, logger at 1. unfold bind at 1.
  destruct (_unload_rag_system _) as [[[]|e] s2]; [|done].
  unfold bind at 1.
  destruct (for_each _ _ _ _) as [[gs|e] s3] eqn:Hloop; [|done].
  intros [= <- <-]. unfold result_faithful. simpl.
  revert Hloop. apply for_each_append_Forall2.
  - intros c c' gc gr. apply goal_faithful_mono.
  - intros gc. apply extends_evaluate_goal.
  - intros gc st gr st'. apply evaluate_goal_faithful.
Qed.

(** *** C5 *)

Lemma expected_results_length tcs w :
  length (expected_results tcs w) = length tcs.
Proof.
  revert w. induction tcs as [|tc tcs IH]; intros w; simpl; [done|].
  by rewrite IH.
Qed.

Lemma expected_results_lookup tcs w i tc :
  tcs !! i = Some tc →
  expected_results tcs w !! i
  = Some match (rag_system_query (TestCase.question tc)
                  (world_after_queries (take i tcs) w)).1 with
         | Ok rag_result => answered tc rag_result
         | Raise _ => unanswered tc
         end.
Proof.
  revert w i. induction tcs as [|tc' tcs IH]; intros w i; [done|].
  destruct i as [|i]; simpl.
  - by intros [= ->].
  - intros Hi. by rewrite (IH _ _ Hi).
Qed.

Lemma expected_results_carry tcs w :
  Forall2 (λ tc r,
      TestCaseResult.query r = TestCase.question tc
      ∧ TestCaseResult.ground_truth r = TestCase.ground_truth tc
      ∧ TestCaseResult.entities r = TestCase.entities tc
      ∧ TestCaseResult.question_type r = TestCase.question_type tc)
    tcs (expected_results tcs w).
Proof.
  revert w. induction tcs as [|tc tcs IH]; intros w; simpl; constructor.
  - by destruct (rag_system_query _ _).1.
  - apply IH.
Qed.

Lemma test_rag_system_spec tcs s :
  ∃ s', _test_rag_system tcs s
        = (Ok (EvaluationData.make (expected_results tcs (outside s))), s')
        ∧ queried s' = queried s ++ (TestCase.question <$> tcs)
        ∧ outside s' = world_after_queries tcs (outside s)
        ∧ metric_cache s' = metric_cache s
        ∧ executed s' = executed s.
Proof.
  unfold _test_rag_system. unfold bind at 1, logger at 1. unfold bind at 1.
  match goal with |- context [for_each tcs ?b] => set (body := b) end.
  cut (∀ acc s0, ∃ s',
         for_each tcs body acc s0
         = (Ok (acc ++ expected_results tcs (outside s0)), s')
         ∧ queried s' = queried s0 ++ (TestCase.question <$> tcs)
         ∧ outside s' = world_after_queries tcs (outside s0)
         ∧ metric_cache s' = metric_cache s0
         ∧ executed s' = executed s0).
  { intros Hloop.
    destruct (Hloop [] (State (metric_cache s) (outside s)
                          (log s ++ [(INFO, RunningTestCases (length tcs))])
                          (executed s) (queried s)))
      as (s' & -> & ? & ? & ? & ?).
    by exists s'. }
  clear s. induction tcs as [|tc tcs IH]; intros acc s; simpl.
  - exists s. by rewrite !app_nil_r.
  - unfold bind at 1. unfold body at 1.
    unfold catch, bind, note_queried, call, logger, ret. simpl.
    destruct (rag_system_query (TestCase.question tc) (outside s))
      as [[rag_result|e] w] eqn:Hq; simpl;
      match goal with
      | |- context [for_each tcs body ?acc' ?s1] =>
          destruct (IH acc' s1) as (s' & -> & Hqs & Hw & Hc & He)
      end;
      exists s'; simpl in *;
      by rewrite <-(assoc_L (++)), Hqs, <-(assoc_L (++)).
Qed.

(** C5.  [_test_rag_system] never raises.  It queries the RAG system once
    for each test case, in input order, and returns one [TestCaseResult]
    per test case, in input order, each carrying the case's query, ground
    truth, entities and question type; the record of a case whose query
    raised has an empty answer and no documents, and the records of the
    other cases hold what the RAG system returned. *)
Theorem C5_one_result_per_test_case tcs s :
  ∃ data s',
    _test_rag_system tcs s = (Ok data, s')
    ∧ queried s' = queried s ++ (TestCase.question <$> tcs)
    ∧ length (EvaluationData.test_case_results data) = length tcs
    ∧ Forall2 (λ tc r,
          TestCaseResult.query r = TestCase.question tc
          ∧ TestCaseResult.ground_truth r = TestCase.ground_truth tc
          ∧ TestCaseResult.entities r = TestCase.entities tc
          ∧ TestCaseResult.question_type r = TestCase.question_type tc)
        tcs (EvaluationData.test_case_results data)
    ∧ ∀ i tc,
        tcs !! i = Some tc →
        EvaluationData.test_case_results data !! i
        = Some match (rag_system_query (TestCase.question tc)
                        (world_after_queries (take i tcs) (outside s))).1 with
               | Ok rag_result => answered tc rag_result
               | Raise _ => unanswered tc
               end.
Proof.
  destruct (test_rag_system_spec tcs s) as (s' & Hrun & Hq & _).
  eexists _, s'. split; [exact Hrun|]. simpl. split_and!.
  - done.
  - apply expected_results_length.
  - apply expected_results_carry.
  - apply expected_results_lookup.
Qed.

(** *** C6 *)

(** C6.  When [metric_id] is not the value of one of the fifteen members
    of [MetricId], or when its metric function raises, [execute_metric]
    logs an error and returns 0.0 instead of raising;
    [_get_or_execute_metric] then returns normally a [MetricResult] of
    value 0.0 with the caller's weight, so the loop over the question's
    metrics goes on, and the cache entry it leaves for [metric_id] is the
    complete default pair (value 0.0, no breakdown) that it returned. *)
Theorem C6_metric_failure_defaults_to_zero metric_id w d s :
  metric_cache s !! metric_id = None →
  (metric_id ∉ (MetricId_value <$> MetricId_members)
   ∨ ∃ m e w',
       MetricId_of_value metric_id = Ok m
       ∧ metric_function_of m d (outside s) = (Raise e, w')) →
  (∃ s0, execute_metric metric_id d s = (Ok (RFloat 0), s0))
  ∧ ∃ s' ev,
      _get_or_execute_metric metric_id w d s
      = (Ok (Some (MetricResult.make metric_id 0 w None)), s')
      ∧ metric_cache s'
        = <[metric_id := CachedMetricResult.make metric_id 0 None]>
            (metric_cache s)
      ∧ (ERROR, ev) ∈ log s'
      ∧ (ev = UnknownMetricId metric_id
         ∨ ∃ e, ev = ExecutorMetricFailed metric_id e).
Proof.
  intros Hc Hfail.
  assert (∃ ev, (executor_outcome metric_id d (outside s)).1 = RFloat 0
                ∧ executor_log metric_id d (outside s) = [(ERROR, ev)]
                ∧ (ev = UnknownMetricId metric_id
                   ∨ ∃ e, ev = ExecutorMetricFailed metric_id e))
    as (ev & Hout & Hlog & Hev).
  { unfold executor_outcome, executor_log.
    destruct Hfail as [Hunknown|(m & e & w' & Hm & Hraise)].
    - rewrite (MetricId_of_value_unknown _ Hunknown).
      eexists. split_and!; [done..|by left].
    - rewrite Hm, Hraise.
      eexists. split_and!; [done..|right; by eexists]. }
  split.
  - rewrite execute_metric_spec, Hout. by eexists.
  - rewrite (get_or_execute_miss _ _ _ _ Hc). cbv zeta. rewrite Hout.
    eexists _, ev. split; [done|]. simpl. split_and!; [done| |done].
    rewrite Hlog, !elem_of_app, !list_elem_of_singleton. tauto.
Qed.

(** *** C8 *)


(** *** C7 *)

Lemma filter_absent (x : string) (l : list string) :
  x ∉ l → filter (λ y, y = x) l = [].
Proof.
  induction l as [|y l IH]; [done|].
  intros [Hne Hl]%not_elem_of_cons. rewrite filter_cons.
  case_decide; [congruence|]. by apply IH.
Qed.

Lemma invocations_unchanged metric_id s s' :
  extends s s' → is_Some (metric_cache s !! metric_id) →
  invocations metric_id s' = invocations metric_id s.
Proof.
  intros (_ & new & He & Hnew) [c Hc]. unfold invocations.
  rewrite He, filter_app, length_app.
  rewrite (filter_absent metric_id new); [simpl; lia|].
  intros Hin. specialize (Hnew _ Hin). congruence.
Qed.

(** C7 (amended).  The cache belongs to the framework object, not to a
    run: it is empty when the framework is constructed, so the first
    [evaluate] call on a framework starts without entries; [evaluate] (and
    [EvaluationPipeline.evaluate], which delegates to it) never removes or
    replaces an entry, whatever it returns; and a metric that already has
    an entry when a call starts is not executed during that call. *)
Theorem C7_cache_lives_with_the_framework :
  (∀ w, metric_cache (GQMFramework_init w) = ∅)
  ∧ (∀ config tcs s r s',
       evaluate config tcs s = (r, s') ∨ pipeline_evaluate config tcs s = (r, s') →
       metric_cache s ⊆ metric_cache s'
       ∧ ∀ metric_id,
           is_Some (metric_cache s !! metric_id) →
           invocations metric_id s' = invocations metric_id s).
Proof.
  split; [done|]. intros config tcs s r s' Hrun.
  assert (extends s s') as Hext.
  { destruct Hrun as [Hrun|Hrun].
    - by eapply extends_evaluate.
    - by eapply (always_pipeline_evaluate extends extends_trans extends_frame
                   extends_get_or_execute). }
  split; [apply Hext|]. intros metric_id. by apply invocations_unchanged.
Qed.

(** *** The account of a metric over a run *)

Lemma cached_le_1 metric_id s : (cached metric_id s ≤ 1)%nat.
Proof. unfold cached. destruct (_ !! _); lia. Qed.

Lemma cached_mono metric_id s s' :
  metric_cache s ⊆ metric_cache s' →
  (cached metric_id s ≤ cached metric_id s')%nat.
Proof.
  intros Hsub. unfold cached.
  destruct (metric_cache s !! metric_id) as [c|] eqn:Hc; [|lia].
  by rewrite (lookup_weaken _ _ _ _ Hc Hsub).
Qed.

Lemma occurrences_app metric_id l k :
  occurrences metric_id (l ++ k)
  = (occurrences metric_id l + occurrences metric_id k)%nat.
Proof. unfold occurrences. by rewrite filter_app, length_app. Qed.

Lemma results_for_app metric_id l k :
  results_for metric_id (l ++ k)
  = (results_for metric_id l + results_for metric_id k)%nat.
Proof. unfold results_for. by rewrite filter_app, length_app. Qed.

Lemma executor_outcome_stable inv metric_id d w :
  stable inv → inv w → inv (executor_outcome metric_id d w).2.
Proof.
  intros (_ & _ & Hmetric) Hw. unfold executor_outcome.
  destruct (MetricId_of_value metric_id) as [m|e]; [|done].
  specialize (Hmetric m d w Hw).
  by destruct (metric_function_of m d w) as [[v|e] w'].
Qed.

Lemma world_after_queries_stable inv tcs w :
  stable inv → inv w → inv (world_after_queries tcs w).
Proof.
  intros (Hquery & _) Hw. unfold world_after_queries. revert w Hw.
  induction tcs as [|tc tcs IH]; intros w Hw; [done|].
  simpl. by apply IH, Hquery.
Qed.

Lemma unload_rag_system_spec s r s' :
  _unload_rag_system s = (r, s') →
  metric_cache s' = metric_cache s
  ∧ executed s' = executed s
  ∧ outside s' = (rag_system_unload (outside s)).2.
Proof.
  unfold _unload_rag_system, catch, bind, call, logger.
  destruct (rag_system_unload (outside s)) as [[[]|e] w]; simpl;
    by intros [= _ <-].
Qed.

Section Settles.
Variable inv : world → Prop.
Hypothesis inv_stable : stable inv.
Variable metric_id : string.
Variable d : EvaluationData.t.

Lemma settles_trans n1 k1 n2 k2 s1 s2 s3 :
  settles inv metric_id d n1 k1 s1 s2 → settles inv metric_id d n2 k2 s2 s3 →
  settles inv metric_id d (n1 + n2) (k1 + k2) s1 s3.
Proof.
  intros (Hc1 & Hle1 & Hb1 & Hn1 & Hp1 & Hi1 & Hs1 & Hd1)
         (Hc2 & Hle2 & Hb2 & Hn2 & Hp2 & Hi2 & Hs2 & Hd2).
  pose proof (cached_mono metric_id _ _ Hc2) as Hmono.
  pose proof (cached_le_1 metric_id s3) as Hle.
  split_and!.
  - by etrans.
  - lia.
  - lia.
  - lia.
  - intros Hk. destruct k2 as [|k2]; [|apply Hp2; lia].
    assert (cached metric_id s2 = 1%nat) by (apply Hp1; lia). lia.
  - auto.
  - intros Hs Hinv. by rewrite (Hs1 Hs Hinv), (Hs2 Hs (Hi1 Hinv)).
  - intros Hnd Hinv Hz. apply Hd2; auto.
Qed.

Lemma settles_idle s s' :
  metric_cache s' = metric_cache s → executed s' = executed s →
  (inv (outside s) → inv (outside s')) →
  settles inv metric_id d 0 0 s s'.
Proof.
  intros Hc He Hinv. unfold settles, cached, invocations. rewrite Hc, He.
  split_and!; try done; lia.
Qed.

Lemma settles_prefix n k s1 s2 s3 :
  settles inv metric_id d 0 0 s1 s2 → settles inv metric_id d n k s2 s3 →
  settles inv metric_id d n k s1 s3.
Proof. apply (settles_trans 0 0 n k). Qed.

Lemma settles_get_or_execute metric_id' w s r s' :
  _get_or_execute_metric metric_id' w d s = (Ok r, s') →
  settles inv metric_id d (occurrences metric_id [metric_id'])
    (results_for metric_id (option_list r)) s s'.
Proof.
  intros Hrun.
  pose proof (proj1 (extends_get_or_execute _ _ _ _ _ _ Hrun)) as Hsub.
  split; [done|]. clear Hsub. revert Hrun.
  pose proof (executor_outcome_stable inv metric_id' d (outside s) inv_stable)
    as Hkept.
  unfold occurrences, results_for, cached.
  destruct (metric_cache s !! metric_id') as [c|] eqn:Hc.
  - rewrite (get_or_execute_hit _ _ _ _ _ Hc). intros [= <- <-].
    unfold invocations. simpl. rewrite !filter_cons, !filter_nil. simpl.
    destruct (decide (metric_id' = metric_id)) as [Hid|Hid]; simpl.
    + subst. rewrite Hc. split_and!; try done; lia.
    + split_and!; try done; lia.
  - rewrite (get_or_execute_miss _ _ _ _ Hc). cbv zeta.
    destruct (executor_outcome metric_id' d (outside s)).1
      as [|x|sc ind] eqn:Hv;
      [| |destruct (Config.return_detailed_results get_config)];
      intros [= <- <-];
      rewrite (invocations_snoc _ s _ metric_id') by done; simpl;
      rewrite ?filter_cons, ?filter_nil; simpl;
      (destruct (decide (metric_id' = metric_id)) as [Hid|Hid]; simpl;
       [subst; rewrite ?Hc, ?lookup_insert_eq
       |rewrite ?lookup_insert_ne by done;
        destruct (metric_cache s !! metric_id)]);
      (split_and!; try done; try lia;
       try (intros Hs Hinv; by destruct (Hs (outside s) Hinv));
       try (intros Hnd Hinv; by rewrite (Hnd (outside s) Hinv) in Hv)).
Qed.

Lemma settles_evaluate_question qc s qr s' :
  evaluate_question qc d s = (Ok qr, s') →
  settles inv metric_id d
    (occurrences metric_id (QuestionConfig.metrics qc).*1)
    (results_for metric_id (QuestionResult.metrics qr)) s s'.
Proof.
  unfold evaluate_question. unfold bind at 1, logger at 1. unfold bind at 1.
  destruct (for_each _ _ _ _) as [[ms|e] s1] eqn:Hloop; [|done].
  intros [= <- <-]. simpl. revert Hloop.
  apply (for_each_Ok_ind (λ seen acc st,
    settles inv metric_id d (occurrences metric_id seen.*1)
      (results_for metric_id acc) s st)).
  - by apply settles_idle.
  - intros seen [metric_id' w] acc st acc' st' HI. unfold bind. simpl.
    destruct (_get_or_execute_metric metric_id' w d st) as [[r|e] st1] eqn:Hg;
      [|done].
    apply settles_get_or_execute in Hg.
    pose proof (settles_trans _ _ _ _ _ _ _ HI Hg) as Ht.
    rewrite fmap_app, occurrences_app. simpl.
    destruct r as [m|]; intros [= <- <-].
    + by rewrite results_for_app.
    + simpl in Ht. by rewrite Nat.add_0_r in Ht.
Qed.

Lemma settles_for_each {A B} (f : A → M B)
    (refs : A → list string) (atts : B → list MetricResult.t) xs s r s' :
  (∀ x s y s', f x s = (Ok y, s') →
     settles inv metric_id d (occurrences metric_id (refs x))
       (results_for metric_id (atts y)) s s') →
  for_each xs (λ x acc, let* y := f x in ret (acc ++ [y])) [] s = (Ok r, s') →
  settles inv metric_id d (occurrences metric_id (xs ≫= refs))
    (results_for metric_id (r ≫= atts)) s s'.
Proof.
  intros Hf.
  apply (for_each_Ok_ind (λ seen acc st,
    settles inv metric_id d (occurrences metric_id (seen ≫= refs))
      (results_for metric_id (acc ≫= atts)) s st)).
  - by apply settles_idle.
  - intros seen x acc st acc' st' HI. unfold bind, ret.
    destruct (f x st) as [[y|e] st1] eqn:Hfx; [|done].
    intros [= <- <-]. rewrite !bind_app, occurrences_app, results_for_app.
    simpl. rewrite !app_nil_r.
    eapply settles_trans; [exact HI|]. by apply Hf.
Qed.

Lemma settles_evaluate_goal gc s gr s' :
  evaluate_goal gc d s = (Ok gr, s') →
  settles inv metric_id d
    (occurrences metric_id
       (GoalConfig.questions gc ≫= (λ q, (QuestionConfig.metrics q).*1)))
    (results_for metric_id (GoalResult.questions gr ≫= QuestionResult.metrics))
    s s'.
Proof.
  unfold evaluate_goal. unfold bind at 1, logger at 1. unfold bind at 1.
  destruct (for_each _ _ _ _) as [[qs|e] s1] eqn:Hloop; [|done].
  intros [= <- <-]. simpl.
  apply (settles_for_each _
           (λ q, (QuestionConfig.metrics q).*1) QuestionResult.metrics)
    in Hloop.
  - eapply settles_prefix; [|exact Hloop]. by apply settles_idle.
  - intros qc st qr st'. apply settles_evaluate_question.
Qed.

End Settles.

Lemma settles_evaluate inv metric_id config tcs s r s' :
  stable inv →
  evaluate config tcs s = (Ok r, s') →
  settles inv metric_id
    (EvaluationData.make (expected_results tcs (outside s)))
    (metric_references metric_id config) (metric_results metric_id r) s s'.
Proof.
  intros Hstable.
  unfold evaluate. unfold bind at 1, logger at 1. unfold bind at 1.
  destruct (test_rag_system_spec tcs
              (State (metric_cache s) (outside s)
                 (log s ++ [(INFO, StartingEvaluation
                                     (length (EvaluationConfig.goals config)))])
                 (executed s) (queried s)))
    as (s1 & -> & _ & Hw1 & Hc1 & He1).
  simpl in Hw1, Hc1, He1.
  unfold bind at 1, logger at 1. unfold bind at 1.
  destruct (_unload_rag_system _) as [[[]|e] s2] eqn:Hunload; [|done].
  apply unload_rag_system_spec in Hunload as (Hc2 & He2 & Hw2).
  simpl in Hc2, He2, Hw2.
  unfold bind at 1.
  destruct (for_each _ _ _ _) as [[gs|e] s3] eqn:Hloop; [|done].
  intros [= <- <-]. simpl.
  apply (settles_for_each inv metric_id
           (EvaluationData.make (expected_results tcs (outside s))) _
           (λ g, GoalConfig.questions g
                   ≫= (λ q, (QuestionConfig.metrics q).*1))
           (λ g, GoalResult.questions g ≫= QuestionResult.metrics))
    in Hloop; [|intros gc st gr st'; by apply settles_evaluate_goal].
  eapply settles_prefix; [|exact Hloop].
  apply settles_idle.
  - by rewrite Hc2, Hc1.
  - by rewrite He2, He1.
  - intros Hinv. rewrite Hw2, Hw1.
    apply Hstable. by apply world_after_queries_stable.
Qed.

(** *** C2 *)

Lemma kept_evaluate_question inv d qc s qr s' :
  stable inv → evaluate_question qc d s = (Ok qr, s') →
  inv (outside s) → inv (outside s').
Proof.
  intros Hstable Hrun.
  by destruct (settles_evaluate_question inv Hstable EmptyString d _ _ _ _ Hrun)
    as (_ & _ & _ & _ & _ & Hinv & _).
Qed.

Lemma kept_evaluate_goal inv d gc s gr s' :
  stable inv → evaluate_goal gc d s = (Ok gr, s') →
  inv (outside s) → inv (outside s').
Proof.
  intros Hstable Hrun.
  by destruct (settles_evaluate_goal inv Hstable EmptyString d _ _ _ _ Hrun)
    as (_ & _ & _ & _ & _ & Hinv & _).
Qed.

Lemma evaluate_question_covers inv metric_id d qc s qr s' :
  stable inv → scores_on inv d metric_id → inv (outside s) →
  evaluate_question qc d s = (Ok qr, s') →
  ∀ w, (metric_id, w) ∈ QuestionConfig.metrics qc →
       ∃ m, m ∈ QuestionResult.metrics qr ∧ reference_of m = (metric_id, w).
Proof.
  intros Hstable Hscores Hinv.
  unfold evaluate_question. unfold bind at 1, logger at 1. unfold bind at 1.
  destruct (for_each _ _ _ _) as [[ms|e] s1] eqn:Hloop; [|done].
  intros [= <- <-]. simpl.
  cut (inv (outside s1)
       ∧ ∀ w, (metric_id, w) ∈ QuestionConfig.metrics qc →
              ∃ m, m ∈ ms ∧ reference_of m = (metric_id, w)).
  { by intros [_ ?]. }
  revert Hloop.
  apply (for_each_Ok_ind (λ seen acc (st : state),
    inv (outside st)
    ∧ ∀ w, (metric_id, w) ∈ seen →
           ∃ m, m ∈ acc ∧ reference_of m = (metric_id, w))).
  - split; [done|]. by intros ? ?%elem_of_nil.
  - intros seen [metric_id' w'] acc st acc' st' [Hst Hcov].
    unfold bind. simpl.
    destruct (_get_or_execute_metric metric_id' w' d st) as [[r|e] st1] eqn:Hg;
      [|done].
    destruct (settles_get_or_execute inv Hstable metric_id d _ _ _ _ _ Hg)
      as (_ & _ & _ & _ & _ & Hkept & _).
    apply get_or_execute_Ok in Hg.
    destruct r as [m|]; intros [= <- <-]; (split; [by apply Hkept|]);
      intros w [Hin|Hin]%elem_of_app.
    + destruct (Hcov _ Hin) as (m' & Hm' & ?).
      exists m'. split; [|done]. apply elem_of_app. by left.
    + apply list_elem_of_singleton in Hin as [= <- <-].
      destruct Hg as (Hid & Hw & _). exists m. split.
      * apply elem_of_app. right. by apply list_elem_of_singleton.
      * unfold reference_of. by rewrite Hid, Hw.
    + by apply Hcov.
    + apply list_elem_of_singleton in Hin as [= <- <-].
      destruct Hg as [Hnone _]. by destruct (Hscores (outside st) Hst).
Qed.

(** Every result for a metric in the tree of a run is made of the pair
    that the cache holds at the end and of a weight that the question
    configures for the metric. *)
Lemma results_made_of_cached_pair cache config r metric_id :
  result_faithful cache config r →
  Forall2 (λ gc gr,
      Forall2 (λ qc qr,
          ∀ m, m ∈ QuestionResult.metrics qr →
               MetricResult.metric_id m = metric_id →
               reference_of m ∈ QuestionConfig.metrics qc
               ∧ ∃ c, cache !! metric_id = Some c
                      ∧ m = MetricResult.make metric_id
                              (CachedMetricResult.value c)
                              (MetricResult.weight m)
                              (CachedMetricResult.individual_scores c))
        (GoalConfig.questions gc) (GoalResult.questions gr))
    (EvaluationConfig.goals config) (EvaluationResult.goals r).
Proof.
  intros Hfaith. eapply Forall2_impl; [exact Hfaith|].
  intros gc gr (_ & _ & Hqs). eapply Forall2_impl; [exact Hqs|].
  intros qc qr (_ & _ & Hsub & Hfrom & _) m Hm Hid. split.
  - eapply elem_of_submseteq; [|by apply sublist_submseteq].
    apply list_elem_of_fmap. by exists m.
  - rewrite Forall_forall in Hfrom.
    destruct (Hfrom _ Hm) as (c & Hlook & Hv & Hi). rewrite Hid in Hlook.
    exists c. split; [done|]. destruct m; simpl in *. by subst.
Qed.

Lemma for_each_append_Forall2_from {A B} (R : state → state → Prop)
    (Q : A → Prop) (P : A → B → Prop) (f : A → M B) xs s0 :
  (∀ s1 s2 s3, R s1 s2 → R s2 s3 → R s1 s3) →
  (∀ x s y s', f x s = (Ok y, s') → R s s') →
  (∀ x s y s', Q x → R s0 s → f x s = (Ok y, s') → P x y) →
  Forall Q xs →
  ∀ acc s r s', R s0 s →
    for_each xs (λ x acc, let* y := f x in ret (acc ++ [y])) acc s
    = (Ok r, s') →
    ∃ ys, r = acc ++ ys ∧ Forall2 P xs ys.
Proof.
  intros Htrans Hstep Hf Hall.
  induction Hall as [|x xs Hx _ IH]; intros acc s r s' Hfrom.
  - simpl. intros [= <- <-]. exists []. by rewrite app_nil_r.
  - simpl. unfold bind at 1. unfold bind at 1.
    destruct (f x s) as [[y|e] s1] eqn:Hfx; [|done]. unfold ret at 1.
    intros (ys & -> & Hys)%IH; [|by eapply Htrans, Hstep].
    exists (y :: ys). split; [by rewrite <-(assoc_L (++))|].
    constructor; [by eapply Hf|done].
Qed.

Lemma evaluate_covers inv metric_id config tcs s r s' :
  stable inv → inv (outside s) →
  evaluate config tcs s = (Ok r, s') →
  scores_on inv (EvaluationData.make (expected_results tcs (outside s)))
    metric_id →
  Forall2 (λ gc gr,
      Forall2 (λ qc qr,
          ∀ w, (metric_id, w) ∈ QuestionConfig.metrics qc →
               ∃ m, m ∈ QuestionResult.metrics qr
                    ∧ reference_of m = (metric_id, w))
        (GoalConfig.questions gc) (GoalResult.questions gr))
    (EvaluationConfig.goals config) (EvaluationResult.goals r).
Proof.
  intros Hstable Hinv Hrun Hscores. revert Hrun.
  set (d := EvaluationData.make (expected_results tcs (outside s))) in *.
  set (kept := λ s1 s2 : state, inv (outside s1) → inv (outside s2)).
  assert (Htrans : ∀ s1 s2 s3, kept s1 s2 → kept s2 s3 → kept s1 s3).
  { unfold kept. auto. }
  unfold evaluate. unfold bind at 1, logger at 1. unfold bind at 1.
  destruct (test_rag_system_spec tcs
              (State (metric_cache s) (outside s)
                 (log s ++ [(INFO, StartingEvaluation
                                     (length (EvaluationConfig.goals config)))])
                 (executed s) (queried s)))
    as (s1 & -> & _ & Hw1 & _). simpl in Hw1. fold d.
  unfold bind at 1, logger at 1. unfold bind at 1.
  destruct (_unload_rag_system _) as [[[]|e] s2] eqn:Hunload; [|done].
  apply unload_rag_system_spec in Hunload as (_ & _ & Hw2). simpl in Hw2.
  unfold bind at 1.
  destruct (for_each _ _ _ _) as [[gs|e] s3] eqn:Hloop; [|done].
  intros [= <- <-]. simpl.
  assert (inv (outside s2)) as Hinv2.
  { rewrite Hw2, Hw1. apply Hstable. by apply world_after_queries_stable. }
  destruct (for_each_append_Forall2_from kept (λ _, True)
              (λ gc gr,
                 Forall2 (λ qc qr,
                     ∀ w, (metric_id, w) ∈ QuestionConfig.metrics qc →
                          ∃ m, m ∈ QuestionResult.metrics qr
                               ∧ reference_of m = (metric_id, w))
                   (GoalConfig.questions gc) (GoalResult.questions gr))
              (λ gc, evaluate_goal gc d) (EvaluationConfig.goals config) s2
              Htrans
              (λ gc st gr st', kept_evaluate_goal inv d gc st gr st' Hstable))
    with (acc := @nil GoalResult.t) (s := s2) (r := gs) (s' := s3)
    as (gs' & -> & Hgs); [|by apply Forall_true|by unfold kept|exact Hloop|done].
  clear Hloop. intros gc st gr st' _ Hst. specialize (Hst Hinv2).
  unfold evaluate_goal. unfold bind at 1, logger at 1. unfold bind at 1.
  destruct (for_each _ _ _ _) as [[qs|e] st1] eqn:Hqloop; [|done].
  intros [= <- <-]. simpl.
  match type of Hqloop with
  | for_each _ _ _ ?start = _ =>
      destruct (for_each_append_Forall2_from kept (λ _, True)
                  (λ qc qr,
                     ∀ w, (metric_id, w) ∈ QuestionConfig.metrics qc →
                          ∃ m, m ∈ QuestionResult.metrics qr
                               ∧ reference_of m = (metric_id, w))
                  (λ qc, evaluate_question qc d) (GoalConfig.questions gc)
                  start Htrans
                  (λ qc st2 qr st3,
                     kept_evaluate_question inv d qc st2 qr st3 Hstable))
        with (acc := @nil QuestionResult.t) (s := start) (r := qs) (s' := st1)
        as (qs' & -> & Hqs);
        [|by apply Forall_true|by unfold kept|exact Hqloop|done]
  end.
  intros qc st2 qr st3 _ Hst2.
  apply (evaluate_question_covers inv metric_id d qc st2 qr st3 Hstable
           Hscores).
  by apply Hst2.
Qed.

Lemma occurrences_NoDup metric_id l :
  NoDup l →
  occurrences metric_id l
  = if bool_decide (metric_id ∈ l) then 1%nat else 0%nat.
Proof.
  unfold occurrences. induction 1 as [|x l Hx _ IH].
  - by rewrite bool_decide_eq_false_2 by apply not_elem_of_nil.
  - rewrite filter_cons. destruct (decide (x = metric_id)) as [->|Hne].
    + simpl. rewrite IH.
      rewrite (bool_decide_eq_false_2 (metric_id ∈ l)) by done.
      by rewrite bool_decide_eq_true_2 by apply list_elem_of_here.
    + rewrite IH.
      rewrite (bool_decide_ext (metric_id ∈ x :: l) (metric_id ∈ l)); [done|].
      rewrite elem_of_cons. split; [intros [?|?]; by subst|by right].
Qed.

Lemma references_once metric_id qs :
  Forall (λ qc, NoDup (QuestionConfig.metrics qc).*1) qs →
  occurrences metric_id (qs ≫= (λ q, (QuestionConfig.metrics q).*1))
  = length (filter (λ q, references metric_id q = true) qs).
Proof.
  induction 1 as [|q qs Hq _ IH]; [done|].
  change ((q :: qs) ≫= (λ q, (QuestionConfig.metrics q).*1))
    with ((QuestionConfig.metrics q).*1
            ++ (qs ≫= (λ q, (QuestionConfig.metrics q).*1))).
  rewrite occurrences_app, IH, (occurrences_NoDup _ _ Hq), filter_cons.
  change (bool_decide (metric_id ∈ (QuestionConfig.metrics q).*1))
    with (references metric_id q).
  destruct (decide (references metric_id q = true)) as [Hd|Hd].
  - by rewrite Hd.
  - apply not_true_is_false in Hd. by rewrite Hd.
Qed.

Lemma metric_references_questions metric_id config :
  Forall (λ qc, NoDup (QuestionConfig.metrics qc).*1)
    (EvaluationConfig.goals config ≫= GoalConfig.questions) →
  metric_references metric_id config = referencing_questions metric_id config.
Proof.
  intros Hall. unfold metric_references, referencing_questions.
  rewrite <-(references_once _ _ Hall). f_equal.
  unfold configured_metrics. clear Hall.
  induction (EvaluationConfig.goals config) as [|g gs IH]; [done|].
  change ((g :: gs) ≫= GoalConfig.questions)
    with (GoalConfig.questions g ++ (gs ≫= GoalConfig.questions)).
  rewrite bind_app, <-IH. done.
Qed.

(** C2 (amended).  Take a run of [evaluate] that returns and a metric with
    no cache entry when the run starts; let [n] be the number of
    references to the metric in the configuration's questions and [k] the
    number of [MetricResult]s for it in the result.  Then [k ≤ n]; the
    cache holds an entry for the metric after the run exactly when
    [k > 0]; and [execute_metric] was called for the metric [n - k] times
    when no entry is cached after the run, [n - k + 1] times otherwise:
    once per reference that received no result (the computation answered
    "no data"), and once more for the execution whose score was cached
    and served every later reference.  Every result for the metric is made
    of the cached pair and of a weight that its question configures for
    the metric.  So a referenced metric is executed exactly once when
    every reference received a result, and once per reference when none
    did.  The first is the case of a metric whose computation on the run's
    batch answers a score: then every question that references it with a
    weight [w] holds the [MetricResult] of the cached pair and [w].  The
    second is the case of a metric whose computation on the batch answers
    "no data": nothing is cached and no result attached.  ("Answers" in
    every world that satisfies a property which holds when the run starts
    and which no call of a collaborator destroys.)  Where no question
    lists a metric twice, [n] is the number of questions that reference
    the metric. *)
Theorem C2_executions_of_a_metric config tcs s r s' metric_id :
  evaluate config tcs s = (Ok r, s') →
  metric_cache s !! metric_id = None →
  let d := EvaluationData.make (expected_results tcs (outside s)) in
  let n := metric_references metric_id config in
  let k := metric_results metric_id r in
  (k ≤ n)%nat
  ∧ invocations metric_id s'
    = (invocations metric_id s + (n - k) + cached metric_id s')%nat
  ∧ (metric_cache s' !! metric_id = None ↔ k = 0%nat)
  ∧ Forall2 (λ gc gr,
        Forall2 (λ qc qr,
            ∀ m, m ∈ QuestionResult.metrics qr →
                 MetricResult.metric_id m = metric_id →
                 reference_of m ∈ QuestionConfig.metrics qc
                 ∧ ∃ c, metric_cache s' !! metric_id = Some c
                        ∧ m = MetricResult.make metric_id
                                (CachedMetricResult.value c)
                                (MetricResult.weight m)
                                (CachedMetricResult.individual_scores c))
          (GoalConfig.questions gc) (GoalResult.questions gr))
      (EvaluationConfig.goals config) (EvaluationResult.goals r)
  ∧ ((1 ≤ n)%nat → k = n →
     invocations metric_id s' = S (invocations metric_id s))
  ∧ (k = 0%nat → invocations metric_id s' = (invocations metric_id s + n)%nat)
  ∧ (∀ inv, stable inv → inv (outside s) →
       scores_on inv d metric_id → (1 ≤ n)%nat →
       invocations metric_id s' = S (invocations metric_id s)
       ∧ ∃ c,
           metric_cache s' !! metric_id = Some c
           ∧ Forall2 (λ gc gr,
                 Forall2 (λ qc qr,
                     ∀ w, (metric_id, w) ∈ QuestionConfig.metrics qc →
                          MetricResult.make metric_id
                            (CachedMetricResult.value c) w
                            (CachedMetricResult.individual_scores c)
                          ∈ QuestionResult.metrics qr)
                   (GoalConfig.questions gc) (GoalResult.questions gr))
               (EvaluationConfig.goals config) (EvaluationResult.goals r))
  ∧ (∀ inv, stable inv → inv (outside s) →
       no_data_on inv d metric_id →
       invocations metric_id s' = (invocations metric_id s + n)%nat
       ∧ metric_cache s' !! metric_id = None
       ∧ k = 0%nat)
  ∧ (Forall (λ qc, NoDup (QuestionConfig.metrics qc).*1)
       (EvaluationConfig.goals config ≫= GoalConfig.questions) →
     n = referencing_questions metric_id config).
Proof.
  intros Hrun Hc d n k.
  assert (stable (λ _ : world, True)) as Htrivial by done.
  destruct (settles_evaluate _ metric_id _ _ _ _ _ Htrivial Hrun)
    as (_ & Hle & Hbal & Hnew & Hpos & _).
  fold d n k in Hle, Hbal, Hnew, Hpos.
  pose proof (evaluate_faithful _ _ _ _ _ Hrun) as Hfaith.
  assert (cached metric_id s = 0%nat) as Hc0 by (unfold cached; by rewrite Hc).
  assert (metric_cache s' !! metric_id = None ↔ cached metric_id s' = 0%nat)
    as Hflag.
  { unfold cached. destruct (metric_cache s' !! metric_id); naive_solver. }
  pose proof (cached_le_1 metric_id s') as Hle1.
  assert (k = 0%nat → cached metric_id s' = 0%nat) as Hzero by lia.
  split_and!.
  - done.
  - lia.
  - rewrite Hflag. split; [lia|]. intros ->. lia.
  - by apply results_made_of_cached_pair.
  - intros Hn Hk. assert (cached metric_id s' = 1%nat) by (apply Hpos; lia).
    lia.
  - intros Hk. specialize (Hzero Hk). lia.
  - intros inv Hstable Hinv Hs Hn.
    destruct (settles_evaluate inv metric_id _ _ _ _ _ Hstable Hrun)
      as (_ & _ & _ & _ & _ & _ & Hscores & _).
    fold d n k in Hscores. specialize (Hscores Hs Hinv).
    assert (cached metric_id s' = 1%nat) as Hin by (apply Hpos; lia).
    split; [lia|].
    destruct (metric_cache s' !! metric_id) as [c|] eqn:Hlook;
      [|destruct Hflag as [Hf _]; specialize (Hf eq_refl); lia].
    exists c. split; [done|].
    pose proof (results_made_of_cached_pair _ _ _ metric_id Hfaith) as Hmade.
    pose proof (evaluate_covers _ _ _ _ _ _ _ Hstable Hinv Hrun Hs) as Hcov.
    clear -Hmade Hcov Hlook.
    revert Hcov. induction Hmade as [|gc gr gcs grs Hq _ IH];
      intros Hcov; [constructor|].
    apply Forall2_cons in Hcov as [Hcq Hcov]. constructor; [|by apply IH].
    clear -Hq Hcq Hlook. revert Hcq.
    induction Hq as [|qc qr qcs qrs Hm _ IH]; intros Hcq; [constructor|].
    apply Forall2_cons in Hcq as [Hcm Hcq]. constructor; [|by apply IH].
    intros w Hw. destruct (Hcm _ Hw) as (m & Hin & Href).
    injection Href as Hid Hweight.
    destruct (Hm _ Hin Hid) as (_ & c' & Hlook' & Heq).
    rewrite Hlook in Hlook'. injection Hlook' as <-.
    by rewrite <-Hweight, <-Heq.
  - intros inv Hstable Hinv Hnd.
    destruct (settles_evaluate inv metric_id _ _ _ _ _ Hstable Hrun)
      as (_ & _ & _ & _ & _ & _ & _ & Hnone).
    fold d in Hnone. specialize (Hnone Hnd Hinv Hc0).
    assert (k = 0%nat) as Hk.
    { destruct k as [|k']; [done|]. assert (cached metric_id s' = 1%nat)
        by (apply Hpos; lia). lia. }
    split_and!; [lia|by apply Hflag|done].
  - apply metric_references_questions.
Qed.

(** *** C4 *)

Lemma get_or_execute_cache metric_id w d s r s' :
  _get_or_execute_metric metric_id w d s = (Ok r, s') →
  (∀ k, k ≠ metric_id → metric_cache s' !! k = metric_cache s !! k)
  ∧ (r = None → metric_cache s' = metric_cache s).
Proof.
  destruct (metric_cache s !! metric_id) as [c|] eqn:Hc.
  - rewrite (get_or_execute_hit _ _ _ _ _ Hc). by intros [= <- <-].
  - rewrite (get_or_execute_miss _ _ _ _ Hc). cbv zeta.
    destruct (executor_outcome metric_id d (outside s)).1 as [|x|sc ind];
      [| |destruct (Config.return_detailed_results get_config)];
      intros [= <- <-]; simpl; (split; [|done]); intros k Hk;
      by rewrite ?lookup_insert_ne.
Qed.

Lemma unscored_trans inv d s1 s2 s3 :
  unscored inv d s1 s2 → unscored inv d s2 s3 → unscored inv d s1 s3.
Proof.
  intros H1 H2 Hinv. destruct (H1 Hinv) as [Hinv2 Hout2].
  destruct (H2 Hinv2) as [Hinv3 Hout3]. split; [done|].
  intros k Hk Hc. by apply Hout3, Hout2.
Qed.

Lemma unscored_of_settles inv d s s' :
  (∀ metric_id, ∃ n k, settles inv metric_id d n k s s') →
  unscored inv d s s'.
Proof.
  intros Hall Hinv. split.
  - destruct (Hall EmptyString) as (n & k & _ & _ & _ & _ & _ & Hkept & _).
    by apply Hkept.
  - intros metric_id Hnd Hc.
    destruct (Hall metric_id) as (n & k & _ & _ & _ & _ & _ & _ & _ & Hstay).
    specialize (Hstay Hnd Hinv). unfold cached in Hstay. rewrite Hc in Hstay.
    specialize (Hstay eq_refl). by destruct (metric_cache s' !! metric_id).
Qed.

Lemma unscored_get_or_execute inv d metric_id w s r s' :
  stable inv →
  _get_or_execute_metric metric_id w d s = (Ok r, s') → unscored inv d s s'.
Proof.
  intros Hstable Hrun. apply unscored_of_settles. intros k. eexists _, _.
  exact (settles_get_or_execute inv Hstable k d _ _ _ _ _ Hrun).
Qed.

Lemma unscored_evaluate_question inv d qc s qr s' :
  stable inv →
  evaluate_question qc d s = (Ok qr, s') → unscored inv d s s'.
Proof.
  intros Hstable Hrun. apply unscored_of_settles. intros k. eexists _, _.
  exact (settles_evaluate_question inv Hstable k d _ _ _ _ Hrun).
Qed.

Lemma unscored_evaluate_goal inv d gc s gr s' :
  stable inv →
  evaluate_goal gc d s = (Ok gr, s') → unscored inv d s s'.
Proof.
  intros Hstable Hrun. apply unscored_of_settles. intros k. eexists _, _.
  exact (settles_evaluate_goal inv Hstable k d _ _ _ _ Hrun).
Qed.

(** The loop of [evaluate_question] over the references [xs] of a
    question whose metrics are all different: the results it appends are
    those of the references whose metric has a cache entry afterwards. *)
Lemma metric_loop_attaches d xs acc s r s' :
  NoDup xs.*1 →
  for_each xs
    (λ item metric_results,
       let* metric_result := _get_or_execute_metric item.1 item.2 d in
       match metric_result with
       | Some r => ret (metric_results ++ [r])
       | None => ret metric_results
       end) acc s = (Ok r, s') →
  ∃ ms, r = acc ++ ms
        ∧ reference_of <$> ms
          = filter (λ item, is_Some (metric_cache s' !! item.1)) xs
        ∧ ∀ k, k ∉ xs.*1 → metric_cache s' !! k = metric_cache s !! k.
Proof.
  revert acc s. induction xs as [|[metric_id w] xs IH]; intros acc s Hnodup.
  - simpl. intros [= <- <-]. exists []. by rewrite app_nil_r.
  - apply NoDup_cons in Hnodup as [Hfresh Hnodup]. simpl in Hfresh.
    simpl. unfold bind at 1.
    unfold bind at 1.
    destruct (_get_or_execute_metric metric_id w d s) as [[res|e] s1] eqn:Hg;
      [|done].
    destruct (get_or_execute_cache _ _ _ _ _ _ Hg) as [Hother Hsame].
    apply get_or_execute_Ok in Hg.
    destruct res as [m|]; unfold ret at 1;
      intros (ms & -> & Hms & Hrest)%(IH _ _ Hnodup).
    + destruct Hg as (Hid & Hw & c & Hlook & _). rewrite Hid in Hlook.
      exists (m :: ms). split_and!.
      * by rewrite <-(assoc_L (++)).
      * rewrite fmap_cons, filter_cons. simpl.
        rewrite (Hrest _ Hfresh), Hlook.
        rewrite decide_True by done. unfold reference_of at 1.
        by rewrite Hid, Hw, Hms.
      * intros k [Hk Hin]%not_elem_of_cons.
        by rewrite (Hrest _ Hin), (Hother _ Hk).
    + destruct Hg as [_ Hc]. exists ms. split_and!.
      * done.
      * rewrite filter_cons. simpl.
        rewrite (Hrest _ Hfresh), (Hsame eq_refl), Hc.
        rewrite decide_False; [done|]. by intros [? ?].
      * intros k [Hk Hin]%not_elem_of_cons.
        by rewrite (Hrest _ Hin), (Hother _ Hk).
Qed.

Lemma evaluate_question_attaches qc d s qr s' :
  NoDup (QuestionConfig.metrics qc).*1 →
  evaluate_question qc d s = (Ok qr, s') →
  reference_of <$> QuestionResult.metrics qr
  = filter (λ item, is_Some (metric_cache s' !! item.1))
      (QuestionConfig.metrics qc).
Proof.
  intros Hnodup.
  unfold evaluate_question. unfold bind at 1, logger at 1. unfold bind at 1.
  destruct (for_each _ _ _ _) as [[ms|e] s1] eqn:Hloop; [|done].
  intros [= <- <-]. simpl.
  by destruct (metric_loop_attaches _ _ _ _ _ _ Hnodup Hloop)
    as (ms' & -> & Hms & _).
Qed.

(** The same loop on a batch that determines which metrics score. *)
Lemma metric_loop_selects inv d scores s0 xs acc s r s' :
  stable inv → inv (outside s0) →
  Forall (λ item, determined inv d scores s0 item.1) xs →
  unscored inv d s0 s →
  for_each xs
    (λ item metric_results,
       let* metric_result := _get_or_execute_metric item.1 item.2 d in
       match metric_result with
       | Some r => ret (metric_results ++ [r])
       | None => ret metric_results
       end) acc s = (Ok r, s') →
  ∃ ms, r = acc ++ ms
        ∧ reference_of <$> ms = filter (λ item, scores item.1 = true) xs.
Proof.
  intros Hstable Hinv Hall. revert acc s.
  induction Hall as [|[metric_id w] xs Hitem _ IH]; intros acc s Hfrom.
  - simpl. intros [= <- <-]. exists []. by rewrite app_nil_r.
  - simpl. unfold bind at 1. unfold bind at 1.
    destruct (_get_or_execute_metric metric_id w d s) as [[res|e] s1] eqn:Hg;
      [|done].
    pose proof (unscored_trans _ _ _ _ _ Hfrom
                  (unscored_get_or_execute _ _ _ _ _ _ _ Hstable Hg))
      as Hfrom1.
    apply get_or_execute_Ok in Hg. unfold determined in Hitem. simpl in Hitem.
    rewrite filter_cons. simpl.
    destruct res as [m|]; unfold ret at 1;
      intros (ms & -> & Hms)%(IH _ _ Hfrom1).
    + destruct Hg as (Hid & Hw & c & Hlook & _). rewrite Hid in Hlook.
      destruct (scores metric_id).
      * exists (m :: ms). split; [by rewrite <-(assoc_L (++))|].
        rewrite decide_True by done. rewrite fmap_cons.
        unfold reference_of at 1. by rewrite Hid, Hw, Hms.
      * destruct Hitem as [Hnd Hc].
        by rewrite (proj2 (Hfrom1 Hinv) _ Hnd Hc) in Hlook.
    + destruct Hg as [Hnone _]. destruct (scores metric_id).
      * by destruct (Hitem (outside s) (proj1 (Hfrom Hinv))).
      * exists ms. split; [done|]. by rewrite decide_False.
Qed.

Lemma evaluate_question_selects inv d scores s0 qc s qr s' :
  stable inv → inv (outside s0) →
  Forall (determined inv d scores s0) (QuestionConfig.metrics qc).*1 →
  unscored inv d s0 s →
  evaluate_question qc d s = (Ok qr, s') →
  reference_of <$> QuestionResult.metrics qr
  = filter (λ item, scores item.1 = true) (QuestionConfig.metrics qc).
Proof.
  intros Hstable Hinv Hall Hfrom. rewrite Forall_fmap in Hall.
  unfold evaluate_question. unfold bind at 1, logger at 1. unfold bind at 1.
  destruct (for_each _ _ _ _) as [[ms|e] s1] eqn:Hloop; [|done].
  intros [= <- <-]. simpl.
  assert (unscored inv d s0
            (State (metric_cache s) (outside s)
               (log s ++ [(INFO, EvaluatingQuestion (QuestionConfig.text qc))])
               (executed s) (queried s))) as Hfrom' by exact Hfrom.
  by destruct (metric_loop_selects _ _ _ _ _ _ _ _ _ Hstable Hinv Hall Hfrom'
                 Hloop)
    as (ms' & -> & Hms).
Qed.

Lemma Forall2_both {A B} (P Q : A → B → Prop) l k :
  Forall2 P l k → Forall2 Q l k → Forall2 (λ x y, P x y ∧ Q x y) l k.
Proof.
  induction 1 as [|x y l k HP _ IH]; intros HQ; [constructor|].
  apply Forall2_cons in HQ as [HQ HQs]. constructor; [done|by apply IH].
Qed.

Lemma evaluate_goal_selects inv d scores s0 gc s gr s' :
  stable inv → inv (outside s0) →
  Forall (determined inv d scores s0)
    (GoalConfig.questions gc ≫= (λ q, (QuestionConfig.metrics q).*1)) →
  unscored inv d s0 s →
  evaluate_goal gc d s = (Ok gr, s') →
  Forall2 (λ qc qr,
      reference_of <$> QuestionResult.metrics qr
      = filter (λ item, scores item.1 = true) (QuestionConfig.metrics qc))
    (GoalConfig.questions gc) (GoalResult.questions gr).
Proof.
  intros Hstable Hinv Hall Hfrom. apply Forall_bind in Hall.
  unfold evaluate_goal. unfold bind at 1, logger at 1. unfold bind at 1.
  destruct (for_each _ _ _ _) as [[qs|e] s1] eqn:Hloop; [|done].
  intros [= <- <-]. simpl.
  match type of Hloop with
  | for_each _ _ _ ?start = _ =>
      destruct (for_each_append_Forall2_from (unscored inv d) _ _ _ _ s0
                  (unscored_trans inv d)
                  (λ qc st qr st',
                     unscored_evaluate_question inv d qc st qr st' Hstable)
                  (λ qc st qr st',
                     evaluate_question_selects inv d scores s0 qc st qr st'
                       Hstable Hinv)
                  Hall _ start _ _ (Hfrom : unscored inv d s0 start) Hloop)
        as (qs' & -> & Hqs)
  end.
  done.
Qed.

Lemma evaluate_selects inv scores config tcs s r s' :
  stable inv → inv (outside s) →
  evaluate config tcs s = (Ok r, s') →
  Forall (determined inv
            (EvaluationData.make (expected_results tcs (outside s)))
            scores s) (configured_metrics config) →
  Forall2 (λ gc gr,
      Forall2 (λ qc qr,
          reference_of <$> QuestionResult.metrics qr
          = filter (λ item, scores item.1 = true) (QuestionConfig.metrics qc))
        (GoalConfig.questions gc) (GoalResult.questions gr))
    (EvaluationConfig.goals config) (EvaluationResult.goals r).
Proof.
  intros Hstable Hinv Hrun Hall. apply Forall_bind in Hall. revert Hrun.
  unfold evaluate. unfold bind at 1, logger at 1. unfold bind at 1.
  destruct (test_rag_system_spec tcs
              (State (metric_cache s) (outside s)
                 (log s ++ [(INFO, StartingEvaluation
                                     (length (EvaluationConfig.goals config)))])
                 (executed s) (queried s)))
    as (s1 & -> & _ & Hw1 & Hc1 & _). simpl in Hw1, Hc1.
  unfold bind at 1, logger at 1. unfold bind at 1.
  destruct (_unload_rag_system _) as [[[]|e] s2] eqn:Hunload; [|done].
  apply unload_rag_system_spec in Hunload as (Hc2 & _ & Hw2).
  simpl in Hc2, Hw2.
  unfold bind at 1.
  destruct (for_each _ _ _ _) as [[gs|e] s3] eqn:Hloop; [|done].
  intros [= <- <-]. simpl.
  assert (unscored inv
            (EvaluationData.make (expected_results tcs (outside s))) s s2)
    as Hfrom.
  { intros _. split.
    - rewrite Hw2, Hw1. apply Hstable. by apply world_after_queries_stable.
    - intros k _. by rewrite Hc2, Hc1. }
  destruct (for_each_append_Forall2_from
              (unscored inv (EvaluationData.make
                               (expected_results tcs (outside s)))) _ _ _ _ s
              (unscored_trans inv _)
              (λ gc st gr st',
                 unscored_evaluate_goal inv _ gc st gr st' Hstable)
              (λ gc st gr st',
                 evaluate_goal_selects inv _ scores s gc st gr st'
                   Hstable Hinv)
              Hall _ _ _ _ Hfrom Hloop)
    as (gs' & -> & Hgs).
  done.
Qed.

(** C4.  An execution of a metric that answers "no data" ([None]) makes
    [_get_or_execute_metric] return [None] and leaves the cache as it was.
    A question (whose metrics are all different, as the keys of a dict
    are) receives a [MetricResult] for exactly those of its configured
    metrics that have a cache entry once it is evaluated, that is, whose
    computation has produced a score, in the configured order, with the
    configured weights and the cached scores; its score is 0.0 when none
    is left, and otherwise, when the weights left do not sum to zero, the
    weighted average over those results.  In a run on a batch for which
    each configured metric either answers a score or answers "no data"
    (and is then not cached when the run starts), no "no data" metric is
    cached after the run, and every question holds exactly the results of
    its scoring metrics, with the same score.  ("Answers" in every world
    that satisfies a property which holds when the run starts and which no
    call of a collaborator destroys.) *)
Theorem C4_no_data_metric_is_omitted :
  (∀ metric_id w d s,
     metric_cache s !! metric_id = None →
     (executor_outcome metric_id d (outside s)).1 = RNone →
     ∃ s', _get_or_execute_metric metric_id w d s = (Ok None, s')
           ∧ metric_cache s' = metric_cache s)
  ∧ (∀ qc d s qr s',
       evaluate_question qc d s = (Ok qr, s') →
       NoDup (QuestionConfig.metrics qc).*1 →
       let kept := filter (λ item, is_Some (metric_cache s' !! item.1))
                     (QuestionConfig.metrics qc) in
       reference_of <$> QuestionResult.metrics qr = kept
       ∧ Forall (from_cache (metric_cache s')) (QuestionResult.metrics qr)
       ∧ (kept = [] → QuestionResult.score qr = Ok 0)
       ∧ (kept ≠ [] → total_weight (metric_pairs qr) ≠ 0 →
          QuestionResult.score qr = Ok (weighted_average (metric_pairs qr))))
  ∧ (∀ config tcs s r s' inv (scores : string → bool),
       evaluate config tcs s = (Ok r, s') →
       stable inv → inv (outside s) →
       Forall (determined inv
                 (EvaluationData.make (expected_results tcs (outside s)))
                 scores s)
         (configured_metrics config) →
       Forall (λ metric_id, scores metric_id = false →
                            metric_cache s' !! metric_id = None)
         (configured_metrics config)
       ∧ Forall2 (λ gc gr,
             Forall2 (λ qc qr,
                 let kept := filter (λ item, scores item.1 = true)
                               (QuestionConfig.metrics qc) in
                 reference_of <$> QuestionResult.metrics qr = kept
                 ∧ Forall (from_cache (metric_cache s'))
                     (QuestionResult.metrics qr)
                 ∧ (kept = [] → QuestionResult.score qr = Ok 0)
                 ∧ (kept ≠ [] → total_weight (metric_pairs qr) ≠ 0 →
                    QuestionResult.score qr
                    = Ok (weighted_average (metric_pairs qr))))
               (GoalConfig.questions gc) (GoalResult.questions gr))
           (EvaluationConfig.goals config) (EvaluationResult.goals r)).
Proof.
  assert (∀ (qr : QuestionResult.t) (kept : list (string * Qc)),
            reference_of <$> QuestionResult.metrics qr = kept →
            (kept = [] → QuestionResult.score qr = Ok 0)
            ∧ (kept ≠ [] → total_weight (metric_pairs qr) ≠ 0 →
               QuestionResult.score qr
               = Ok (weighted_average (metric_pairs qr)))) as Hscore.
  { intros qr kept <-. split.
    - intros Hnil%fmap_nil_inv. by apply QuestionResult_score_empty.
    - intros Hne. apply QuestionResult_score_average. intros Hnil.
      by rewrite Hnil in Hne. }
  split_and!.
  - intros metric_id w d s Hc Hv.
    rewrite (get_or_execute_miss _ _ _ _ Hc). cbv zeta. rewrite Hv.
    by eexists.
  - intros qc d s qr s' Hrun Hnodup kept.
    pose proof (evaluate_question_attaches _ _ _ _ _ Hnodup Hrun) as Hkept.
    destruct (evaluate_question_faithful _ _ _ _ _ Hrun)
      as (_ & _ & _ & Hfrom & _).
    destruct (Hscore qr kept Hkept). by split_and!.
  - intros config tcs s r s' inv scores Hrun Hstable Hinv Hall. split.
    + eapply Forall_impl; [exact Hall|]. intros metric_id Hdet Hfalse.
      unfold determined in Hdet. rewrite Hfalse in Hdet.
      destruct Hdet as [Hnd Hc].
      destruct (settles_evaluate inv metric_id _ _ _ _ _ Hstable Hrun)
        as (_ & _ & _ & _ & _ & _ & _ & Hstay).
      specialize (Hstay Hnd Hinv). unfold cached in Hstay.
      rewrite Hc in Hstay.
      specialize (Hstay eq_refl). by destruct (metric_cache s' !! metric_id).
    + pose proof (Forall2_both _ _ _ _
                    (evaluate_selects inv scores _ _ _ _ _ Hstable Hinv
                       Hrun Hall)
                    (evaluate_faithful _ _ _ _ _ Hrun)) as Hboth.
      eapply Forall2_impl; [exact Hboth|].
      intros gc gr [Hsel (_ & _ & Hqs)].
      eapply Forall2_impl; [exact (Forall2_both _ _ _ _ Hsel Hqs)|].
      intros qc qr [Hkept (_ & _ & _ & Hfrom & _)] kept.
      destruct (Hscore qr kept Hkept). by split_and!.
Qed.

(** *** C9 *)





Lemma to_dict_goals r doc :
  to_dict r = Ok doc →
  ∃ gs, json_field doc "goals" = Some (JList gs)
        ∧ Forall2 (λ g e, goal_to_dict g = Ok e)
            (EvaluationResult.goals r) gs.
Proof.
  unfold to_dict.
  destruct (EvaluationResult.score r) as [sr|]; simpl; [|done].
  destruct (rmapM goal_to_dict (EvaluationResult.goals r))
    as [gs|] eqn:Hgs; simpl; [|done].
  intros [= <-]. exists gs. split; [done|]. by apply rmapM_Ok.
Qed.

End Run.

(** *** The properties on the test doubles *)

(** C2, as stated, fails for a metric that answers "no data": nothing is
    cached for it, so each of the two questions that reference it has it
    executed again. *)
Lemma C2_counterexample_no_data_metric :
  let config := shared_metric_config "multi_hop_reasoning" in
  let run := @evaluate plain_run config [] (@GQMFramework_init plain_run ()) in
  referencing_questions "multi_hop_reasoning" config = 2%nat
  ∧ (∃ r, run.1 = Ok r)
  ∧ @invocations plain_run "multi_hop_reasoning" run.2 = 2%nat
  ∧ @invocations plain_run "multi_hop_reasoning" run.2 ≠ 1%nat.
Proof. split_and!; [by vm_compute | by eexists | by vm_compute..]. Qed.

(** With the client, no call of [client_run] loses it. *)
Lemma client_run_stable : @stable client_run (λ w, w = true).
Proof.
  split_and!.
  - by intros q w ->.
  - by intros w ->.
  - intros metric_enum d w ->. by destruct metric_enum.
Qed.

Lemma C2_witness :
  let config := shared_metric_config "faithfulness" in
  let s := @GQMFramework_init client_run true in
  let run := @evaluate client_run config sample_test_cases s in
  (∃ r, run.1 = Ok r)
  ∧ metric_cache s !! "faithfulness" = None
  ∧ metric_references "faithfulness" config = 2%nat
  ∧ @invocations client_run "faithfulness" run.2 = 1%nat.
Proof.
  intros config s run.
  assert (∃ r, run = (Ok r, run.2)) as [r Hr].
  { eexists. rewrite (surjective_pairing run) at 1. f_equal; by vm_compute. }
  assert (metric_cache s !! "faithfulness" = None) as Hc by done.
  assert (metric_references "faithfulness" config = 2%nat) as Href
    by (by vm_compute).
  assert (@scores_on client_run (λ w, w = true)
            (EvaluationData.make
               (@expected_results client_run sample_test_cases (outside s)))
            "faithfulness") as Hscores.
  { intros w ->. by vm_compute. }
  split_and!; [exists r; by rewrite Hr | done | done |].
  destruct (C2_executions_of_a_metric (H := client_run)
              config sample_test_cases s r run.2 "faithfulness" Hr Hc)
    as (_ & _ & _ & _ & _ & _ & Honce & _).
  refine (proj1 (Honce _ client_run_stable eq_refl Hscores _)).
  rewrite Href. lia.
Defined.

Lemma C4_witness :
  let s := @GQMFramework_init client_run true in
  let run := @evaluate client_run mixed_question_config [] s in
  let scores := λ metric_id : string,
    bool_decide (metric_id ≠ "multi_hop_reasoning") in
  (∃ r, run.1 = Ok r
        ∧ Forall2 (λ gc gr,
              Forall2 (λ qc qr,
                  reference_of <$> QuestionResult.metrics qr
                  = filter (λ item, scores item.1 = true)
                      (QuestionConfig.metrics qc))
                (GoalConfig.questions gc) (GoalResult.questions gr))
            (EvaluationConfig.goals mixed_question_config)
            (EvaluationResult.goals r))
  ∧ Forall (@determined client_run (λ w, w = true) (EvaluationData.make [])
              scores s)
      (configured_metrics mixed_question_config)
  ∧ (@executor_outcome client_run "multi_hop_reasoning"
       (EvaluationData.make []) false).1 = RFloat 0
  ∧ metric_cache run.2 !! "multi_hop_reasoning" = None.
Proof.
  intros s run scores.
  assert (∃ r, run = (Ok r, run.2)) as [r Hr].
  { eexists. rewrite (surjective_pairing run) at 1. f_equal; by vm_compute. }
  assert (Forall (@determined client_run (λ w, w = true)
                    (EvaluationData.make []) scores s)
            (configured_metrics mixed_question_config)) as Hall.
  { repeat constructor; by intros w ->. }
  destruct (proj2 (proj2 (C4_no_data_metric_is_omitted (H := client_run)))
              mixed_question_config [] s r run.2 (λ w, w = true) scores Hr
              client_run_stable eq_refl Hall)
    as [Hout Hkept].
  split_and!.
  - exists r. split; [by rewrite Hr|].
    eapply Forall2_impl; [exact Hkept|]. intros gc gr Hqs.
    eapply Forall2_impl; [exact Hqs|]. by intros qc qr [? _].
  - done.
  - done.
  - apply Forall_cons in Hout as [_ Hout].
    apply Forall_cons in Hout as [Hout _]. by apply Hout.
Defined.

Lemma C5_witness :
  let s := @GQMFramework_init plain_run () in
  ∃ data s',
    (@_test_rag_system plain_run sample_test_cases s) = (Ok data, s')
    ∧ sample_test_cases !! 1%nat
      = Some (TestCase.make "broken" "nothing" "simple" ["x"])
    ∧ EvaluationData.test_case_results data !! 1%nat
      = Some (TestCaseResult.make "broken" EmptyString [] "nothing" ["x"]
                "simple").
Proof.
  intros s.
  destruct (C5_one_result_per_test_case (H := plain_run) sample_test_cases s)
    as (data & s' & Hrun & _ & _ & _ & Hlookup).
  exists data, s'. split_and!; [done..|].
  by rewrite (Hlookup 1%nat _ eq_refl).
Defined.

Lemma C6_witness :
  let s := @GQMFramework_init plain_run () in
  let d := EvaluationData.make [] in
  metric_cache s !! "m1" = None
  ∧ ("m1" ∉ MetricId_value <$> MetricId_members)
  ∧ (∃ s', (@_get_or_execute_metric plain_run "m1" 1 d s)
           = (Ok (Some (MetricResult.make "m1" 0 1 None)), s'))
  ∧ metric_cache s !! "answer_relevance" = None
  ∧ (@metric_function_of plain_run ANSWER_RELEVANCE d (outside s)).1
    = Raise (RuntimeError "malformed response")
  ∧ (∃ s', (@_get_or_execute_metric plain_run "answer_relevance" 1 d s)
           = (Ok (Some (MetricResult.make "answer_relevance" 0 1 None)), s')).
Proof.
  intros s d.
  assert (metric_cache s !! "m1" = None) as Hc by done.
  assert ("m1" ∉ MetricId_value <$> MetricId_members) as Hunknown
    by (apply (bool_decide_unpack _); by vm_compute).
  assert (metric_cache s !! "answer_relevance" = None) as Hc' by done.
  assert (∃ m e w', MetricId_of_value "answer_relevance" = Ok m
                    ∧ @metric_function_of plain_run m d (outside s)
                      = (Raise e, w')) as Hraises.
  { by exists ANSWER_RELEVANCE, (RuntimeError "malformed response"), (). }
  split_and!; [done..| |done|done|].
  - destruct (proj2 (C6_metric_failure_defaults_to_zero (H := plain_run)
                       "m1" 1 d s Hc (or_introl Hunknown)))
      as (s' & ev & Hrun & _).
    by exists s'.
  - destruct (proj2 (C6_metric_failure_defaults_to_zero (H := plain_run)
                       "answer_relevance" 1 d s Hc' (or_intror Hraises)))
      as (s' & ev & Hrun & _).
    by exists s'.
Defined.

(** C7, as stated, fails: the second [evaluate] call on a framework starts
    with the entry that the first call stored and does not execute the
    metric again. *)
Lemma C7_counterexample_second_run_reuses_cache :
  let config := shared_metric_config "faithfulness" in
  let s0 := @GQMFramework_init plain_run () in
  let s1 := (@evaluate plain_run config [] s0).2 in
  let s2 := (@evaluate plain_run config [] s1).2 in
  metric_cache s1 !! "faithfulness"
  = Some (CachedMetricResult.make "faithfulness" (qc 4 5) None)
  ∧ @invocations plain_run "faithfulness" s1 = 1%nat
  ∧ (∃ r, (@evaluate plain_run config [] s1).1 = Ok r)
  ∧ @invocations plain_run "faithfulness" s2 = 1%nat.
Proof. split_and!; [by vm_compute..| by eexists | by vm_compute]. Qed.

Lemma C7_witness :
  let config := shared_metric_config "faithfulness" in
  let s1 := (@evaluate plain_run config [] (@GQMFramework_init plain_run ())).2 in
  let run := @evaluate plain_run config [] s1 in
  is_Some (metric_cache s1 !! "faithfulness")
  ∧ @invocations plain_run "faithfulness" run.2
    = @invocations plain_run "faithfulness" s1.
Proof.
  intros config s1 run.
  assert (is_Some (metric_cache s1 !! "faithfulness")) as Hc.
  { eexists. by vm_compute. }
  split; [done|].
  exact (proj2 (proj2 (C7_cache_lives_with_the_framework (H := plain_run))
                  config [] s1 run.1 run.2
                  (or_introl (surjective_pairing run)))
           "faithfulness" Hc).
Defined.



(** ** Further properties of the result tree *)

Lemma Py_sum_from (acc : Qc) xs : foldl Qcplus acc xs = acc + Py.sum xs.
Proof.
  unfold Py.sum. revert acc. induction xs as [|x xs IH]; intros acc; simpl.
  - by rewrite Qcplus_0_r.
  - rewrite (IH (acc + x)), (IH (0 + x)). ring.
Qed.

Lemma Py_sum_cons (x : Qc) xs : Py.sum (x :: xs) = x + Py.sum xs.
Proof. unfold Py.sum at 1. simpl. rewrite Py_sum_from. ring. Qed.

Lemma Py_sum_app xs ys : Py.sum (xs ++ ys) = Py.sum xs + Py.sum ys.
Proof.
  induction xs as [|x xs IH]; simpl.
  - unfold Py.sum at 2. simpl. ring.
  - rewrite !Py_sum_cons, IH. ring.
Qed.









Lemma sum_gen_app {A} (f : A → result Qc) acc xs ys :
  Py.sum_gen f acc (xs ++ ys)
  = (let! v := Py.sum_gen f acc xs in Py.sum_gen f v ys).
Proof.
  revert acc. induction xs as [|x xs IH]; intros acc; simpl; [done|].
  destruct (f x) as [v|e]; simpl; [apply IH|done].
Qed.

Lemma GoalResult_score_nonempty g :
  GoalResult.questions g ≠ [] →
  GoalResult.score g
  = (let! weighted_sum :=
       Py.sum_gen (λ q, let! s := QuestionResult.score q in
                        Ok (s * QuestionResult.weight q))
         0 (GoalResult.questions g) in
     if Py.gt0 (Py.sum (QuestionResult.weight <$> GoalResult.questions g))
     then Py.truediv weighted_sum
            (Py.sum (QuestionResult.weight <$> GoalResult.questions g))
     else Ok 0).
Proof. intros Hg. unfold GoalResult.score. by destruct (GoalResult.questions g). Qed.

(** X3.  A question of weight 0 whose own score is defined does not change
    the score of its goal: the goal scores as if the question were not
    there, wherever it stands among the goal's questions. *)
Theorem X3_zero_weight_question_is_neutral name w l1 q l2 sq :
  QuestionResult.weight q = 0 →
  QuestionResult.score q = Ok sq →
  GoalResult.score (GoalResult.make name (l1 ++ q :: l2) w)
  = GoalResult.score (GoalResult.make name (l1 ++ l2) w).
Proof.
  intros Hw Hs.
  set (f := λ q0, let! s := QuestionResult.score q0 in
                  Ok (s * QuestionResult.weight q0)).
  assert (∀ acc, Py.sum_gen f acc (l1 ++ q :: l2)
                 = Py.sum_gen f acc (l1 ++ l2)) as Hsum.
  { intros acc. rewrite !sum_gen_app.
    destruct (Py.sum_gen f acc l1) as [v|e]; simpl; [|done].
    unfold f at 1. rewrite Hs, Hw. simpl.
    by rewrite Qcmult_0_r, Qcplus_0_r. }
  assert (Py.sum (QuestionResult.weight <$> l1 ++ q :: l2)
          = Py.sum (QuestionResult.weight <$> l1 ++ l2)) as Htotal.
  { rewrite !fmap_app, fmap_cons, !Py_sum_app, Py_sum_cons, Hw. ring. }
  rewrite (GoalResult_score_nonempty (GoalResult.make name (l1 ++ q :: l2) w))
    by (simpl; by destruct l1).
  simpl. fold f. rewrite Hsum, Htotal.
  destruct (decide (l1 ++ l2 = [])) as [Hnil|Hne].
  - rewrite Hnil. reflexivity.
  - by rewrite (GoalResult_score_nonempty (GoalResult.make name (l1 ++ l2) w)).
Qed.

Lemma X3_witness :
  let q := QuestionResult.make "Q0" [] 0 in
  QuestionResult.weight q = 0
  ∧ QuestionResult.score q = Ok 0
  ∧ GoalResult.score (GoalResult.make "G" ([scenario_question] ++ q :: []) 1)
    = Ok (qc 2 3).
Proof.
  intros q. split_and!; [done..|].
  rewrite (X3_zero_weight_question_is_neutral "G" 1 [scenario_question] q []
             0 eq_refl eq_refl).
  by vm_compute.
Defined.

(** *** Serialization, continued *)

Lemma metric_round_trip m : metric_from_dict (metric_to_dict m) = Some m.
Proof.
  destruct m as [metric_id value weight [rows|]]; reflexivity.
Qed.

Lemma metrics_round_trip ms :
  mapM metric_from_dict (metric_to_dict <$> ms) = Some ms.
Proof.
  induction ms as [|m ms IH]; [done|].
  rewrite fmap_cons, option_mapM_cons, metric_round_trip, IH. done.
Qed.

Lemma question_round_trip q e :
  question_to_dict q = Ok e → question_from_dict e = Some q.
Proof.
  unfold question_to_dict.
  destruct (QuestionResult.score q) as [s|]; simpl; [|done].
  intros [= <-]. unfold question_from_dict. simpl.
  rewrite metrics_round_trip. simpl. by destruct q.
Qed.

Lemma questions_round_trip qs es :
  Forall2 (λ q e, question_to_dict q = Ok e) qs es →
  mapM question_from_dict es = Some qs.
Proof.
  induction 1 as [|q e qs es Hq _ IH]; [done|].
  by rewrite option_mapM_cons, (question_round_trip _ _ Hq), IH.
Qed.

Lemma goal_round_trip g e :
  goal_to_dict g = Ok e → goal_from_dict e = Some g.
Proof.
  unfold goal_to_dict.
  destruct (GoalResult.score g) as [s|]; simpl; [|done].
  destruct (rmapM question_to_dict (GoalResult.questions g)) as [es|] eqn:Hes;
    simpl; [|done].
  intros [= <-]. unfold goal_from_dict. simpl.
  rewrite (questions_round_trip _ _ (rmapM_Ok _ _ _ Hes)). simpl.
  by destruct g.
Qed.

Lemma goals_round_trip gs es :
  Forall2 (λ g e, goal_to_dict g = Ok e) gs es →
  mapM goal_from_dict es = Some gs.
Proof.
  induction 1 as [|g e gs es Hg _ IH]; [done|].
  by rewrite option_mapM_cons, (goal_round_trip _ _ Hg), IH.
Qed.

(** X4.  [to_dict] loses nothing: from a document it produced, the result
    tree can be rebuilt exactly (goals, questions and metrics in their
    order, with names, weights, values and breakdowns; a metric without a
    breakdown has no [individual_scores] key, one with a breakdown, even an
    empty one, has it).  So two different results never serialize to the
    same document. *)
Theorem X4_to_dict_round_trip :
  (∀ r doc, to_dict r = Ok doc → from_dict doc = Some r)
  ∧ (∀ r1 r2 doc, to_dict r1 = Ok doc → to_dict r2 = Ok doc → r1 = r2).
Proof.
  assert (∀ r doc, to_dict r = Ok doc → from_dict doc = Some r) as Hrt.
  { intros r doc. unfold to_dict.
    destruct (EvaluationResult.score r) as [s|]; simpl; [|done].
    destruct (rmapM goal_to_dict (EvaluationResult.goals r)) as [es|] eqn:Hes;
      simpl; [|done].
    intros [= <-]. unfold from_dict. simpl.
    rewrite (goals_round_trip _ _ (rmapM_Ok _ _ _ Hes)). simpl.
    by destruct r. }
  split; [done|]. intros r1 r2 doc H1%Hrt H2%Hrt. congruence.
Qed.

Lemma X4_witness :
  ∃ doc, to_dict scenario_result = Ok doc
         ∧ from_dict doc = Some scenario_result.
Proof.
  eexists. split; [by vm_compute|].
  apply (proj1 X4_to_dict_round_trip). by vm_compute.
Defined.


Lemma question_scorable_dec q : Decision (question_scorable q).
Proof. unfold question_scorable. apply _. Qed.

Lemma QuestionResult_score_cases q :
  match QuestionResult.score q with
  | Ok _ => question_scorable q
  | Raise e => e = ZeroDivisionError ∧ ¬ question_scorable q
  end.
Proof.
  destruct (decide (QuestionResult.metrics q = [])) as [Hm|Hm].
  - rewrite QuestionResult_score_empty by done. by left.
  - destruct (decide (total_weight (metric_pairs q) = 0)) as [Hw|Hw].
    + rewrite QuestionResult_score_zero_weight by done.
      split; [done|]. by intros [?|?].
    + rewrite QuestionResult_score_average by done. by right.
Qed.

Lemma sum_gen_cases {A} (f : A → result Qc) (P : A → Prop) (e : exn) acc xs :
  (∀ x, match f x with Ok _ => P x | Raise e' => e' = e ∧ ¬ P x end) →
  match Py.sum_gen f acc xs with
  | Ok _ => Forall P xs
  | Raise e' => e' = e ∧ ¬ Forall P xs
  end.
Proof.
  intros Hf. revert acc. induction xs as [|x xs IH]; intros acc; simpl.
  - constructor.
  - specialize (Hf x). destruct (f x) as [v|e']; simpl.
    + specialize (IH (acc + v)). destruct (Py.sum_gen f (acc + v) xs).
      * by constructor.
      * destruct IH as [-> Hxs]. split; [done|].
        by intros [_ ?]%Forall_cons.
    + destruct Hf as [-> Hx]. split; [done|]. by intros [? _]%Forall_cons.
Qed.

Lemma GoalResult_score_cases g :
  match GoalResult.score g with
  | Ok _ => Forall question_scorable (GoalResult.questions g)
  | Raise e =>
      e = ZeroDivisionError
      ∧ ¬ Forall question_scorable (GoalResult.questions g)
  end.
Proof.
  unfold GoalResult.score.
  destruct (GoalResult.questions g) as [|q qs] eqn:Hqs; [constructor|].
  pose proof (sum_gen_cases
    (λ q0, let! s := QuestionResult.score q0 in
           Ok (s * QuestionResult.weight q0))
    question_scorable ZeroDivisionError 0 (q :: qs)) as Hsum.
  destruct (Py.sum_gen _ 0 (q :: qs)) as [v|e]; simpl.
  - assert (Forall question_scorable (q :: qs)) as Hall.
    { apply Hsum. intros q0. pose proof (QuestionResult_score_cases q0).
      by destruct (QuestionResult.score q0). }
    destruct (Py.gt0 _) eqn:Hgt; [|done].
    apply bool_decide_eq_true in Hgt.
    by rewrite truediv_nonzero by by apply Qc_pos_nonzero.
  - apply Hsum. intros q0. pose proof (QuestionResult_score_cases q0).
    by destruct (QuestionResult.score q0).
Qed.

Lemma EvaluationResult_score_cases r :
  match EvaluationResult.score r with
  | Ok _ => result_scorable r
  | Raise e => e = ZeroDivisionError ∧ ¬ result_scorable r
  end.
Proof.
  unfold EvaluationResult.score, result_scorable.
  destruct (EvaluationResult.goals r) as [|g gs] eqn:Hgs; [constructor|].
  pose proof (sum_gen_cases
    (λ g0, let! s := GoalResult.score g0 in Ok (s * GoalResult.weight g0))
    (λ g0, Forall question_scorable (GoalResult.questions g0))
    ZeroDivisionError 0 (g :: gs)) as Hsum.
  destruct (Py.sum_gen _ 0 (g :: gs)) as [v|e]; simpl.
  - assert (Forall (λ g0, Forall question_scorable (GoalResult.questions g0))
              (g :: gs)) as Hall.
    { apply Hsum. intros g0. pose proof (GoalResult_score_cases g0).
      by destruct (GoalResult.score g0). }
    destruct (Py.gt0 _) eqn:Hgt; [|done].
    apply bool_decide_eq_true in Hgt.
    by rewrite truediv_nonzero by by apply Qc_pos_nonzero.
  - apply Hsum. intros g0. pose proof (GoalResult_score_cases g0).
    by destruct (GoalResult.score g0).
Qed.

Lemma rmapM_total {A B} (f : A → result B) xs :
  Forall (λ x, ∃ y, f x = Ok y) xs → ∃ ys, rmapM f xs = Ok ys.
Proof.
  induction 1 as [|x xs [y Hy] _ [ys IH]]; [by exists []|].
  simpl. rewrite Hy, IH. simpl. by eexists.
Qed.

Lemma to_dict_defined r s :
  EvaluationResult.score r = Ok s → ∃ doc, to_dict r = Ok doc.
Proof.
  intros Hs. pose proof (EvaluationResult_score_cases r) as Hr.
  rewrite Hs in Hr.
  assert (∃ gs, rmapM goal_to_dict (EvaluationResult.goals r) = Ok gs)
    as [gs Hgs].
  { apply rmapM_total. eapply Forall_impl; [exact Hr|].
    intros g Hg. unfold goal_to_dict.
    pose proof (GoalResult_score_cases g) as Hg'.
    destruct (GoalResult.score g) as [sg|]; [|by destruct Hg']. simpl.
    assert (∃ qs, rmapM question_to_dict (GoalResult.questions g) = Ok qs)
      as [qs ->].
    { apply rmapM_total. eapply Forall_impl; [exact Hg|].
      intros q Hq. unfold question_to_dict.
      pose proof (QuestionResult_score_cases q) as Hq'.
      destruct (QuestionResult.score q); [|by destruct Hq'].
      simpl. by eexists. }
    simpl. by eexists. }
  eexists. unfold to_dict. rewrite Hs, Hgs. done.
Qed.

(** X5.  [to_dict] is defined exactly when the overall score is.  When
    [score] returns, every score below it in the tree has been computed,
    so [to_dict], which computes them again, returns a document, and the
    document records that score.  When [score] raises, [to_dict] raises
    the same exception. *)
Theorem X5_to_dict_is_defined_with_the_score r :
  (∀ s, EvaluationResult.score r = Ok s →
        ∃ doc, to_dict r = Ok doc
               ∧ json_field doc "overall_score" = Some (JNum s))
  ∧ (∀ e, EvaluationResult.score r = Raise e → to_dict r = Raise e)
  ∧ (∀ doc, to_dict r = Ok doc → ∃ s, EvaluationResult.score r = Ok s).
Proof.
  split_and!.
  - intros s Hs. destruct (to_dict_defined r s Hs) as [doc Hdoc].
    exists doc. split; [done|]. revert Hdoc. unfold to_dict. rewrite Hs.
    simpl. destruct (rmapM goal_to_dict _); simpl; [|done].
    by intros [= <-].
  - intros e He. unfold to_dict. by rewrite He.
  - intros doc. unfold to_dict.
    destruct (EvaluationResult.score r) as [s|e]; [by eexists|done].
Qed.

Lemma X5_witness :
  EvaluationResult.score negative_weight_result = Ok 0
  ∧ (∃ doc, to_dict negative_weight_result = Ok doc)
  ∧ EvaluationResult.score zero_weight_result = Raise ZeroDivisionError
  ∧ to_dict zero_weight_result = Raise ZeroDivisionError.
Proof.
  assert (EvaluationResult.score negative_weight_result = Ok 0) as Hok
    by (by vm_compute).
  assert (EvaluationResult.score zero_weight_result = Raise ZeroDivisionError)
    as Hbad by (by vm_compute).
  split_and!; [done| |done|].
  - destruct (proj1 (X5_to_dict_is_defined_with_the_score _) _ Hok)
      as (doc & Hdoc & _).
    by exists doc.
  - exact (proj1 (proj2 (X5_to_dict_is_defined_with_the_score _)) _ Hbad).
Defined.

(** ** Further properties of a run *)

Section MoreRun.
Context `{Collaborators}.
Local Open Scope M_scope.

(** *** Which exceptions a run lets through *)

Section RaisesOnly.
Variable P : exn → Prop.

Lemma raises_only_ret {A} (a : A) : raises_only P (ret a).
Proof. by intros s e s'. Qed.

Lemma raises_only_logger l ev : raises_only P (logger l ev).
Proof. by intros s e s'. Qed.

Lemma raises_only_bind {A B} (c : M A) (k : A → M B) :
  raises_only P c → (∀ a, raises_only P (k a)) → raises_only P (bind c k).
Proof.
  intros Hc Hk s e s'. unfold bind.
  destruct (c s) as [[a|e0] s1] eqn:Hcs.
  - apply Hk.
  - intros [= <- <-]. by eapply Hc.
Qed.

Lemma raises_only_for_each {A S} (xs : list A) (body : A → S → M S) acc :
  (∀ x acc, raises_only P (body x acc)) →
  raises_only P (for_each xs body acc).
Proof.
  intros Hbody. revert acc.
  induction xs as [|x xs IH]; intros acc; simpl.
  - apply raises_only_ret.
  - apply raises_only_bind; [apply Hbody | intros acc'; apply IH].
Qed.
End RaisesOnly.

Lemma test_rag_system_returns tcs : raises_only (λ _, False) (_test_rag_system tcs).
Proof.
  intros s e s' Hrun.
  destruct (test_rag_system_spec tcs s) as (s1 & Hok & _). congruence.
Qed.

Lemma unload_rag_system_returns : raises_only (λ _, False) _unload_rag_system.
Proof.
  intros s e s'. unfold _unload_rag_system, catch, bind, call, logger.
  destruct (rag_system_unload (outside s)) as [[[]|e0] w]; simpl; done.
Qed.

Lemma raises_only_weaken {A} (P Q : exn → Prop) (c : M A) :
  (∀ e, P e → Q e) → raises_only P c → raises_only Q c.
Proof. intros HPQ Hc s e s' Hrun. eapply HPQ, Hc, Hrun. Qed.

Lemma get_or_execute_raises metric_id w d :
  raises_only
    (λ e, e = TypeError ∧ Config.return_detailed_results get_config = false)
    (_get_or_execute_metric metric_id w d).
Proof.
  intros s e s'. destruct (metric_cache s !! metric_id) as [c|] eqn:Hc.
  - by rewrite (get_or_execute_hit _ _ _ _ _ Hc).
  - rewrite (get_or_execute_miss _ _ _ _ Hc). cbv zeta.
    destruct (executor_outcome metric_id d (outside s)).1 as [|x|sc ind];
      [done|done|].
    destruct (Config.return_detailed_results get_config); [done|].
    by intros [= <- _].
Qed.

(** X6.  The only exception that [evaluate] lets through is the
    [TypeError] of a dict-shaped metric return met while
    [return_detailed_results] is off.  Failures of the RAG system, of its
    unloading and of metric functions never surface; with the flag on,
    [evaluate] returns a result for every configuration, every list of
    test cases and every behaviour of the collaborators. *)
Theorem X6_evaluate_raises_only_type_error config tcs s :
  (∀ e s', evaluate config tcs s = (Raise e, s') →
           e = TypeError ∧ Config.return_detailed_results get_config = false)
  ∧ (Config.return_detailed_results get_config = true →
     ∃ r s', evaluate config tcs s = (Ok r, s')).
Proof.
  set (P := λ e, e = TypeError
                 ∧ Config.return_detailed_results get_config = false).
  assert (raises_only P (evaluate config tcs)) as Hev.
  { unfold evaluate.
    repeat first
      [ apply raises_only_logger | apply raises_only_ret
      | apply get_or_execute_raises
      | apply (raises_only_weaken (λ _, False) P);
          [done | first [apply test_rag_system_returns
                        | apply unload_rag_system_returns]]
      | apply raises_only_bind; [|intros ?]
      | apply raises_only_for_each; intros ? ?; cbv beta
      | progress unfold evaluate_goal, evaluate_question
      | match goal with
        | |- raises_only _ (match ?x with _ => _ end) => destruct x
        end ]. }
  split.
  - intros e s'. apply Hev.
  - intros Hflag. destruct (evaluate config tcs s) as [[r|e] s'] eqn:Hrun.
    + by exists r, s'.
    + destruct (Hev _ _ _ Hrun) as [_ Hoff]. congruence.
Qed.

(** *** What a run leaves alone *)

Section Keeps.
Context {B : Type} (proj : state → B).
Hypothesis proj_log :
  ∀ s l, proj (State (metric_cache s) (outside s) l (executed s) (queried s))
         = proj s.

Lemma keeps_ret {A} (a : A) : keeps proj (ret a).
Proof. by intros s r s' [= _ <-]. Qed.

Lemma keeps_raise {A} e : keeps proj (raise (A := A) e).
Proof. by intros s r s' [= _ <-]. Qed.

Lemma keeps_logger l ev : keeps proj (logger l ev).
Proof. intros s r s' [= _ <-]. apply proj_log. Qed.

Lemma keeps_bind {A C} (c : M A) (k : A → M C) :
  keeps proj c → (∀ a, keeps proj (k a)) → keeps proj (bind c k).
Proof.
  intros Hc Hk s r s'. unfold bind.
  destruct (c s) as [[a|e] s1] eqn:Hcs.
  - intros Hks. etrans; [by eapply Hk | by eapply Hc].
  - intros [= _ <-]. by eapply Hc.
Qed.

Lemma keeps_for_each {A S} (xs : list A) (body : A → S → M S) acc :
  (∀ x acc, keeps proj (body x acc)) → keeps proj (for_each xs body acc).
Proof.
  intros Hbody. revert acc.
  induction xs as [|x xs IH]; intros acc; simpl.
  - apply keeps_ret.
  - apply keeps_bind; [apply Hbody | intros acc'; apply IH].
Qed.

Lemma keeps_goals config d acc :
  (∀ metric_id w, keeps proj (_get_or_execute_metric metric_id w d)) →
  keeps proj
    (for_each (EvaluationConfig.goals config)
       (λ goal_config goal_results,
          let* result := evaluate_goal goal_config d in
          ret (goal_results ++ [result]))
       acc).
Proof.
  intros Hmetric. unfold evaluate_goal, evaluate_question.
  repeat first
    [ apply Hmetric | apply keeps_ret | apply keeps_logger
    | apply keeps_bind; [|intros ?]
    | apply keeps_for_each; intros ? ?; cbv beta
    | match goal with
      | |- keeps _ (match ?x with _ => _ end) => destruct x
      end ].
Qed.
End Keeps.

Lemma get_or_execute_keeps_queried metric_id w d :
  keeps queried (_get_or_execute_metric metric_id w d).
Proof.
  intros s r s'. destruct (metric_cache s !! metric_id) as [c|] eqn:Hc.
  - rewrite (get_or_execute_hit _ _ _ _ _ Hc). by intros [= _ <-].
  - rewrite (get_or_execute_miss _ _ _ _ Hc). cbv zeta.
    destruct (executor_outcome metric_id d (outside s)).1 as [|x|sc ind];
      [| |destruct (Config.return_detailed_results get_config)];
      by intros [= _ <-].
Qed.

(** X7.  Whatever [evaluate] returns, normally or not, it has queried the
    RAG system with the questions of the test cases, once each and in
    order, and with nothing else: the metric phase, however many goals,
    questions and metrics it covers, never goes back to the RAG system. *)
Theorem X7_evaluate_queries_each_test_case_once config tcs s r s' :
  evaluate config tcs s = (r, s') →
  queried s' = queried s ++ (TestCase.question <$> tcs).
Proof.
  unfold evaluate. unfold bind at 1, logger at 1. unfold bind at 1.
  match goal with
  | |- context [_test_rag_system tcs ?s0] =>
      destruct (test_rag_system_spec tcs s0) as (s1 & -> & Hq & _)
  end.
  simpl in Hq. unfold bind at 1, logger at 1. unfold bind at 1.
  match goal with
  | |- context [_unload_rag_system ?s2] =>
      pose proof (unload_rag_system_returns s2) as Hun;
      assert (∀ r0 s3, _unload_rag_system s2 = (r0, s3)
                       → queried s3 = queried s2) as Hkeep
  end.
  { intros r0 s3. unfold _unload_rag_system, catch, bind, call, logger.
    destruct (rag_system_unload _) as [[[]|e0] w]; simpl;
      by intros [= _ <-]. }
  destruct (_unload_rag_system _) as [[[]|e] s3] eqn:Hu;
    [|by destruct (Hun _ _ eq_refl)].
  specialize (Hkeep _ _ eq_refl). simpl in Hkeep.
  unfold bind at 1.
  destruct (for_each _ _ _ s3) as [[gs|e] s4] eqn:Hloop.
  - intros [= _ <-].
    rewrite (keeps_goals queried (λ _ _, eq_refl) _ _ _
               (λ m w, get_or_execute_keeps_queried m w _) _ _ _ Hloop).
    by rewrite Hkeep.
  - intros [= _ <-].
    rewrite (keeps_goals queried (λ _ _, eq_refl) _ _ _
               (λ m w, get_or_execute_keeps_queried m w _) _ _ _ Hloop).
    by rewrite Hkeep.
Qed.

(** *** The cache is keyed by [metric_id] *)

Lemma cache_keyed_get_or_execute metric_id w d :
  always (λ s s', cache_keyed s → cache_keyed s')
    (_get_or_execute_metric metric_id w d).
Proof.
  intros s r s'. destruct (metric_cache s !! metric_id) as [c|] eqn:Hc.
  - rewrite (get_or_execute_hit _ _ _ _ _ Hc). intros [= _ <-] Hs. exact Hs.
  - rewrite (get_or_execute_miss _ _ _ _ Hc). cbv zeta.
    assert (∀ x ind, cache_keyed s →
              ∀ k c, <[metric_id := CachedMetricResult.make metric_id x ind]>
                       (metric_cache s) !! k = Some c →
                     CachedMetricResult.metric_id c = k) as Hins.
    { intros x ind Hs k c.
      destruct (decide (k = metric_id)) as [->|Hne].
      - rewrite lookup_insert_eq. by intros [= <-].
      - rewrite lookup_insert_ne by done. apply Hs. }
    destruct (executor_outcome metric_id d (outside s)).1 as [|x|sc ind];
      [| |destruct (Config.return_detailed_results get_config)];
      intros [= _ <-] Hs; first [exact Hs | exact (Hins _ _ Hs)].
Qed.

(** X8.  Every entry of the metric cache is stored under its own
    [metric_id]: this holds in a fresh framework and is kept by every call
    of [evaluate] and of [EvaluationPipeline.evaluate], whatever they
    return; and every [MetricResult] of a returned tree carries the value
    and the breakdown of the entry stored under its [metric_id]. *)
Theorem X8_cache_entries_are_keyed_by_their_metric :
  (∀ w, cache_keyed (GQMFramework_init w))
  ∧ (∀ config tcs s r s',
       evaluate config tcs s = (r, s')
       ∨ pipeline_evaluate config tcs s = (r, s') →
       cache_keyed s → cache_keyed s')
  ∧ (∀ config tcs s r s',
       evaluate config tcs s = (Ok r, s') →
       Forall (λ g, Forall (λ q, Forall (from_cache (metric_cache s'))
                                   (QuestionResult.metrics q))
                      (GoalResult.questions g))
         (EvaluationResult.goals r)).
Proof.
  set (R := λ s s' : state, cache_keyed s → cache_keyed s').
  assert (∀ s1 s2 s3, R s1 s2 → R s2 s3 → R s1 s3) as Rtrans
    by (unfold R; auto).
  assert (∀ s s', metric_cache s' = metric_cache s →
                  executed s' = executed s → R s s') as Rframe.
  { intros s s' Hc _ Hs k c. rewrite Hc. apply Hs. }
  split_and!.
  - intros w k c. simpl. by rewrite lookup_empty.
  - intros config tcs s r s' [Hrun|Hrun].
    + exact (always_evaluate R Rtrans Rframe cache_keyed_get_or_execute
               config tcs _ _ _ Hrun).
    + exact (always_pipeline_evaluate R Rtrans Rframe
               cache_keyed_get_or_execute config tcs _ _ _ Hrun).
  - intros config tcs s r s' Hrun.
    pose proof (evaluate_faithful _ _ _ _ _ Hrun) as Hfaith.
    unfold result_faithful in Hfaith.
    induction Hfaith as [|gc gr gcs grs (_ & _ & Hqs) _ IH]; constructor;
      [|done].
    clear IH. induction Hqs as [|qc qr qcs qrs (_ & _ & _ & Hfrom & _) _ IH];
      by constructor.
Qed.

(** *** Which metrics a run executes *)

Lemma executes_within_weaken {A} l l' (c : M A) :
  sublist l l' → executes_within l c → executes_within l' c.
Proof.
  intros Hsub Hc s r s' Hrun. destruct (Hc _ _ _ Hrun) as (new & He & Hnew).
  exists new. split; [done|]. by etrans.
Qed.

Lemma executes_within_ret {A} (a : A) : executes_within [] (ret a).
Proof. intros s r s' [= _ <-]. exists []. by rewrite app_nil_r. Qed.

Lemma executes_within_logger l ev : executes_within [] (logger l ev).
Proof. intros s r s' [= _ <-]. exists []. simpl. by rewrite app_nil_r. Qed.

Lemma executes_within_bind {A B} l1 l2 (c : M A) (k : A → M B) :
  executes_within l1 c → (∀ a, executes_within l2 (k a)) →
  executes_within (l1 ++ l2) (bind c k).
Proof.
  intros Hc Hk s r s'. unfold bind.
  destruct (c s) as [[a|e] s1] eqn:Hcs.
  - intros Hks. destruct (Hc _ _ _ Hcs) as (n1 & He1 & Hn1).
    destruct (Hk _ _ _ _ Hks) as (n2 & He2 & Hn2).
    exists (n1 ++ n2). split; [by rewrite He2, He1, (assoc_L (++))|].
    by apply sublist_app.
  - intros [= _ <-]. destruct (Hc _ _ _ Hcs) as (n1 & He1 & Hn1).
    exists n1. split; [done|]. by apply sublist_inserts_r.
Qed.

Lemma executes_within_for_each {A S} (f : A → list string) (xs : list A)
    (body : A → S → M S) acc :
  (∀ x acc, executes_within (f x) (body x acc)) →
  executes_within (xs ≫= f) (for_each xs body acc).
Proof.
  intros Hbody. revert acc.
  induction xs as [|x xs IH]; intros acc; simpl.
  - apply executes_within_ret.
  - apply executes_within_bind; [apply Hbody | intros acc'; apply IH].
Qed.

Lemma executes_within_get_or_execute metric_id w d :
  executes_within [metric_id] (_get_or_execute_metric metric_id w d).
Proof.
  intros s r s'. destruct (metric_cache s !! metric_id) as [c|] eqn:Hc.
  - rewrite (get_or_execute_hit _ _ _ _ _ Hc). intros [= _ <-].
    exists []. simpl. split; [by rewrite app_nil_r|]. apply sublist_nil_l.
  - rewrite (get_or_execute_miss _ _ _ _ Hc). cbv zeta.
    destruct (executor_outcome metric_id d (outside s)).1 as [|x|sc ind];
      [| |destruct (Config.return_detailed_results get_config)];
      intros [= _ <-]; by exists [metric_id].
Qed.

Lemma fst_as_bind (items : list (string * Qc)) :
  items.*1 = items ≫= (λ item, [item.1]).
Proof.
  induction items as [|item items IH]; [done|].
  by rewrite fmap_cons, IH.
Qed.

Lemma executes_within_prefixed {A B} l (c : M A) (k : A → M B) :
  executes_within [] c → (∀ a, executes_within l (k a)) →
  executes_within l (bind c k).
Proof. intros Hc Hk. by apply (executes_within_bind [] l). Qed.

Lemma executes_within_finished {A B} l (c : M A) (k : A → M B) :
  executes_within l c → (∀ a, executes_within [] (k a)) →
  executes_within l (bind c k).
Proof.
  intros Hc Hk. rewrite <-(app_nil_r l). by apply executes_within_bind.
Qed.

Lemma executes_within_evaluate_question qc d :
  executes_within (QuestionConfig.metrics qc).*1 (evaluate_question qc d).
Proof.
  unfold evaluate_question.
  apply executes_within_prefixed; [apply executes_within_logger|intros _].
  apply executes_within_finished; [|intros ?; apply executes_within_ret].
  rewrite fst_as_bind.
  apply executes_within_for_each. intros [metric_id w] acc. simpl.
  apply executes_within_finished; [apply executes_within_get_or_execute|].
  intros [m|]; apply executes_within_ret.
Qed.

Lemma executes_within_evaluate_goal gc d :
  executes_within
    (GoalConfig.questions gc ≫= (λ q, (QuestionConfig.metrics q).*1))
    (evaluate_goal gc d).
Proof.
  unfold evaluate_goal.
  apply executes_within_prefixed; [apply executes_within_logger|intros _].
  apply executes_within_finished; [|intros ?; apply executes_within_ret].
  apply executes_within_for_each. intros qc acc.
  apply executes_within_finished; [apply executes_within_evaluate_question|].
  intros ?. apply executes_within_ret.
Qed.

Lemma executes_within_evaluate config tcs :
  executes_within (configured_metrics config) (evaluate config tcs).
Proof.
  unfold evaluate, configured_metrics.
  apply executes_within_prefixed; [apply executes_within_logger|intros _].
  apply executes_within_prefixed.
  { intros s0 r0 s1 Hr. exists [].
    destruct (test_rag_system_spec tcs s0) as (s2 & Hs2 & _ & _ & _ & He).
    rewrite Hs2 in Hr. injection Hr as _ <-.
    split; [by rewrite He, app_nil_r|done]. }
  intros d.
  apply executes_within_prefixed; [apply executes_within_logger|intros _].
  apply executes_within_prefixed.
  { intros s0 r0 s1. unfold _unload_rag_system, catch, bind, call, logger.
    destruct (rag_system_unload _) as [[[]|e0] w]; simpl;
      intros [= _ <-]; exists []; by rewrite app_nil_r. }
  intros _.
  apply executes_within_finished; [|intros ?; apply executes_within_ret].
  apply executes_within_for_each. intros gc acc.
  apply executes_within_finished; [apply executes_within_evaluate_goal|].
  intros ?. apply executes_within_ret.
Qed.

(** X9.  Whatever [evaluate] returns, the calls of [execute_metric] made
    during the run are, in order, a subsequence of the metric references of
    the configuration read goal by goal and question by question: a metric
    that the configuration does not mention is never executed, and the
    number of executions never exceeds the number of references. *)
Theorem X9_only_configured_metrics_are_executed config tcs s r s' :
  evaluate config tcs s = (r, s') →
  ∃ new,
    executed s' = executed s ++ new
    ∧ sublist new (configured_metrics config)
    ∧ (∀ metric_id, metric_id ∈ new → metric_id ∈ configured_metrics config)
    ∧ (length new ≤ length (configured_metrics config))%nat.
Proof.
  intros Hrun.
  destruct (executes_within_evaluate config tcs _ _ _ Hrun)
    as (new & He & Hsub).
  exists new. split_and!; [done..| |].
  - intros m Hm. eapply elem_of_submseteq; [done|by apply sublist_submseteq].
  - by apply sublist_length.
Qed.

(** *** The pipeline's entry point *)

(** X10.  A result that [EvaluationPipeline.evaluate] returns has an
    overall score, which the pipeline has logged; [to_dict] does not raise
    on it, and the document it produces records that score; and the tree
    mirrors the configuration the pipeline was called with. *)
Theorem X10_pipeline_results_have_a_document config tcs s r s' :
  pipeline_evaluate config tcs s = (Ok r, s') →
  ∃ sc doc,
    EvaluationResult.score r = Ok sc
    ∧ (INFO, PipelineOverallScore sc) ∈ log s'
    ∧ to_dict r = Ok doc
    ∧ json_field doc "overall_score" = Some (JNum sc)
    ∧ result_faithful (metric_cache s') config r.
Proof.
  unfold pipeline_evaluate.
  unfold bind at 1, logger at 1. unfold bind at 1, logger at 1.
  unfold bind at 1.
  destruct (evaluate config tcs _) as [[r0|e] s1] eqn:Hev; [|done].
  unfold bind at 1, logger at 1. unfold bind at 1, lift at 1.
  destruct (EvaluationResult.score r0) as [sc|e] eqn:Hsc; [|done].
  unfold bind, logger, ret. simpl. intros [= <- <-].
  destruct (to_dict_defined r0 sc Hsc) as [doc Hdoc].
  exists sc, doc. split_and!; [done| |done| |].
  - simpl. rewrite elem_of_app, list_elem_of_singleton. by right.
  - revert Hdoc. unfold to_dict. rewrite Hsc. simpl.
    destruct (rmapM goal_to_dict _); simpl; [|done]. by intros [= <-].
  - simpl. by eapply evaluate_faithful.
Qed.

(** *** The dispatcher *)

(** X11.  The value of a member of [MetricId] identifies it: parsing the
    value of a member gives the member back, a string that parses is the
    value of the member it parses to, and the fifteen values are pairwise
    different. *)
Theorem X11_metric_identifiers_round_trip :
  (∀ m, MetricId_of_value (MetricId_value m) = Ok m)
  ∧ (∀ metric_id m,
       MetricId_of_value metric_id = Ok m → MetricId_value m = metric_id)
  ∧ (∀ metric_id,
       MetricId_of_value metric_id = Raise ValueError
       ↔ metric_id ∉ (MetricId_value <$> MetricId_members))
  ∧ length MetricId_members = 15%nat
  ∧ NoDup (MetricId_value <$> MetricId_members).
Proof.
  split_and!.
  - apply MetricId_of_value_members.
  - intros metric_id m. unfold MetricId_of_value.
    destruct (list_find _ _) as [[i m']|] eqn:Hfind; [|done].
    apply list_find_Some in Hfind as (_ & Hm & _). by intros [= <-].
  - intros metric_id. split; [|apply MetricId_of_value_unknown].
    unfold MetricId_of_value.
    destruct (list_find _ _) as [[i m']|] eqn:Hfind; [done|]. intros _.
    apply list_find_None in Hfind. rewrite Forall_forall in Hfind.
    intros (m & -> & Hm)%list_elem_of_fmap. by apply (Hfind m).
  - done.
  - apply (bool_decide_unpack _). by vm_compute.
Qed.

(** X12.  [execute_metric] always returns a value and never raises,
    whatever the identifier and whatever the metric function does; it
    leaves the cache and the RAG query trace untouched and counts as one
    execution.  The value is what the metric function named by the
    identifier returned, and 0.0 when there is no such function or when it
    raised. *)
Theorem X12_execute_metric_always_returns metric_id d s :
  ∃ v s',
    execute_metric metric_id d s = (Ok v, s')
    ∧ metric_cache s' = metric_cache s
    ∧ queried s' = queried s
    ∧ executed s' = executed s ++ [metric_id]
    ∧ match MetricId_of_value metric_id with
      | Ok m =>
          match (metric_function_of m d (outside s)).1 with
          | Ok v' => v = v'
          | Raise e =>
              v = RFloat 0
              ∧ (ERROR, ExecutorMetricFailed metric_id e) ∈ log s'
          end
      | Raise _ =>
          v = RFloat 0 ∧ (ERROR, UnknownMetricId metric_id) ∈ log s'
      end.
Proof.
  rewrite execute_metric_spec. eexists _, _. split; [done|]. simpl.
  split_and!; [done..|].
  unfold executor_outcome, executor_log.
  destruct (MetricId_of_value metric_id) as [m|e].
  - destruct (metric_function_of m d (outside s)) as [[v|e] w]; simpl;
      [done|].
    split; [done|]. rewrite elem_of_app, list_elem_of_singleton. by right.
  - split; [done|]. rewrite elem_of_app, list_elem_of_singleton. by right.
Qed.

(** *** Order *)

(** X13.  The result of a run that returns has one goal per configured goal
    and one question per configured question, in the configured order and
    with the configured names, texts and weights; the metrics of a question
    are, in the configured order and with the configured weights, a
    subsequence of its configured metrics.  The document that [to_dict]
    produces lists the goal names in the same order. *)
Theorem X13_result_keeps_configured_order config tcs s r s' :
  evaluate config tcs s = (Ok r, s') →
  GoalResult.goal_name <$> EvaluationResult.goals r
  = GoalConfig.name <$> EvaluationConfig.goals config
  ∧ GoalResult.weight <$> EvaluationResult.goals r
    = GoalConfig.weight <$> EvaluationConfig.goals config
  ∧ Forall2 (λ gc gr,
        QuestionResult.question_text <$> GoalResult.questions gr
        = QuestionConfig.text <$> GoalConfig.questions gc
        ∧ QuestionResult.weight <$> GoalResult.questions gr
          = QuestionConfig.weight <$> GoalConfig.questions gc
        ∧ Forall2 (λ qc qr,
              sublist
                ((λ m, (MetricResult.metric_id m, MetricResult.weight m))
                   <$> QuestionResult.metrics qr)
                (QuestionConfig.metrics qc))
            (GoalConfig.questions gc) (GoalResult.questions gr))
      (EvaluationConfig.goals config) (EvaluationResult.goals r)
  ∧ ∀ doc, to_dict r = Ok doc →
      ∃ gs, json_field doc "goals" = Some (JList gs)
            ∧ (λ g, json_field g "name") <$> gs
              = (λ gc, Some (JStr (GoalConfig.name gc)))
                  <$> EvaluationConfig.goals config.
Proof.
  intros Hrun. pose proof (evaluate_faithful _ _ _ _ _ Hrun) as Hfaith.
  unfold result_faithful in Hfaith.
  assert (GoalResult.goal_name <$> EvaluationResult.goals r
          = GoalConfig.name <$> EvaluationConfig.goals config) as Hnames.
  { clear -Hfaith. induction Hfaith as [|gc gr gcs grs (Hn & _) _ IH];
      [done|]. by rewrite !fmap_cons, Hn, IH. }
  split_and!.
  - done.
  - clear -Hfaith. induction Hfaith as [|gc gr gcs grs (_ & Hw & _) _ IH];
      [done|]. by rewrite !fmap_cons, Hw, IH.
  - eapply Forall2_impl; [exact Hfaith|]. intros gc gr (_ & _ & Hqs).
    split_and!.
    + clear -Hqs. induction Hqs as [|qc qr qcs qrs (Ht & _) _ IH]; [done|].
      by rewrite !fmap_cons, Ht, IH.
    + clear -Hqs. induction Hqs as [|qc qr qcs qrs (_ & Hw & _) _ IH];
        [done|]. by rewrite !fmap_cons, Hw, IH.
    + eapply Forall2_impl; [exact Hqs|]. by intros qc qr (_ & _ & Hsub & _).
  - intros doc Hdoc. destruct (to_dict_goals _ _ Hdoc) as (gs & Hfield & Hgs).
    exists gs. split; [done|].
    change (λ gc, Some (JStr (GoalConfig.name gc)))
      with ((λ n, Some (JStr n)) ∘ GoalConfig.name).
    rewrite list_fmap_compose, <-Hnames, <-list_fmap_compose.
    clear -Hgs. induction Hgs as [|g e gs es Hg _ IH]; [done|].
    rewrite !fmap_cons, IH. f_equal. simpl.
    revert Hg. unfold goal_to_dict.
    destruct (GoalResult.score g); simpl; [|done].
    destruct (rmapM question_to_dict _); simpl; [|done]. by intros [= <-].
Qed.
End MoreRun.

(** *** The metric mapper *)

Lemma collect_inner goal questions acc n :
  foldl
    (λ acc question,
       if has_no_metrics question
       then (acc.1 ++ [QuestionData.make acc.2
                         (GoalConfig.name goal) (GoalConfig.weight goal)
                         (QuestionConfig.text question)
                         (QuestionConfig.weight question)],
             S acc.2)
       else acc)
    (acc, n) questions
  = (acc ++ imap (λ i question,
                    QuestionData.make (n + i)%nat
                      (GoalConfig.name goal) (GoalConfig.weight goal)
                      (QuestionConfig.text question)
                      (QuestionConfig.weight question))
              (filter (λ q, has_no_metrics q = true) questions),
     (n + length (filter (λ q, has_no_metrics q = true) questions))%nat).
Proof.
  revert acc n. induction questions as [|q qs IH]; intros acc n; simpl.
  - by rewrite app_nil_r, Nat.add_0_r.
  - destruct (has_no_metrics q) eqn:Hq.
    + rewrite filter_cons_True by done. simpl. rewrite IH.
      rewrite <-app_assoc. simpl. rewrite Nat.add_0_r. f_equal.
      * do 2 f_equal. apply imap_ext. intros i x _. simpl. f_equal. lia.
      * lia.
    + rewrite filter_cons_False by (by rewrite Hq). apply IH.
Qed.

Lemma unmapped_in_goal (g : GoalConfig.t) (qs : list QuestionConfig.t) :
  filter (λ p : GoalConfig.t * QuestionConfig.t, has_no_metrics p.2 = true)
    ((λ question, (g, question)) <$> qs)
  = (λ question, (g, question))
      <$> filter (λ q, has_no_metrics q = true) qs.
Proof.
  induction qs as [|q qs IHq]; [done|].
  rewrite fmap_cons. destruct (has_no_metrics q) eqn:Hq.
  - rewrite !filter_cons_True by done. by rewrite fmap_cons, IHq.
  - by rewrite !filter_cons_False by (simpl; by rewrite Hq).
Qed.

Lemma unmapped_in_goal_length (g : GoalConfig.t) (qs : list QuestionConfig.t) :
  length (filter (λ p : GoalConfig.t * QuestionConfig.t,
                    has_no_metrics p.2 = true)
            ((λ question, (g, question)) <$> qs))
  = length (filter (λ q, has_no_metrics q = true) qs).
Proof. by rewrite unmapped_in_goal, length_fmap. Qed.

Lemma collect_outer goals acc n :
  foldl
    (λ acc goal,
       foldl
         (λ acc question,
            if has_no_metrics question
            then (acc.1 ++ [QuestionData.make acc.2
                              (GoalConfig.name goal) (GoalConfig.weight goal)
                              (QuestionConfig.text question)
                              (QuestionConfig.weight question)],
                  S acc.2)
            else acc)
         acc (GoalConfig.questions goal))
    (acc, n) goals
  = (acc ++ imap (λ i p,
                    QuestionData.make (n + i)%nat
                      (GoalConfig.name p.1) (GoalConfig.weight p.1)
                      (QuestionConfig.text p.2)
                      (QuestionConfig.weight p.2))
              (unmapped_questions (EvaluationConfig.make goals)),
     (n + length (unmapped_questions (EvaluationConfig.make goals)))%nat).
Proof.
  unfold unmapped_questions, placed_questions. simpl.
  revert acc n. induction goals as [|g gs IH]; intros acc n; simpl.
  - by rewrite app_nil_r, Nat.add_0_r.
  - rewrite collect_inner, IH.
    rewrite filter_app, imap_app, length_app, <-app_assoc.
    rewrite unmapped_in_goal, imap_fmap, !length_fmap. f_equal.
    + do 2 f_equal. apply imap_ext. intros i x _. simpl. f_equal. lia.
    + symmetry. apply Nat.add_assoc.
Qed.

Lemma collect_questions_data_closed_form config :
  _collect_questions_data config
  = imap (λ i p,
            QuestionData.make i
              (GoalConfig.name p.1) (GoalConfig.weight p.1)
              (QuestionConfig.text p.2) (QuestionConfig.weight p.2))
      (unmapped_questions config).
Proof.
  unfold _collect_questions_data. rewrite collect_outer. by destruct config.
Qed.

Lemma apply_to_questions_spec mappings goal questions n :
  let r := apply_to_questions mappings n questions in
  r.2 = (n + length (filter (λ q, has_no_metrics q = true) questions))%nat ∧
  length r.1 = length questions ∧
  Forall2 (λ q q',
             QuestionConfig.text q' = QuestionConfig.text q ∧
             QuestionConfig.weight q' = QuestionConfig.weight q ∧
             (has_no_metrics q = false → q' = q))
          questions r.1 ∧
  filter (λ p : (GoalConfig.t * QuestionConfig.t) * QuestionConfig.t,
            has_no_metrics p.1.2 = true)
         (zip ((λ question, (goal, question)) <$> questions) r.1)
  = imap (λ i p,
            (p, QuestionConfig.make (QuestionConfig.text p.2)
                  (QuestionConfig.weight p.2)
                  (default [] (mappings !! (n + i)%nat))))
      (filter (λ p, has_no_metrics p.2 = true)
         ((λ question, (goal, question)) <$> questions)).
Proof.
  revert n. induction questions as [|q qs IH]; intros n; simpl.
  - split_and!; [lia|done|constructor|done].
  - specialize (IH (if has_no_metrics q then S n else n)).
    destruct (has_no_metrics q) eqn:Hq; simpl in *;
      destruct IH as (IH1 & IH2 & IH3 & IH4).
    + rewrite !filter_cons_True by done. simpl.
      split_and!; [lia|lia| |].
      * constructor; [|done]. simpl. split_and!; [done|done|].
        by rewrite Hq.
      * rewrite Nat.add_0_r. f_equal. etrans; [exact IH4|].
        apply imap_ext. intros i x _. simpl. by rewrite Nat.add_succ_r.
    + rewrite !filter_cons_False by (simpl; by rewrite Hq).
      split_and!; [lia|lia| |done].
      constructor; [|done]. done.
Qed.

Lemma apply_to_goals_spec mappings goals n :
  let r := apply_to_goals mappings n goals in
  r.2 = (n + length (unmapped_questions (EvaluationConfig.make goals)))%nat ∧
  Forall2 (λ g g',
             GoalConfig.name g' = GoalConfig.name g ∧
             GoalConfig.weight g' = GoalConfig.weight g ∧
             Forall2 (λ q q',
                        QuestionConfig.text q' = QuestionConfig.text q ∧
                        QuestionConfig.weight q' = QuestionConfig.weight q ∧
                        (has_no_metrics q = false → q' = q))
                     (GoalConfig.questions g) (GoalConfig.questions g'))
          goals r.1 ∧
  filter (λ p : (GoalConfig.t * QuestionConfig.t) * QuestionConfig.t,
            has_no_metrics p.1.2 = true)
         (zip (placed_questions (EvaluationConfig.make goals))
              (all_questions (EvaluationConfig.make r.1)))
  = imap (λ i p,
            (p, QuestionConfig.make (QuestionConfig.text p.2)
                  (QuestionConfig.weight p.2)
                  (default [] (mappings !! (n + i)%nat))))
      (unmapped_questions (EvaluationConfig.make goals)).
Proof.
  unfold unmapped_questions, placed_questions, all_questions.
  cbn [EvaluationConfig.goals].
  revert n. induction goals as [|g gs IH]; intros n.
  - simpl. split_and!; [lia|constructor|done].
  - destruct (apply_to_questions_spec mappings g (GoalConfig.questions g) n)
      as (Q1 & Q2 & Q3 & Q4).
    cbn [apply_to_goals fst snd].
    specialize (IH (apply_to_questions mappings n (GoalConfig.questions g)).2).
    destruct IH as (IH1 & IH2 & IH3).
    rewrite !bind_cons. cbn [GoalConfig.questions].
    rewrite filter_app, length_app, imap_app.
    split_and!.
    + rewrite IH1, Q1.
      rewrite unmapped_in_goal_length. lia.
    + constructor; [|exact IH2]. done.
    + rewrite zip_with_app by (by rewrite length_fmap, Q2).
      rewrite filter_app. f_equal; [exact Q4|].
      etrans; [exact IH3|]. apply imap_ext. intros i x _. simpl.
      rewrite Q1. do 4 f_equal.
      rewrite unmapped_in_goal_length. lia.
Qed.

Lemma apply_to_questions_fixed mappings questions n :
  (∀ i, (i < length (filter (λ q, has_no_metrics q = true) questions))%nat →
        default [] (mappings !! (n + i)%nat) = []) →
  (apply_to_questions mappings n questions).1 = questions.
Proof.
  revert n. induction questions as [|q qs IH]; intros n Hm; [done|].
  cbn [apply_to_questions]. destruct (has_no_metrics q) eqn:Hq.
  - rewrite filter_cons_True in Hm by done. cbn [fst]. f_equal.
    + specialize (Hm 0%nat ltac:(simpl; lia)). rewrite Nat.add_0_r in Hm.
      rewrite Hm. destruct q as [t w ms]. unfold has_no_metrics in Hq.
      simpl in *. by destruct ms.
    + apply IH. intros i Hi. specialize (Hm (S i) ltac:(simpl; lia)).
      by rewrite Nat.add_succ_r in Hm.
  - rewrite filter_cons_False in Hm by (by rewrite Hq). cbn [fst]. f_equal.
    by apply IH.
Qed.

Lemma apply_to_goals_fixed mappings goals n :
  (∀ i, (i < length (unmapped_questions (EvaluationConfig.make goals)))%nat →
        default [] (mappings !! (n + i)%nat) = []) →
  (apply_to_goals mappings n goals).1 = goals.
Proof.
  unfold unmapped_questions, placed_questions. cbn [EvaluationConfig.goals].
  revert n. induction goals as [|g gs IH]; intros n Hm; [done|].
  rewrite bind_cons, filter_app, length_app, unmapped_in_goal_length in Hm.
  destruct (apply_to_questions_spec mappings g (GoalConfig.questions g) n)
    as (Q1 & _).
  cbn [apply_to_goals fst]. f_equal.
  - rewrite apply_to_questions_fixed; [by destruct g|].
    intros i Hi. apply Hm. lia.
  - apply IH. intros i Hi. rewrite Q1, <-Nat.add_assoc. apply Hm. lia.
Qed.

Lemma apply_to_questions_served mappings questions n :
  (∀ i, (i < length (filter (λ q, has_no_metrics q = true) questions))%nat →
        default [] (mappings !! (n + i)%nat) ≠ []) →
  Forall (λ q, has_no_metrics q = false)
         (apply_to_questions mappings n questions).1.
Proof.
  revert n. induction questions as [|q qs IH]; intros n Hm; [constructor|].
  cbn [apply_to_questions]. destruct (has_no_metrics q) eqn:Hq.
  - rewrite filter_cons_True in Hm by done. cbn [fst]. constructor.
    + specialize (Hm 0%nat ltac:(simpl; lia)). rewrite Nat.add_0_r in Hm.
      unfold has_no_metrics. simpl.
      by destruct (default [] (mappings !! n)).
    + apply IH. intros i Hi. specialize (Hm (S i) ltac:(simpl; lia)).
      by rewrite Nat.add_succ_r in Hm.
  - rewrite filter_cons_False in Hm by (by rewrite Hq). cbn [fst].
    constructor; [done|]. by apply IH.
Qed.

Lemma apply_to_goals_served mappings goals n :
  (∀ i, (i < length (unmapped_questions (EvaluationConfig.make goals)))%nat →
        default [] (mappings !! (n + i)%nat) ≠ []) →
  Forall (λ g, Forall (λ q, has_no_metrics q = false) (GoalConfig.questions g))
         (apply_to_goals mappings n goals).1.
Proof.
  unfold unmapped_questions, placed_questions. cbn [EvaluationConfig.goals].
  revert n. induction goals as [|g gs IH]; intros n Hm; [constructor|].
  rewrite bind_cons, filter_app, length_app, unmapped_in_goal_length in Hm.
  destruct (apply_to_questions_spec mappings g (GoalConfig.questions g) n)
    as (Q1 & _).
  cbn [apply_to_goals fst]. constructor.
  - cbn [GoalConfig.questions]. apply apply_to_questions_served.
    intros i Hi. apply Hm. lia.
  - apply IH. intros i Hi. rewrite Q1, <-Nat.add_assoc. apply Hm. lia.
Qed.

Lemma some_question_without_metrics_false config :
  some_question_without_metrics config = false
  ↔ Forall (λ g, Forall (λ q, has_no_metrics q = false)
                   (GoalConfig.questions g))
      (EvaluationConfig.goals config).
Proof.
  unfold some_question_without_metrics.
  induction (EvaluationConfig.goals config) as [|g gs IH]; simpl.
  - split; [constructor|done].
  - rewrite orb_false_iff, IH, Forall_cons. apply and_iff_compat_r.
    induction (GoalConfig.questions g) as [|q qs IHq]; simpl.
    + split; [constructor|done].
    + rewrite orb_false_iff, IHq, Forall_cons. done.
Qed.

Lemma unmapped_questions_nil config :
  unmapped_questions config = []
  ↔ Forall (λ g, Forall (λ q, has_no_metrics q = false)
                   (GoalConfig.questions g))
      (EvaluationConfig.goals config).
Proof.
  unfold unmapped_questions, placed_questions.
  induction (EvaluationConfig.goals config) as [|g gs IH].
  - split; [constructor|done].
  - rewrite bind_cons, filter_app, Forall_cons, <-IH, unmapped_in_goal.
    split.
    + intros [Hg ->]%app_eq_nil. split; [|done].
      apply fmap_nil_inv in Hg.
      induction (GoalConfig.questions g) as [|q qs IHq]; [constructor|].
      destruct (has_no_metrics q) eqn:Hq.
      * by rewrite filter_cons_True in Hg.
      * rewrite filter_cons_False in Hg by (by rewrite Hq).
        constructor; auto.
    + intros [Hg ->]. rewrite app_nil_r.
      induction Hg as [|q qs Hq _ IHq]; [done|].
      by rewrite filter_cons_False by (by rewrite Hq).
Qed.

(** X14. [_collect_questions_data] and [_apply_mappings_to_config] number
    the questions alike: the [i]-th question without metrics, counted
    through the goals in order, is recorded with id [i] under its goal's
    name and weight, and it is the question that is given
    [mappings.get(i, {})], its text and weight unchanged. *)
Theorem X14_mapper_numbers_questions_consistently config mappings :
  _collect_questions_data config
  = imap (λ i p,
            QuestionData.make i
              (GoalConfig.name p.1) (GoalConfig.weight p.1)
              (QuestionConfig.text p.2) (QuestionConfig.weight p.2))
      (unmapped_questions config) ∧
  filter (λ p : (GoalConfig.t * QuestionConfig.t) * QuestionConfig.t,
            has_no_metrics p.1.2 = true)
         (zip (placed_questions config)
              (all_questions (_apply_mappings_to_config config mappings)))
  = imap (λ i p,
            (p, QuestionConfig.make (QuestionConfig.text p.2)
                  (QuestionConfig.weight p.2)
                  (default [] (mappings !! i))))
      (unmapped_questions config).
Proof.
  split; [apply collect_questions_data_closed_form|].
  destruct config as [goals].
  destruct (apply_to_goals_spec mappings goals 0) as (_ & _ & Hz).
  exact Hz.
Qed.

(** X15. [_apply_mappings_to_config] keeps the shape of the
    configuration: the goals keep their names, weights and number of
    questions, every question keeps its text and weight, and a question
    that names metrics is left exactly as it is.  Where no question without
    metrics is given a non-empty mapping (in particular with the empty
    mappings that a failed parse returns), the configuration is
    unchanged. *)
Theorem X15_apply_mappings_keeps_the_configuration config mappings :
  Forall2 (λ g g',
             GoalConfig.name g' = GoalConfig.name g ∧
             GoalConfig.weight g' = GoalConfig.weight g ∧
             Forall2 (λ q q',
                        QuestionConfig.text q' = QuestionConfig.text q ∧
                        QuestionConfig.weight q' = QuestionConfig.weight q ∧
                        (QuestionConfig.metrics q ≠ [] → q' = q))
                     (GoalConfig.questions g) (GoalConfig.questions g'))
          (EvaluationConfig.goals config)
          (EvaluationConfig.goals (_apply_mappings_to_config config mappings)) ∧
  ((∀ i, (i < length (_collect_questions_data config))%nat →
         default [] (mappings !! i) = []) →
   _apply_mappings_to_config config mappings = config) ∧
  _apply_mappings_to_config config ∅ = config.
Proof.
  destruct config as [goals]. unfold _apply_mappings_to_config.
  cbn [EvaluationConfig.goals].
  assert (Hfix : ∀ m,
    (∀ i, (i < length (unmapped_questions (EvaluationConfig.make goals)))%nat →
          default [] (m !! i) = []) →
    EvaluationConfig.make (apply_to_goals m 0 goals).1
    = EvaluationConfig.make goals).
  { intros m Hm. by rewrite apply_to_goals_fixed. }
  split_and!.
  - destruct (apply_to_goals_spec mappings goals 0) as (_ & HF & _).
    eapply Forall2_impl; [exact HF|]. intros g g' (? & ? & Hq).
    split_and!; [done..|]. eapply Forall2_impl; [exact Hq|].
    intros q q' (? & ? & Hm). split_and!; [done..|]. intros Hne. apply Hm.
    unfold has_no_metrics. by destruct (QuestionConfig.metrics q).
  - intros Hm. apply Hfix. intros i Hi. apply Hm.
    by rewrite collect_questions_data_closed_form, length_imap.
  - apply Hfix. intros i _. by rewrite lookup_empty.
Qed.

(** X16.  [_needs_metric_mapping] raises exactly when its [get_config()]
    raises, with the same exception (the [ValueError] of an environment
    that does not validate while no configuration is stored yet); with a
    stored configuration it never raises.  When [get_config()] returns,
    the answer is [True] exactly when [use_metric_mapper] is on and
    [_collect_questions_data] finds a question to map, and the method logs
    its one line only when the mapper is off.  Once
    [_apply_mappings_to_config] has given every collected question a
    non-empty mapping, nothing is left to collect and the answer is
    [False]. *)
Theorem X16_needs_mapping_until_every_question_is_served
    env_path file_exists environ config mappings
    (stored : option config_py.Config.t) (log : list (level * string)) :
  let needs c :=
    _needs_metric_mapping env_path file_exists environ c (stored, log) in
  let loaded :=
    config_py.get_config env_path file_exists environ (stored, log) in
  let answer app_config (c : EvaluationConfig.t) :=
    (Ok (config_py.Config.use_metric_mapper app_config
         && bool_decide (_collect_questions_data c ≠ [])),
     (loaded.2.1,
      loaded.2.2
      ++ if config_py.Config.use_metric_mapper app_config then []
         else [(INFO,
                "Metric mapping is disabled via environment configuration")]))
  in
  (∀ e, loaded.1 = Raise e → needs config = (Raise e, loaded.2))
  ∧ (∀ app_config, loaded.1 = Ok app_config →
       needs config = answer app_config config)
  ∧ (∀ app_config, stored = Some app_config →
       loaded = (Ok app_config, (stored, log)))
  ∧ ((∀ i, (i < length (_collect_questions_data config))%nat →
           default [] (mappings !! i) ≠ []) →
     _collect_questions_data (_apply_mappings_to_config config mappings) = []
     ∧ ∀ app_config, loaded.1 = Ok app_config →
         (needs (_apply_mappings_to_config config mappings)).1 = Ok false).
Proof.
  intros needs loaded answer.
  assert (Hneeds : ∀ c : EvaluationConfig.t,
            some_question_without_metrics c
            = bool_decide (_collect_questions_data c ≠ [])).
  { intros c. rewrite collect_questions_data_closed_form.
    destruct (some_question_without_metrics c) eqn:Hs; symmetry.
    - apply bool_decide_eq_true. intros Hnil.
      apply (f_equal length) in Hnil. rewrite length_imap in Hnil.
      apply nil_length_inv, unmapped_questions_nil,
        some_question_without_metrics_false in Hnil. congruence.
    - apply bool_decide_eq_false. intros Hne. apply Hne.
      apply some_question_without_metrics_false, unmapped_questions_nil in Hs.
      by rewrite Hs. }
  assert (Hrun : ∀ app_config (c : EvaluationConfig.t),
            loaded.1 = Ok app_config → needs c = answer app_config c).
  { intros app_config c Hloaded. unfold needs, answer, _needs_metric_mapping.
    unfold sbind at 1. fold loaded.
    destruct loaded as [[app_config'|e] [stored' log']]; [|done].
    injection Hloaded as ->. cbn [fst snd].
    destruct (config_py.Config.use_metric_mapper app_config); simpl.
    - unfold sret. by rewrite Hneeds, app_nil_r.
    - done. }
  split_and!.
  - intros e Hloaded. unfold needs, _needs_metric_mapping.
    unfold sbind at 1. fold loaded.
    destruct loaded as [[app_config|e'] st]; [done|].
    by injection Hloaded as ->.
  - intros app_config. apply Hrun.
  - by intros app_config ->.
  - intros Hm.
    assert (Hnil : _collect_questions_data
                     (_apply_mappings_to_config config mappings) = []).
    { rewrite collect_questions_data_closed_form.
      replace (unmapped_questions (_apply_mappings_to_config config mappings))
        with (@nil (GoalConfig.t * QuestionConfig.t)); [done|].
      symmetry. apply unmapped_questions_nil.
      unfold _apply_mappings_to_config. cbn [EvaluationConfig.goals].
      apply apply_to_goals_served. intros i Hi. apply Hm.
      rewrite collect_questions_data_closed_form, length_imap.
      by destruct config. }
    split; [done|]. intros app_config Hloaded.
    rewrite (Hrun _ _ Hloaded). unfold answer. rewrite Hnil. simpl.
    by rewrite andb_false_r.
Qed.

(** *** Test case generation *)

Lemma QuestionType_of_value_Ok s t :
  QuestionType_of_value s = Ok t ↔ QuestionType_value t = s.
Proof.
  split.
  - unfold QuestionType_of_value.
    destruct (list_find _ _) as [[i t']|] eqn:Hfind; [|done].
    intros [= ->]. by apply list_find_Some in Hfind as (_ & ? & _).
  - intros <-. by destruct t.
Qed.

Lemma QuestionType_of_value_Raise s e :
  QuestionType_of_value s = Raise e
  ↔ e = ValueError ∧ s ∉ QuestionType_value <$> QuestionType_members.
Proof.
  split.
  - intros Hraise. split.
    + unfold QuestionType_of_value in Hraise.
      destruct (list_find _ _) as [[i t']|]; congruence.
    + intros (t & -> & _)%list_elem_of_fmap.
      by rewrite (proj2 (QuestionType_of_value_Ok _ t) eq_refl) in Hraise.
  - intros [-> Hs]. destruct (QuestionType_of_value s) as [t|e] eqn:Hq.
    + apply QuestionType_of_value_Ok in Hq as <-. destruct Hs.
      apply list_elem_of_fmap. exists t. split; [done|].
      destruct t; apply (bool_decide_unpack _); by vm_compute.
    + unfold QuestionType_of_value in Hq.
      destruct (list_find _ _) as [[i t']|]; congruence.
Qed.

Lemma dict_set_fresh {K V} `{EqDecision K} (d : list (K * V)) k v :
  k ∉ d.*1 → dict_set d k v = d ++ [(k, v)].
Proof.
  induction d as [|[k' v'] d IH]; [done|]. simpl.
  rewrite not_elem_of_cons. intros [Hne Hd].
  destruct (decide (k' = k)); [congruence|]. by rewrite IH.
Qed.

Lemma requested_types_nil test_case_generation :
  requested_types test_case_generation = []
  ↔ Forall (λ name, name ∉ QuestionType_value <$> QuestionType_members)
      test_case_generation.*1.
Proof.
  unfold requested_types.
  induction test_case_generation as [|[name params] rest IH].
  - split; [constructor|done].
  - rewrite fmap_cons, Forall_cons. cbn [omap list_omap fst snd].
    destruct (QuestionType_of_value name) as [t|e] eqn:Hq.
    + split; [done|]. intros [Hn _]. destruct Hn.
      apply QuestionType_of_value_Ok in Hq as <-.
      apply list_elem_of_fmap. exists t. split; [done|].
      destruct t; apply (bool_decide_unpack _); by vm_compute.
    + apply QuestionType_of_value_Raise in Hq as [_ Hunknown].
      rewrite IH. tauto.
Qed.

Section GenerateTestCasesProperties.
Context {W : Type}.
Variable generate_questions :
  list QuestionType → list (QuestionType * json) → bool →
  W → result (list TestCase.t) * W.

Lemma sort_question_types test_case_generation acc w log :
  acc.2.*1 = acc.1 →
  NoDup test_case_generation.*1 →
  (∀ t, t ∈ acc.1 → QuestionType_value t ∉ test_case_generation.*1) →
  sfor_each (W := W) test_case_generation
    (λ item acc,
       match QuestionType_of_value item.1 with
       | Ok question_type =>
           sret (acc.1 ++ [question_type],
                 dict_set acc.2 question_type
                   (default (JNum 1) (Py.get item.2 "count")))
       | Raise _ =>
           sbind (slog WARNING ("Unknown question type: " +:+ item.1))
                 (λ _, sret acc)
       end)
    acc (w, log)
  = (Ok (acc.1 ++ (requested_types test_case_generation).*1,
         acc.2 ++ requested_types test_case_generation),
     (w, log ++ ((λ name, (WARNING, "Unknown question type: " +:+ name))
                   <$> unknown_types test_case_generation))).
Proof.
  unfold unknown_types.
  revert acc log.
  induction test_case_generation as [|[name params] rest IH];
    intros [ts cs] log Hkeys Hnodup Hfresh.
  - simpl. unfold sret. by rewrite !app_nil_r.
  - rewrite fmap_cons in Hnodup. apply NoDup_cons in Hnodup as [Hname Hrest].
    cbn [fst snd] in *.
    cbn [sfor_each requested_types omap list_omap fst snd fmap list_fmap].
    unfold sbind at 1.
    destruct (QuestionType_of_value name) as [t|e] eqn:Hq.
    + unfold sret at 1.
      apply QuestionType_of_value_Ok in Hq as Hv.
      rewrite filter_cons_False.
      2:{ intros Hn. apply Hn, list_elem_of_fmap. exists t. split; [done|].
          destruct t; apply (bool_decide_unpack _); by vm_compute. }
      rewrite IH; cbn [fst snd].
      * rewrite dict_set_fresh.
        2:{ rewrite Hkeys. intros Ht. apply (Hfresh _ Ht). rewrite Hv.
            rewrite fmap_cons. apply list_elem_of_here. }
        unfold requested_types. by rewrite <-!app_assoc.
      * rewrite dict_set_fresh.
        2:{ rewrite Hkeys. intros Ht. apply (Hfresh _ Ht). rewrite Hv.
            rewrite fmap_cons. apply list_elem_of_here. }
        by rewrite !fmap_app, Hkeys.
      * done.
      * intros t' [Ht'| ->%list_elem_of_singleton]%elem_of_app.
        -- specialize (Hfresh _ Ht'). rewrite fmap_cons in Hfresh.
           by apply not_elem_of_cons in Hfresh as [_ ?].
        -- by rewrite Hv.
    + apply QuestionType_of_value_Raise in Hq as [-> Hunknown].
      rewrite filter_cons_True by done.
      unfold sbind at 1, slog at 1, sret at 1. cbn [fst snd].
      rewrite IH; cbn [fst snd]; [|done|done|].
      * rewrite fmap_cons, <-app_assoc. done.
      * intros t' Ht'. specialize (Hfresh _ Ht'). rewrite fmap_cons in Hfresh.
        by apply not_elem_of_cons in Hfresh as [_ ?].
Qed.

(** X17. [generate_test_cases], for a [test_case_generation] dict (its
    keys are distinct): it logs its opening line and one warning for each
    key that is no question type, in the order of the dict.  If no key is
    a question type it raises [ValueError] and the generator is not
    called.  Otherwise the generator is called once, with the question
    types the keys name in the order of the dict, with each one's [count]
    (1 where the parameters give none) and with the caller's
    [force_regenerate], and its outcome is returned as it is. *)
Theorem X17_generate_test_cases_sorts_question_types
    test_case_generation force_regenerate w log :
  NoDup test_case_generation.*1 →
  let requested := requested_types test_case_generation in
  let lines :=
    log ++ (INFO, "Generating test cases")
        :: ((λ name, (WARNING, "Unknown question type: " +:+ name))
              <$> unknown_types test_case_generation) in
  let out :=
    generate_test_cases generate_questions test_case_generation
      force_regenerate (w, log) in
  (requested = [] ↔
   Forall (λ name, name ∉ QuestionType_value <$> QuestionType_members)
          test_case_generation.*1) ∧
  (requested = [] → out = (Raise ValueError, (w, lines))) ∧
  (requested ≠ [] →
   out = ((generate_questions requested.*1 requested force_regenerate w).1,
          ((generate_questions requested.*1 requested force_regenerate w).2,
           lines))).
Proof.
  intros Hnodup requested lines out.
  assert (Hout : out
    = match requested.*1 with
      | [] => (Raise ValueError, (w, lines))
      | _ =>
        ((generate_questions requested.*1 requested force_regenerate w).1,
         ((generate_questions requested.*1 requested force_regenerate w).2,
          lines))
      end).
  { unfold out, generate_test_cases.
    unfold sbind at 1, slog at 1. cbn [fst snd].
    unfold sbind at 1.
    rewrite (sort_question_types test_case_generation ([], []));
      [|done|done|by intros t ?%elem_of_nil].
    cbn [fst snd app]. fold requested.
    unfold lines. rewrite <-app_assoc. cbn [app].
    destruct (requested.*1); [done|].
    unfold scall. cbn [fst snd]. by destruct (generate_questions _ _ _ _). }
  split_and!.
  - apply requested_types_nil.
  - intros Hnil. by rewrite Hout, Hnil.
  - intros Hne. rewrite Hout. by destruct requested.
Qed.

End GenerateTestCasesProperties.

(** *** The environment configuration *)

Lemma is_set_truthy (environ : gmap string string) (key : string) :
  is_set environ key ↔ opt_truthy (environ !! key) = true.
Proof.
  unfold is_set. destruct (environ !! key) as [[|c v]|]; simpl.
  - split; [by intros (? & [= <-] & ?)|done].
  - split; [done|]. intros _. by eexists.
  - split; [by intros (? & ? & ?)|done].
Qed.

Lemma load_outcome env_path (file_exists : bool) (environ : gmap string string)
    {W} (w : W) log :
  let opening :=
    [(INFO, "Loading environment variables from " +:+ env_path);
     (INFO, "Environment file exists: "
            +:+ (if file_exists then "True" else "False"))] in
  let config :=
    config_py.Config.make
      (environ !! "PINECONE_API_KEY")
      (environ !! "GEMINI_API_KEY")
      (environ !! "VOYAGE_API_KEY")
      (default "voyage-3-large" (environ !! "VOYAGE_MODEL"))
      (default "gemini-2.5-flash" (environ !! "GEMINI_MODEL"))
      (default "roberta-large" (environ !! "BERTSCORE_MODEL"))
      (default "questions" (environ !! "QUESTION_CACHE_DIR"))
      (default "evaluation_results" (environ !! "OUTPUT_DIR"))
      (environ !! "PINECONE_INDEX_NAME")
      (config_py.ConfigLoader._get_bool_env environ
         "RETURN_DETAILED_RESULTS" false)
      (config_py.ConfigLoader._get_bool_env environ "USE_METRIC_MAPPER" false)
      (config_py.ConfigLoader._get_bool_env environ
         "TOKENIZERS_PARALLELISM" false) in
  config_py.ConfigLoader.load env_path file_exists environ (w, log)
  = match config_py.Config.validate config with
    | Ok _ =>
        (Ok config,
         (w, log ++ opening
               ++ [(INFO, "Environment variables loaded successfully")]))
    | Raise e => (Raise e, (w, log ++ opening))
    end.
Proof.
  intros opening config. unfold config_py.ConfigLoader.load.
  fold config. unfold sbind, slog, slift, sret. cbn [fst snd].
  destruct (config_py.Config.validate config); unfold opening;
    by rewrite <-!app_assoc.
Qed.

Lemma validate_Ok (c : config_py.Config.t) :
  config_py.Config.validate c = Ok ()
  ↔ opt_truthy (config_py.Config.pinecone_api_key c) = true
    ∧ str_truthy (config_py.Config.gemini_model c) = true
    ∧ opt_truthy (config_py.Config.gemini_api_key c) = true
    ∧ opt_truthy (config_py.Config.pinecone_index_name c) = true.
Proof.
  unfold config_py.Config.validate, config_py.Config.errors.
  destruct (opt_truthy (config_py.Config.pinecone_api_key c)),
    (str_truthy (config_py.Config.gemini_model c)),
    (opt_truthy (config_py.Config.gemini_api_key c)),
    (opt_truthy (config_py.Config.pinecone_index_name c)); simpl;
    intuition congruence.
Qed.

Lemma validate_Raise (c : config_py.Config.t) e :
  config_py.Config.validate c = Raise e → e = ValueError.
Proof.
  unfold config_py.Config.validate.
  destruct (config_py.Config.errors c); congruence.
Qed.

(** X18. [ConfigLoader.load] returns a configuration exactly when the
    environment sets [PINECONE_API_KEY], [GEMINI_API_KEY] and
    [PINECONE_INDEX_NAME] to non-empty strings and does not set
    [GEMINI_MODEL] to the empty string; [VOYAGE_API_KEY] is never asked
    for.  The configuration it returns passes [validate], carries the
    three settings as the environment has them, and its two framework
    flags are on exactly when the variable is set to one of [true], [1],
    [t], [yes], [on] in any capitalisation.  In every other environment
    [load] raises [ValueError] and does not log its closing line. *)
Theorem X18_load_requires_the_four_settings
    env_path (file_exists : bool) (environ : gmap string string)
    (log : list (level * string)) :
  let out :=
    config_py.ConfigLoader.load (W := ()) env_path file_exists environ
      ((), log) in
  let opening :=
    [(INFO, "Loading environment variables from " +:+ env_path);
     (INFO, "Environment file exists: "
            +:+ (if file_exists then "True" else "False"))] in
  let complete :=
    is_set environ "PINECONE_API_KEY"
    ∧ is_set environ "GEMINI_API_KEY"
    ∧ is_set environ "PINECONE_INDEX_NAME"
    ∧ environ !! "GEMINI_MODEL" ≠ Some EmptyString in
  let on key :=
    ∃ value, environ !! key = Some value
             ∧ str_lower value ∈ ["true"; "1"; "t"; "yes"; "on"] in
  (complete ↔ ∃ c, out.1 = Ok c)
  ∧ (∀ c, out.1 = Ok c →
       config_py.Config.validate c = Ok ()
       ∧ config_py.Config.pinecone_api_key c = environ !! "PINECONE_API_KEY"
       ∧ config_py.Config.gemini_api_key c = environ !! "GEMINI_API_KEY"
       ∧ config_py.Config.pinecone_index_name c
         = environ !! "PINECONE_INDEX_NAME"
       ∧ (Config.return_detailed_results (framework_config c) = true
          ↔ on "RETURN_DETAILED_RESULTS")
       ∧ (Config.use_metric_mapper (framework_config c) = true
          ↔ on "USE_METRIC_MAPPER")
       ∧ out.2.2
         = log ++ opening
             ++ [(INFO, "Environment variables loaded successfully")])
  ∧ (∀ e, out.1 = Raise e → e = ValueError ∧ out.2.2 = log ++ opening).
Proof.
  intros out opening complete on.
  assert (Hon : ∀ key,
            config_py.ConfigLoader._get_bool_env environ key false = true
            ↔ on key).
  { intros key. unfold config_py.ConfigLoader._get_bool_env, on.
    destruct (environ !! key) as [v|].
    - rewrite bool_decide_eq_true. split; [by exists v|].
      by intros (? & [= <-] & ?).
    - split; [done|]. by intros (? & ? & ?). }
  assert (Hcomplete : complete
            ↔ ∃ u, config_py.Config.validate
                     (config_py.Config.make
                        (environ !! "PINECONE_API_KEY")
                        (environ !! "GEMINI_API_KEY")
                        (environ !! "VOYAGE_API_KEY")
                        (default "voyage-3-large" (environ !! "VOYAGE_MODEL"))
                        (default "gemini-2.5-flash"
                           (environ !! "GEMINI_MODEL"))
                        (default "roberta-large"
                           (environ !! "BERTSCORE_MODEL"))
                        (default "questions"
                           (environ !! "QUESTION_CACHE_DIR"))
                        (default "evaluation_results"
                           (environ !! "OUTPUT_DIR"))
                        (environ !! "PINECONE_INDEX_NAME")
                        (config_py.ConfigLoader._get_bool_env environ
                           "RETURN_DETAILED_RESULTS" false)
                        (config_py.ConfigLoader._get_bool_env environ
                           "USE_METRIC_MAPPER" false)
                        (config_py.ConfigLoader._get_bool_env environ
                           "TOKENIZERS_PARALLELISM" false))
                   = Ok u).
  { unfold complete. rewrite !is_set_truthy. split.
    - intros (? & ? & ? & Hm). exists (). apply validate_Ok. simpl.
      split_and!; [done| |done|done].
      destruct (environ !! "GEMINI_MODEL") as [[|]|]; done.
    - intros [[] (? & Hm & ? & ?)%validate_Ok]. simpl in *.
      split_and!; [done..|]. intros Heq. by rewrite Heq in Hm. }
  unfold out. rewrite load_outcome. cbv zeta.
  destruct (config_py.Config.validate _) as [[]|e] eqn:Hv.
  - cbn [fst snd]. split_and!.
    + rewrite Hcomplete. split; [by eexists|by exists ()].
    + intros c [= <-]. split_and!; [done..| | |done].
      * apply Hon.
      * apply Hon.
    + by intros e.
  - cbn [fst snd]. split_and!.
    + rewrite Hcomplete. split; [by intros [? ?]|by intros [? ?]].
    + by intros c.
    + intros e' [= <-]. split; [|done]. by apply validate_Raise in Hv.
Qed.

Lemma get_config_stored env_path file_exists environ stored
    (log : list (level * string)) :
  config_py.get_config env_path file_exists environ (Some stored, log)
  = (Ok stored, (Some stored, log)).
Proof. reflexivity. Qed.

Lemma get_config_empty env_path (file_exists : bool)
    (environ : gmap string string) (log : list (level * string)) :
  (∃ c, config_py.get_config env_path file_exists environ (None, log)
        = (Ok c, (Some c,
                  (config_py.get_config env_path file_exists environ
                     (None, log)).2.2))
        ∧ config_py.Config.validate c = Ok ())
  ∨ (config_py.get_config env_path file_exists environ (None, log)
     = (Raise ValueError,
        (None, (config_py.get_config env_path file_exists environ
                  (None, log)).2.2))).
Proof.
  unfold config_py.get_config, sbind, sget. cbn [fst snd].
  rewrite load_outcome. cbv zeta.
  destruct (config_py.Config.validate _) as [[]|e] eqn:Hv.
  - left. eexists. split; [reflexivity|exact Hv].
  - right. apply validate_Raise in Hv as ->. reflexivity.
Qed.

(** X19. [get_config] loads the environment once.  A call that finds the
    global [_config] empty either stores the configuration it returns,
    which passes [validate], or raises [ValueError] and leaves the global
    empty, so that the next call loads again.  A call that finds a
    configuration stored returns it without reading the environment and
    without logging: after one call has returned, every later call returns
    the same configuration, whatever the environment has become. *)
Theorem X19_get_config_loads_once
    env_path (file_exists : bool) (environ : gmap string string)
    (_config : option config_py.Config.t) (log : list (level * string)) :
  let out := config_py.get_config env_path file_exists environ (_config, log) in
  (∀ stored, _config = Some stored → out = (Ok stored, (Some stored, log)))
  ∧ (∀ c, out.1 = Ok c →
       out.2.1 = Some c
       ∧ (_config = None → config_py.Config.validate c = Ok ())
       ∧ ∀ env_path' (file_exists' : bool) environ' log',
           config_py.get_config env_path' file_exists' environ'
             (out.2.1, log')
           = (Ok c, (Some c, log')))
  ∧ (∀ e, out.1 = Raise e →
       e = ValueError ∧ _config = None ∧ out.2.1 = None).
Proof.
  intros out. unfold out. destruct _config as [stored|].
  - rewrite get_config_stored. cbn [fst snd]. split_and!.
    + by intros ? [= <-].
    + intros c [= <-]. split_and!; [done|done|].
      intros. apply get_config_stored.
    + by intros e.
  - destruct (get_config_empty env_path file_exists environ log)
      as [(c & -> & Hv)| ->]; cbn [fst snd]; split_and!.
    + by intros.
    + intros c' [= <-]. split_and!; [done|done|].
      intros. apply get_config_stored.
    + by intros e.
    + by intros.
    + by intros c.
    + by intros e [= <-].
Qed.

(** *** The question cache *)

Lemma substring_all s : String.substring 0 (String.length s) s = s.
Proof. induction s as [|c s IH]; [done|]. simpl. by rewrite IH. Qed.

Lemma length_string_app s t :
  String.length (s +:+ t) = (String.length s + String.length t)%nat.
Proof. induction s as [|c s IH]; [done|]. simpl. by rewrite IH. Qed.

Lemma string_app_assoc s t u : s +:+ (t +:+ u) = (s +:+ t) +:+ u.
Proof.
  induction s as [|c s IH]; [done|].
  change (String c (s +:+ (t +:+ u)) = String c ((s +:+ t) +:+ u)).
  by rewrite IH.
Qed.

Lemma ends_with_app s suffix : ends_with suffix (s +:+ suffix) = true.
Proof.
  unfold ends_with. rewrite length_string_app.
  apply andb_true_intro. split; [apply Nat.leb_le; lia|].
  apply String.eqb_eq.
  replace (String.length s + String.length suffix - String.length suffix)%nat
    with (String.length s) by lia.
  induction s as [|c s IH]; simpl; [apply substring_all|exact IH].
Qed.

Lemma test_case_of_item_of_test_case tc item :
  item_of_test_case tc = Some item →
  test_case_of_item item = inr (RawTestCase.__post_init__ tc).
Proof. destruct tc as [q g [v|t] e]; [|done]. by intros [= <-]. Qed.

Lemma test_cases_of_items_of_test_cases tcs items :
  mapM item_of_test_case tcs = Some items →
  test_cases_of_items items = inr (RawTestCase.__post_init__ <$> tcs).
Proof.
  revert items. induction tcs as [|tc tcs IH]; intros items.
  - by intros [= <-].
  - rewrite option_mapM_cons.
    destruct (item_of_test_case tc) as [item|] eqn:Hitem; [|done].
    destruct (mapM item_of_test_case tcs) as [rest|]; [|done].
    intros [= <-]. cbn [test_cases_of_items].
    by rewrite (test_case_of_item_of_test_case _ _ Hitem), (IH _ eq_refl).
Qed.

Lemma read_dumped tcs data :
  dumped tcs = Some data →
  read_test_cases (Some data) = inr (RawTestCase.__post_init__ <$> tcs).
Proof.
  unfold dumped.
  destruct (mapM item_of_test_case tcs) as [items|] eqn:Hitems; [|done].
  intros [= <-]. by apply test_cases_of_items_of_test_cases.
Qed.

Lemma dumped_plain tcs :
  Forall (λ tc, ∃ v, RawTestCase.question_type tc = Plain v) tcs →
  ∃ data, dumped tcs = Some data.
Proof.
  unfold dumped. induction 1 as [|tc tcs [v Hv] _ [data IH]]; [by eexists|].
  rewrite option_mapM_cons. destruct tc as [q g t e]. simpl in Hv. subst t.
  destruct (mapM item_of_test_case tcs); [|done]. by eexists.
Qed.

Lemma dumped_member tcs :
  Exists (λ tc, ∃ t, RawTestCase.question_type tc = Member t) tcs →
  dumped tcs = None.
Proof.
  unfold dumped. induction 1 as [tc tcs [t Ht]|tc tcs _ IH];
    rewrite option_mapM_cons.
  - destruct tc as [q g t' e]. simpl in Ht. by subst t'.
  - destruct (item_of_test_case tc); [|done].
    by destruct (mapM item_of_test_case tcs).
Qed.

Lemma post_init_constructed tc :
  RawTestCase.entities tc ≠ JNull → RawTestCase.__post_init__ tc = tc.
Proof. destruct tc as [q g t []]; by intros. Qed.

Lemma post_init_idempotent tc :
  RawTestCase.__post_init__ (RawTestCase.__post_init__ tc)
  = RawTestCase.__post_init__ tc.
Proof. by destruct tc as [q g t []]. Qed.

Lemma read_test_cases_reloaded content tcs :
  read_test_cases content = inr tcs →
  RawTestCase.__post_init__ <$> tcs = tcs
  ∧ Forall (λ tc, ∃ v, RawTestCase.question_type tc = Plain v) tcs.
Proof.
  unfold read_test_cases. destruct content as [data|]; [|done].
  destruct (iterate data) as [e|items]; [done|]. clear data.
  revert tcs. induction items as [|item items IH]; intros tcs.
  - by intros [= <-].
  - cbn [test_cases_of_items].
    destruct (test_case_of_item item) as [e|tc] eqn:Hitem; [done|].
    destruct (test_cases_of_items items) as [e|rest]; [done|].
    intros [= <-]. destruct (IH _ eq_refl) as [Hrest Hplain].
    assert (RawTestCase.__post_init__ tc = tc
            ∧ ∃ v, RawTestCase.question_type tc = Plain v) as [Htc Hv].
    { revert Hitem. unfold test_case_of_item.
      destruct item as [| | | | |fields]; try done.
      destruct (Py.get fields "question"); [|done].
      destruct (Py.get fields "ground_truth"); [|done].
      intros [= <-]. split; [apply post_init_idempotent|by eexists]. }
    split; [by rewrite fmap_cons, Htc, Hrest|by constructor].
Qed.

Section QuestionGeneratorProperties.
Context {X Doc : Type}.
Variable index_name : option string.
Variable config_hash : list string * list (string * Z) → string.
Variable can_open : string → X → bool.
Variable sample_documents : Z → X → result (list Doc) * X.
Variable _generate_all_questions :
  list Doc → list QuestionType → list (QuestionType * Z) →
  X → result (list RawTestCase.t) * X.

Lemma get_cached_questions_outcome gc (fs : gmap string (option json))
    (x : X) log :
  get_cached_questions index_name config_hash gc ((fs, x), log)
  = match fs !! _get_cache_filename index_name config_hash gc with
    | Some content =>
        match read_test_cases content with
        | inr test_cases =>
            (Ok (Some test_cases),
             ((fs, x),
              log ++ [(INFO, LoadedCachedTestCases (length test_cases)
                               (_get_cache_filename index_name config_hash
                                  gc))]))
        | inl e =>
            (Ok None, ((fs, x), log ++ [(ERROR, FailedToLoadCachedQuestions e)]))
        end
    | None => (Ok None, ((fs, x), log))
    end.
Proof.
  unfold get_cached_questions, sbind, sget. cbn [fst snd].
  destruct (fs !! _) as [content|]; [|done].
  by destruct (read_test_cases content).
Qed.

Lemma cache_questions_outcome tcs gc (fs : gmap string (option json))
    (x : X) log :
  let filename := _get_cache_filename index_name config_hash gc in
  cache_questions index_name config_hash can_open tcs gc ((fs, x), log)
  = (Ok (),
     if can_open filename x
     then ((<[filename := dumped tcs]> fs, x),
           log ++ [match dumped tcs with
                   | Some _ => (INFO, CachedTestCases (length tcs) filename)
                   | None => (ERROR, FailedToCacheQuestions NotSerializable)
                   end])
     else ((fs, x), log ++ [(ERROR, FailedToCacheQuestions CacheOSError)])).
Proof.
  intros filename. unfold cache_questions, sbind, sget, sput, slog.
  cbn [fst snd]. fold filename.
  destruct (can_open filename x); [|done]. by destruct (dumped tcs).
Qed.

(** X20.  [cache_questions] never raises and changes no file but the one
    of its generation configuration.  When the file can be opened and
    every test case holds a JSON value as its [question_type], what it
    writes, [get_cached_questions] reads back: a lookup for the
    configuration returns the test cases as [TestCase(...)] builds them
    from the file (the same ones, unless [entities] was [None]) and logs
    how many.  When one of them still holds a member of [QuestionType], as
    a [TestCase] built without a [question_type] does, [json.dump] fails
    in the middle of the file: the error is only logged, and the next
    lookup fails to load the file and returns [None], whatever the file
    held before.  When the file cannot be opened the directory stays as it
    is.  Lookups under another file name see what they saw before; after
    [clear_cache] the lookup finds nothing.  A lookup never raises and
    never changes a file, whatever the cache directory holds. *)
Theorem X20_question_cache_round_trip
    (fs : gmap string (option json)) (x : X) log tcs gc :
  let filename := _get_cache_filename index_name config_hash gc in
  let lookup := get_cached_questions (X := X) index_name config_hash in
  let run := cache_questions index_name config_hash can_open tcs gc
               ((fs, x), log) in
  let st1 := run.2 in
  run.1 = Ok ()
  ∧ st1.1.2 = x
  ∧ (∀ name, name ≠ filename → st1.1.1 !! name = fs !! name)
  ∧ (can_open filename x = true →
     Forall (λ tc, ∃ v, RawTestCase.question_type tc = Plain v) tcs →
     lookup gc st1
     = (Ok (Some (RawTestCase.__post_init__ <$> tcs)),
        (st1.1,
         st1.2 ++ [(INFO, LoadedCachedTestCases (length tcs) filename)]))
     ∧ (Forall (λ tc, RawTestCase.entities tc ≠ JNull) tcs →
        RawTestCase.__post_init__ <$> tcs = tcs))
  ∧ (can_open filename x = true →
     Exists (λ tc, ∃ t, RawTestCase.question_type tc = Member t) tcs →
     (ERROR, FailedToCacheQuestions NotSerializable) ∈ st1.2
     ∧ lookup gc st1
       = (Ok None,
          (st1.1,
           st1.2 ++ [(ERROR, FailedToLoadCachedQuestions JSONDecodeError)])))
  ∧ (can_open filename x = false →
     st1.1.1 = fs ∧ (ERROR, FailedToCacheQuestions CacheOSError) ∈ st1.2)
  ∧ (∀ gc', _get_cache_filename index_name config_hash gc' ≠ filename →
       (lookup gc' st1).1 = (lookup gc' ((fs, x), log)).1)
  ∧ (lookup gc (clear_cache (X := X) st1).2).1 = Ok None
  ∧ (∀ gc' (st : gmap string (option json) * X
                  * list (level * generator_line)), ∃ r,
       (lookup gc' st).1 = Ok r ∧ (lookup gc' st).2.1 = st.1).
Proof.
  intros filename lookup run st1. unfold st1, run, lookup.
  rewrite cache_questions_outcome. fold filename. cbn [fst snd].
  split_and!.
  - done.
  - by destruct (can_open filename x).
  - intros name Hne. destruct (can_open filename x); [|done].
    cbn [fst]. by rewrite lookup_insert_ne.
  - intros -> Hplain. destruct (dumped_plain _ Hplain) as [data Hdata].
    split.
    + rewrite get_cached_questions_outcome. fold filename. cbn [fst snd].
      rewrite lookup_insert_eq, Hdata, (read_dumped _ _ Hdata).
      by rewrite length_fmap.
    + intros Hentities. clear -Hentities.
      induction Hentities as [|tc tcs Htc _ IH]; [done|].
      by rewrite fmap_cons, post_init_constructed, IH.
  - intros -> Hmember%dumped_member. rewrite Hmember. split.
    + cbn [snd]. rewrite elem_of_app, list_elem_of_singleton. by right.
    + rewrite get_cached_questions_outcome. fold filename. cbn [fst snd].
      by rewrite lookup_insert_eq.
  - intros ->. split; [done|]. cbn [snd].
    rewrite elem_of_app, list_elem_of_singleton. by right.
  - intros gc' Hne. destruct (can_open filename x).
    + rewrite !get_cached_questions_outcome. cbn [fst].
      rewrite lookup_insert_ne by done.
      destruct (fs !! _) as [content|]; [|done].
      by destruct (read_test_cases content).
    + rewrite !get_cached_questions_outcome.
      destruct (fs !! _) as [content|]; [|done].
      by destruct (read_test_cases content).
  - unfold clear_cache, sbind, sget, sput, slog.
    destruct (can_open filename x); cbn [fst snd];
      rewrite get_cached_questions_outcome; fold filename;
      (rewrite (proj2 (map_lookup_filter_None _ _ filename)); [done|]);
      right; intros content _; cbn [fst]; unfold filename, _get_cache_filename;
      by rewrite !string_app_assoc, ends_with_app.
  - intros gc' [[fs' x'] log']. rewrite get_cached_questions_outcome.
    destruct (fs' !! _) as [content|]; [|by eexists].
    destruct (read_test_cases content); by eexists.
Qed.

Lemma generate_and_cache_outcome question_types counts_per_type gc
    (fs : gmap string (option json)) (x : X) log r st1 :
  generate_and_cache index_name config_hash can_open sample_documents
    _generate_all_questions question_types counts_per_type gc ((fs, x), log)
  = (r, st1) →
  match r with
  | Ok qs =>
      st1.1.1
      = if can_open (_get_cache_filename index_name config_hash gc) st1.1.2
        then <[_get_cache_filename index_name config_hash gc := dumped qs]> fs
        else fs
  | Raise e => st1.1.1 = fs
  end.
Proof.
  unfold generate_and_cache.
  unfold sbind at 1, slog at 1. cbn [fst snd].
  unfold sbind at 1, slog at 1. cbn [fst snd].
  unfold sbind at 1, in_index at 1. cbn [fst snd].
  destruct (sample_documents _ x) as [[documents|e] x1] eqn:Hsample.
  - destruct documents as [|doc documents].
    + unfold sraise. by intros [= <- <-].
    + unfold sbind at 1, slog at 1. cbn [fst snd].
      unfold sbind at 1, in_index at 1. cbn [fst snd].
      destruct (_generate_all_questions _ _ _ x1) as [[qs|e] x2].
      * unfold sbind at 1. rewrite cache_questions_outcome.
        unfold sbind, slog, sret. cbn [fst snd].
        destruct (can_open _ x2) eqn:Hopen; intros [= <- <-]; cbn [fst snd];
          by rewrite Hopen.
      * by intros [= <- <-].
  - by intros [= <- <-].
Qed.

(** X21.  Questions are generated once for a generation configuration,
    as long as the cache file can be written.  Whenever
    [generate_questions] returns a non-empty list that it found in the
    cache, or that it generated and could write (the file could be opened
    and every question holds a JSON value as its [question_type]), the
    next call that does not force regeneration returns the list from the
    cache, as [TestCase(...)] builds it from the file: it only logs the
    cache hit and leaves the cache directory, the index and the LLM
    untouched.  A call that generated questions of which one holds a
    member of [QuestionType] has left a file that cannot be loaded, and
    the next call generates again.  A forced call that returns has
    replaced the cached file with what [json.dump] wrote, or left the
    directory as it was when the file could not be opened; a call that
    raises has left the cache directory as it was, and with an index that
    yields no documents a forced call raises [ValueError]. *)
Theorem X21_questions_are_generated_once
    question_types counts_per_type
    (fs : gmap string (option json)) (x : X) log :
  let gc := generation_config_of question_types counts_per_type in
  let generate :=
    generate_questions index_name config_hash can_open sample_documents
      _generate_all_questions question_types counts_per_type in
  let regenerate :=
    generate_and_cache index_name config_hash can_open sample_documents
      _generate_all_questions question_types counts_per_type gc in
  let lookup := get_cached_questions (X := X) index_name config_hash gc in
  let filename := _get_cache_filename index_name config_hash gc in
  (∀ force_regenerate qs st1,
     generate force_regenerate ((fs, x), log) = (Ok qs, st1) →
     qs ≠ [] →
     (force_regenerate = false ∧ (lookup ((fs, x), log)).1 = Ok (Some qs))
     ∨ (can_open filename st1.1.2 = true
        ∧ Forall (λ tc, ∃ v, RawTestCase.question_type tc = Plain v) qs) →
     ∀ log', generate false (st1.1, log')
             = (Ok (RawTestCase.__post_init__ <$> qs),
                (st1.1,
                 log' ++ [(INFO, LoadedCachedTestCases (length qs) filename)])))
  ∧ (∀ qs st1,
       generate true ((fs, x), log) = (Ok qs, st1) →
       can_open filename st1.1.2 = true →
       Exists (λ tc, ∃ t, RawTestCase.question_type tc = Member t) qs →
       ∀ log', generate false (st1.1, log')
               = regenerate
                   (st1.1,
                    log' ++ [(ERROR,
                              FailedToLoadCachedQuestions JSONDecodeError)]))
  ∧ (∀ qs st1,
       generate true ((fs, x), log) = (Ok qs, st1) →
       st1.1.1 = if can_open filename st1.1.2
                 then <[filename := dumped qs]> fs else fs)
  ∧ (∀ force_regenerate e st1,
       generate force_regenerate ((fs, x), log) = (Raise e, st1) →
       st1.1.1 = fs)
  ∧ ((sample_documents (_calculate_documents_needed counts_per_type) x).1
     = Ok [] →
     (generate true ((fs, x), log)).1 = Raise ValueError).
Proof.
  intros gc generate regenerate lookup filename.
  assert (Hcached : ∀ (fs' : gmap string (option json)) (x' : X) log' content
                      qs,
            fs' !! filename = Some content →
            read_test_cases content = inr qs →
            qs ≠ [] →
            generate false ((fs', x'), log')
            = (Ok qs,
               ((fs', x'),
                log' ++ [(INFO, LoadedCachedTestCases (length qs) filename)]))).
  { intros fs' x' log' content qs Hfile Hread Hne.
    unfold generate, generate_questions.
    unfold sbind at 1. rewrite get_cached_questions_outcome.
    fold gc filename. rewrite Hfile, Hread. by destruct qs. }
  assert (Hforced : ∀ qs st1,
            generate true ((fs, x), log) = (Ok qs, st1) →
            st1.1.1 = if can_open filename st1.1.2
                      then <[filename := dumped qs]> fs else fs).
  { intros qs [[fs1 x1] log1] Hrun.
    unfold generate, generate_questions in Hrun.
    unfold sbind at 1, sret at 1 in Hrun.
    by apply generate_and_cache_outcome in Hrun. }
  assert (Hwritten : ∀ r qs (st0 st1 : gmap string (option json) * X
                                       * list (level * generator_line)),
            regenerate st0 = (r, st1) → r = Ok qs → qs ≠ [] →
            can_open filename st1.1.2 = true →
            Forall (λ tc, ∃ v, RawTestCase.question_type tc = Plain v) qs →
            ∀ log', generate false (st1.1, log')
                    = (Ok (RawTestCase.__post_init__ <$> qs),
                       (st1.1,
                        log' ++ [(INFO, LoadedCachedTestCases (length qs)
                                          filename)]))).
  { intros r qs [[fs0 x0] log0] [[fs1 x1] log1] Hrun -> Hne Hopen Hplain log'.
    apply generate_and_cache_outcome in Hrun. cbn [fst snd] in Hrun, Hopen |- *.
    fold gc filename in Hrun. rewrite Hopen in Hrun.
    destruct (dumped_plain _ Hplain) as [data Hdata].
    rewrite <-(length_fmap RawTestCase.__post_init__ qs).
    apply (Hcached _ _ _ (Some data)).
    - by rewrite Hrun, lookup_insert_eq, Hdata.
    - by apply read_dumped.
    - by destruct qs. }
  split_and!.
  - intros force qs st1 Hrun Hne Hwhy log'.
    unfold generate, generate_questions in Hrun. fold gc in Hrun.
    destruct force.
    + destruct Hwhy as [[? _]|[Hopen Hplain]]; [done|].
      unfold sbind at 1, sret at 1 in Hrun.
      by eapply Hwritten.
    + unfold sbind at 1 in Hrun. rewrite get_cached_questions_outcome in Hrun.
      fold filename in Hrun.
      assert (∀ (st0 : gmap string (option json) * X
                       * list (level * generator_line)),
                (lookup ((fs, x), log)).1 ≠ Ok (Some qs) →
                regenerate st0 = (Ok qs, st1) →
                generate false (st1.1, log')
                = (Ok (RawTestCase.__post_init__ <$> qs),
                   (st1.1,
                    log' ++ [(INFO, LoadedCachedTestCases (length qs)
                                      filename)]))) as Hfresh.
      { intros st0 Hmiss Hregen.
        destruct Hwhy as [[_ Hhit]|[Hopen Hplain]]; [done|].
        by eapply Hwritten. }
      unfold lookup in Hfresh.
      rewrite get_cached_questions_outcome in Hfresh. fold gc filename in Hfresh.
      destruct (fs !! filename) as [content|] eqn:Hfile.
      * destruct (read_test_cases content) as [e|[|tc tcs]] eqn:Hread.
        -- by eapply Hfresh.
        -- eapply Hfresh; [|done]. cbn [fst]. intros [= <-]. done.
        -- unfold sret in Hrun. injection Hrun as <- <-. cbn [fst].
           destruct (read_test_cases_reloaded _ _ Hread) as [-> _].
           by apply (Hcached _ _ _ content).
      * by eapply Hfresh.
  - intros qs [[fs1 x1] log1] Hrun Hopen Hmember%dumped_member log'.
    pose proof (Hforced _ _ Hrun) as Hfs. cbn [fst snd] in Hfs, Hopen |- *.
    rewrite Hopen, Hmember in Hfs.
    unfold generate, generate_questions. fold gc.
    unfold sbind at 1. rewrite get_cached_questions_outcome. fold filename.
    by rewrite Hfs, lookup_insert_eq.
  - exact Hforced.
  - intros force e [[fs1 x1] log1] Hrun. cbn [fst].
    unfold generate, generate_questions in Hrun.
    destruct force.
    + unfold sbind at 1, sret at 1 in Hrun.
      by apply generate_and_cache_outcome in Hrun.
    + unfold sbind at 1 in Hrun. rewrite get_cached_questions_outcome in Hrun.
      destruct (fs !! _) as [content|].
      * destruct (read_test_cases content) as [e'|[|tc tcs]].
        -- by apply generate_and_cache_outcome in Hrun.
        -- by apply generate_and_cache_outcome in Hrun.
        -- done.
      * by apply generate_and_cache_outcome in Hrun.
  - intros Hempty. unfold generate, generate_questions.
    unfold sbind at 1, sret at 1. unfold generate_and_cache.
    unfold sbind at 1, slog at 1. cbn [fst snd].
    unfold sbind at 1, slog at 1. cbn [fst snd].
    unfold sbind at 1, in_index at 1. cbn [fst snd].
    destruct (sample_documents _ x) as [r x1]. cbn [fst] in Hempty.
    by rewrite Hempty.
Qed.

End QuestionGeneratorProperties.

(** *** Contexts for question generation *)

Lemma sum_list_append (l k : list nat) :
  sum_list (l ++ k) = (sum_list l + sum_list k)%nat.
Proof. induction l as [|x l IH]; [done|]. simpl. rewrite IH. lia. Qed.

Section PrepareContextsProperties.
Context {Doc : Type}.
Variable doc_text : Doc → string.
Variable shuffle : list Doc → list Doc.

Lemma select_docs_cycle (first : Doc) rest n selected doc_index :
  select_docs (first :: rest) n (selected, doc_index)
  = Ok (selected ++ cycle_from (first :: rest) first doc_index n,
        (doc_index + n)%nat).
Proof.
  revert selected doc_index.
  induction n as [|n IH]; intros selected doc_index.
  - simpl. by rewrite app_nil_r, Nat.add_0_r.
  - cbn [select_docs]. unfold cycle_from. rewrite <-cons_seq, fmap_cons.
    destruct (doc_index <? length (first :: rest))%nat eqn:Hlt.
    + apply Nat.ltb_lt in Hlt. cbn [rbind]. rewrite IH.
      rewrite Nat.mod_small by done. unfold cycle_from.
      rewrite <-app_assoc. do 2 f_equal. lia.
    + cbn [rbind]. rewrite IH. unfold cycle_from.
      rewrite <-app_assoc. do 2 f_equal. lia.
Qed.

Lemma contexts_from_app shuffled (first : Doc) question_id doc_index r1 r2 :
  contexts_from doc_text shuffled first question_id doc_index (r1 ++ r2)
  = contexts_from doc_text shuffled first question_id doc_index r1
    ++ contexts_from doc_text shuffled first
         (question_id + length r1)
         (doc_index + sum_list (Z.to_nat ∘ docs_per_question <$> r1))
         r2.
Proof.
  revert question_id doc_index.
  induction r1 as [|t r1 IH]; intros question_id doc_index.
  - simpl. by rewrite !Nat.add_0_r.
  - cbn [app contexts_from]. rewrite IH. cbn [app]. do 3 f_equal.
    + simpl. lia.
    + rewrite fmap_cons. simpl. lia.
Qed.

Lemma prepare_contexts_inner (first : Doc) rest question_type c start
    contexts question_id doc_index :
  rfold
    (λ (acc : list (GenerationContext.t Doc) * nat * nat) (_ : nat),
       let '(contexts, question_id, doc_index) := acc in
       let docs_needed :=
         match question_type with
         | SIMPLE => 1%nat
         | COMPLEX => 3%nat
         | _ => 2%nat
         end in
       let! selected :=
         select_docs (first :: rest) docs_needed ([], doc_index) in
       let context_text :=
         String.concat (newline +:+ newline)
           ((λ doc, String.substring 0 800 (doc_text doc)) <$> selected.1) in
       Ok (contexts
             ++ [GenerationContext.make Doc question_id
                   (QuestionType_value question_type) context_text
                   selected.1],
           S question_id, selected.2))
    (contexts, question_id, doc_index) (seq start c)
  = Ok (contexts
          ++ contexts_from doc_text (first :: rest) first question_id
               doc_index (replicate c question_type),
        (question_id + c)%nat,
        (doc_index
         + sum_list (Z.to_nat ∘ docs_per_question
                       <$> replicate c question_type))%nat).
Proof.
  revert start contexts question_id doc_index.
  induction c as [|c IH]; intros start contexts question_id doc_index.
  - simpl. by rewrite app_nil_r, !Nat.add_0_r.
  - rewrite <-cons_seq. cbn [rfold].
    rewrite select_docs_cycle. cbn [rbind fst snd app].
    rewrite IH. cbn [replicate contexts_from fmap list_fmap sum_list].
    rewrite <-app_assoc. cbn [app].
    assert (Hneed : match question_type with
                    | SIMPLE => 1%nat
                    | COMPLEX => 3%nat
                    | _ => 2%nat
                    end = Z.to_nat (docs_per_question question_type))
      by by destruct question_type.
    rewrite Hneed. simpl. do 2 f_equal; [f_equal|]; lia.
Qed.

Lemma prepare_contexts_closed_form documents question_types counts_per_type
    (first : Doc) rest :
  shuffle documents = first :: rest →
  _prepare_contexts doc_text shuffle documents question_types counts_per_type
  = Ok (contexts_from doc_text (first :: rest) first 0 0
          (questions_requested question_types counts_per_type)).
Proof.
  intros Hshuffle. unfold _prepare_contexts. rewrite Hshuffle.
  assert (Hloop : ∀ contexts question_id doc_index,
    rfold
      (λ acc question_type,
         let count := default 1%Z (dict_get counts_per_type question_type) in
         rfold
           (λ (acc : list (GenerationContext.t Doc) * nat * nat) (_ : nat),
              let '(contexts, question_id, doc_index) := acc in
              let docs_needed :=
                match question_type with
                | SIMPLE => 1%nat
                | COMPLEX => 3%nat
                | _ => 2%nat
                end in
              let! selected :=
                select_docs (first :: rest) docs_needed ([], doc_index) in
              let context_text :=
                String.concat (newline +:+ newline)
                  ((λ doc, String.substring 0 800 (doc_text doc))
                     <$> selected.1) in
              Ok (contexts
                    ++ [GenerationContext.make Doc question_id
                          (QuestionType_value question_type) context_text
                          selected.1],
                  S question_id, selected.2))
           acc (seq 0 (Z.to_nat count)))
      (contexts, question_id, doc_index) question_types
    = Ok (contexts
            ++ contexts_from doc_text (first :: rest) first question_id
                 doc_index
                 (questions_requested question_types counts_per_type),
          (question_id
           + length (questions_requested question_types counts_per_type))%nat,
          (doc_index
           + sum_list (Z.to_nat ∘ docs_per_question
                         <$> questions_requested question_types
                               counts_per_type))%nat)).
  { unfold questions_requested.
    induction question_types as [|t ts IH];
      intros contexts question_id doc_index.
    - simpl. by rewrite app_nil_r, !Nat.add_0_r.
    - cbn [rfold]. cbv zeta. rewrite prepare_contexts_inner. cbn [rbind].
      rewrite IH, bind_cons, contexts_from_app, fmap_app, sum_list_append,
        length_app, length_replicate, <-app_assoc.
      do 2 f_equal; [f_equal|]; lia. }
  by rewrite Hloop.
Qed.

Lemma contexts_from_ids shuffled (first : Doc) question_id doc_index reqs :
  GenerationContext.id
    <$> contexts_from doc_text shuffled first question_id doc_index reqs
  = seq question_id (length reqs).
Proof.
  revert question_id doc_index.
  induction reqs as [|t reqs IH]; intros question_id doc_index; [done|].
  cbn [contexts_from fmap list_fmap length seq]. f_equal. apply IH.
Qed.

Lemma contexts_from_types shuffled (first : Doc) question_id doc_index reqs :
  GenerationContext.type
    <$> contexts_from doc_text shuffled first question_id doc_index reqs
  = QuestionType_value <$> reqs.
Proof.
  revert question_id doc_index.
  induction reqs as [|t reqs IH]; intros question_id doc_index; [done|].
  cbn [contexts_from fmap list_fmap]. f_equal. apply IH.
Qed.

Lemma contexts_from_docs shuffled (first : Doc) question_id doc_index reqs :
  concat (GenerationContext.source_docs
            <$> contexts_from doc_text shuffled first question_id doc_index
                  reqs)
  = cycle_from shuffled first doc_index
      (sum_list (Z.to_nat ∘ docs_per_question <$> reqs)).
Proof.
  revert question_id doc_index.
  induction reqs as [|t reqs IH]; intros question_id doc_index; [done|].
  cbn [contexts_from fmap list_fmap concat sum_list]. rewrite IH.
  unfold cycle_from. cbn [GenerationContext.source_docs compose].
  by rewrite seq_app, fmap_app.
Qed.

Lemma contexts_from_shape shuffled (first : Doc) question_id doc_index reqs :
  Forall2 (λ c t,
             length (GenerationContext.source_docs c)
             = Z.to_nat (docs_per_question t)
             ∧ GenerationContext.context c
               = String.concat (newline +:+ newline)
                   ((λ doc, String.substring 0 800 (doc_text doc))
                      <$> GenerationContext.source_docs c))
    (contexts_from doc_text shuffled first question_id doc_index reqs) reqs.
Proof.
  revert question_id doc_index.
  induction reqs as [|t reqs IH]; intros question_id doc_index;
    [constructor|].
  cbn [contexts_from]. constructor; [|apply IH].
  cbn [GenerationContext.source_docs GenerationContext.context].
  split; [|done]. unfold cycle_from. by rewrite length_fmap, length_seq.
Qed.

Lemma cycle_from_prefix (first : Doc) shuffled n :
  (n ≤ length shuffled)%nat →
  cycle_from shuffled first 0 n = take n shuffled.
Proof.
  intros Hn. unfold cycle_from. apply list_eq. intros i.
  rewrite list_lookup_fmap.
  destruct (decide (i < n)%nat) as [Hi|Hi].
  - rewrite lookup_take_lt, lookup_seq_lt by done. simpl.
    rewrite Nat.mod_small by lia.
    destruct (lookup_lt_is_Some_2 shuffled i ltac:(lia)) as [d Hd].
    rewrite Hd. f_equal. by apply nth_lookup_Some.
  - rewrite lookup_take_ge, lookup_seq_ge by lia. done.
Qed.

Lemma prepare_contexts_no_documents documents question_types counts_per_type :
  shuffle documents = [] →
  questions_requested question_types counts_per_type ≠ [] →
  _prepare_contexts doc_text shuffle documents question_types counts_per_type
  = Raise ZeroDivisionError.
Proof.
  intros Hshuffle. unfold _prepare_contexts, questions_requested.
  rewrite Hshuffle.
  generalize (@nil (GenerationContext.t Doc), 0%nat, 0%nat).
  induction question_types as [|t ts IH]; intros acc Hreq; [done|].
  rewrite bind_cons in Hreq. cbn [rfold]. cbv zeta.
  destruct (Z.to_nat (default 1%Z (dict_get counts_per_type t))) as [|n].
  - cbn [seq rfold rbind]. by apply IH.
  - rewrite <-cons_seq. cbn [rfold]. destruct acc as [[contexts qid] di].
    by destruct t.
Qed.

Lemma prepared_from_enough_documents
    documents question_types counts_per_type :
  (0 < length (shuffle documents))%nat →
  ∃ contexts,
    _prepare_contexts doc_text shuffle documents question_types
      counts_per_type = Ok contexts
    ∧ ((documents_used question_types counts_per_type
        ≤ length (shuffle documents))%nat →
       concat (GenerationContext.source_docs <$> contexts)
       = take (documents_used question_types counts_per_type)
           (shuffle documents)).
Proof.
  intros Hlen.
  destruct (shuffle documents) as [|first rest] eqn:Hshuffle;
    [simpl in Hlen; lia|].
  eexists. split; [by apply prepare_contexts_closed_form|].
  intros Hused. rewrite contexts_from_docs. by apply cycle_from_prefix.
Qed.

(** X22. [_prepare_contexts] numbers the contexts from 0, one context for
    each requested question in the order of [question_types] (a type
    without a count gets one question), each with one, three or two source
    documents for a simple, a complex or any other question, its text
    being the first 800 characters of each source document joined by blank
    lines.  The documents are taken from the shuffled list in turn,
    starting over at its end; when the list is long enough, the source
    documents of all contexts together are its first documents, each taken
    once.  With no document and a question to prepare, the function raises
    [ZeroDivisionError]. *)
Theorem X22_contexts_take_documents_in_turn
    documents question_types counts_per_type :
  let requested := questions_requested question_types counts_per_type in
  let used := documents_used question_types counts_per_type in
  let shuffled_docs := shuffle documents in
  let prepared :=
    _prepare_contexts doc_text shuffle documents question_types
      counts_per_type in
  (shuffled_docs ≠ [] →
   ∃ contexts,
     prepared = Ok contexts
     ∧ GenerationContext.id <$> contexts = seq 0 (length requested)
     ∧ GenerationContext.type <$> contexts = QuestionType_value <$> requested
     ∧ Forall2 (λ c t,
                  length (GenerationContext.source_docs c)
                  = Z.to_nat (docs_per_question t)
                  ∧ GenerationContext.context c
                    = String.concat (newline +:+ newline)
                        ((λ doc, String.substring 0 800 (doc_text doc))
                           <$> GenerationContext.source_docs c))
         contexts requested
     ∧ length (concat (GenerationContext.source_docs <$> contexts)) = used
     ∧ (∀ i, (i < used)%nat →
          concat (GenerationContext.source_docs <$> contexts) !! i
          = shuffled_docs !! (i mod length shuffled_docs)%nat)
     ∧ ((used ≤ length shuffled_docs)%nat →
        concat (GenerationContext.source_docs <$> contexts)
        = take used shuffled_docs))
  ∧ (shuffled_docs = [] → requested ≠ [] →
     prepared = Raise ZeroDivisionError).
Proof.
  intros requested used shuffled_docs prepared. split.
  - intros Hne. unfold shuffled_docs in *.
    destruct (shuffle documents) as [|first rest] eqn:Hshuffle; [done|].
    exists (contexts_from doc_text (first :: rest) first 0 0 requested).
    unfold prepared.
    rewrite (prepare_contexts_closed_form _ _ _ first rest Hshuffle).
    fold requested.
    split_and!; [done|apply contexts_from_ids|apply contexts_from_types
                 |apply contexts_from_shape|..].
    + rewrite contexts_from_docs. unfold cycle_from.
      by rewrite length_fmap, length_seq.
    + intros i Hi. rewrite contexts_from_docs. unfold cycle_from.
      rewrite list_lookup_fmap, lookup_seq_lt by done.
      assert (Hlt : (i mod length (first :: rest) < length (first :: rest))%nat)
        by (apply Nat.mod_upper_bound; simpl; lia).
      destruct (lookup_lt_is_Some_2 _ _ Hlt) as [d Hd].
      rewrite Hd. cbn [fmap option_fmap option_map Nat.add]. f_equal.
      by apply nth_lookup_Some.
    + intros Hlen. rewrite contexts_from_docs.
      by apply cycle_from_prefix.
  - apply prepare_contexts_no_documents.
Qed.

Lemma dict_get_NoDup {K V} `{EqDecision K} (d : list (K * V)) k v :
  NoDup d.*1 → (k, v) ∈ d → dict_get d k = Some v.
Proof.
  induction d as [|[k' v'] d IH]; [by intros _ ?%elem_of_nil|].
  rewrite fmap_cons, NoDup_cons, elem_of_cons. intros [Hk Hd] Hin.
  cbn [dict_get]. destruct (decide (k' = k)) as [->|Hne].
  - destruct Hin as [[= ->]|Hin]; [done|]. destruct Hk.
    apply list_elem_of_fmap. by exists (k, v).
  - destruct Hin as [[= -> ->]|Hin]; [done|]. by apply IH.
Qed.

Lemma questions_requested_found counts_per_type
    (l : list (QuestionType * Z)) :
  Forall (λ item, dict_get counts_per_type item.1 = Some item.2) l →
  questions_requested l.*1 counts_per_type
  = l ≫= (λ item, replicate (Z.to_nat item.2) item.1).
Proof.
  unfold questions_requested.
  induction 1 as [|[t c] l Hget Hall IH]; [done|].
  rewrite fmap_cons, !bind_cons. cbn [fst snd] in *. by rewrite Hget, IH.
Qed.

Lemma questions_requested_keys counts_per_type :
  NoDup counts_per_type.*1 →
  questions_requested counts_per_type.*1 counts_per_type
  = counts_per_type ≫= (λ item, replicate (Z.to_nat item.2) item.1).
Proof.
  intros Hnodup. apply questions_requested_found, Forall_forall.
  intros [t c] Hin. by apply dict_get_NoDup.
Qed.

Lemma documents_needed_total counts_per_type :
  Forall (λ item, (0 ≤ item.2)%Z) counts_per_type →
  foldl (λ total_docs item,
           (total_docs + item.2 * docs_per_question item.1)%Z)
        0%Z counts_per_type
  = Z.of_nat
      (sum_list (Z.to_nat ∘ docs_per_question
                   <$> (counts_per_type
                          ≫= (λ item, replicate (Z.to_nat item.2) item.1)))).
Proof.
  intros Hpos.
  assert (Hgen : ∀ start : Z,
    foldl (λ total_docs item,
             (total_docs + item.2 * docs_per_question item.1)%Z)
          start counts_per_type
    = (start
       + Z.of_nat
           (sum_list (Z.to_nat ∘ docs_per_question
                        <$> (counts_per_type
                               ≫= (λ item, replicate (Z.to_nat item.2)
                                             item.1)))))%Z).
  { induction Hpos as [|[t c] d Hc Hpos IH]; intros start.
    - simpl. lia.
    - cbn [foldl]. rewrite IH, bind_cons, fmap_app, sum_list_append.
      cbn [fst snd] in *. rewrite fmap_replicate, sum_list_replicate.
      unfold compose. destruct t; simpl; lia. }
  rewrite Hgen. lia.
Qed.

(** X23. The sample size that [_calculate_documents_needed] asks for
    covers what [_prepare_contexts] takes.  For counts that are not
    negative, with the question types being the keys of the counts as in
    [generate_questions], the sample size is the number of documents the
    contexts take plus a buffer of a tenth of it, and of five at least; so
    with an index that yields as many documents as asked for, the contexts
    are built from the first documents of the shuffled list, no document
    is taken twice, and five documents at least are left over. *)
Theorem X23_documents_needed_cover_the_contexts counts_per_type documents :
  NoDup counts_per_type.*1 →
  Forall (λ item, (0 ≤ item.2)%Z) counts_per_type →
  let question_types := counts_per_type.*1 in
  let used := documents_used question_types counts_per_type in
  let sample_size := _calculate_documents_needed counts_per_type in
  sample_size = (Z.of_nat used + Z.max 5 (Z.of_nat used / 10))%Z
  ∧ (length (shuffle documents) = Z.to_nat sample_size →
     ∃ contexts,
       _prepare_contexts doc_text shuffle documents question_types
         counts_per_type = Ok contexts
       ∧ concat (GenerationContext.source_docs <$> contexts)
         = take used (shuffle documents)
       ∧ (used + 5 ≤ length (shuffle documents))%nat).
Proof.
  intros Hnodup Hpos question_types used sample_size.
  assert (Hsize : sample_size
                  = (Z.of_nat used + Z.max 5 (Z.of_nat used / 10))%Z).
  { unfold sample_size, _calculate_documents_needed.
    rewrite documents_needed_total by done.
    unfold used, documents_used, question_types.
    rewrite questions_requested_keys by done.
    rewrite Z.quot_div_nonneg by lia. done. }
  split; [done|]. intros Hlen.
  assert (Hroom : (used + 5 ≤ length (shuffle documents))%nat) by lia.
  destruct (prepared_from_enough_documents documents question_types
              counts_per_type)
    as (contexts & Hprep & Hdocs); [lia|].
  exists contexts. split_and!; [done| |done]. apply Hdocs. lia.
Qed.

End PrepareContextsProperties.

(** *** The Gemini client instance *)

Section GeminiClientInstanceProperties.
Context {X Client : Type}.
Variable GeminiClient : X → result Client * X.

Lemma create_gemini_client_outcome (instance : option Client) (x : X)
    (log : list (level * ())) :
  create_gemini_client GeminiClient ((instance, x), log)
  = match instance with
    | Some _ =>
        (Raise (RuntimeError "Gemini client instance already exists"),
         ((instance, x), log))
    | None =>
        match GeminiClient x with
        | (Ok client, x') => (Ok client, ((Some client, x'), log))
        | (Raise e, x') => (Raise e, ((None, x'), log))
        end
    end.
Proof.
  unfold create_gemini_client, sbind, sget, sput, sraise, sret.
  cbn [fst snd]. destruct instance; [done|]. simpl.
  by destruct (GeminiClient x) as [[client|e] x'].
Qed.

Lemma get_gemini_client_outcome (instance : option Client) (x : X)
    (log : list (level * ())) :
  get_gemini_client GeminiClient ((instance, x), log)
  = match instance with
    | Some client => (Ok (Some client), ((instance, x), log))
    | None =>
        match GeminiClient x with
        | (Ok client, x') => (Ok (Some client), ((Some client, x'), log))
        | (Raise e, x') => (Raise e, ((None, x'), log))
        end
    end.
Proof.
  unfold get_gemini_client. unfold sbind at 1, sget at 1. cbn [fst snd].
  destruct instance as [client|].
  - reflexivity.
  - unfold sbind at 1. unfold sbind at 1.
    rewrite create_gemini_client_outcome.
    by destruct (GeminiClient x) as [[client|e] x'].
Qed.

Lemma acquire_client_outcome {L} (instance : option Client) (x : X)
    (log : list (level * L)) :
  silently (get_gemini_client GeminiClient) ((instance, x), log)
  = match instance with
    | Some client => (Ok (Some client), ((instance, x), log))
    | None =>
        match GeminiClient x with
        | (Ok client, x') => (Ok (Some client), ((Some client, x'), log))
        | (Raise e, x') => (Raise e, ((None, x'), log))
        end
    end.
Proof.
  unfold silently. cbn [fst snd]. rewrite get_gemini_client_outcome.
  destruct instance as [client|]; [done|].
  by destruct (GeminiClient x) as [[client|e] x'].
Qed.

Lemma acquire_client_raises {L} (instance : option Client) (x : X)
    (log : list (level * L)) e :
  (silently (get_gemini_client GeminiClient) ((instance, x), log)).1 = Raise e
  ↔ instance = None ∧ (GeminiClient x).1 = Raise e.
Proof.
  rewrite acquire_client_outcome. destruct instance as [client|].
  - split; [done|]. by intros [? _].
  - destruct (GeminiClient x) as [[client|e'] x']; cbn [fst].
    + split; [done|]. by intros [_ ?].
    + split; [by intros [= ->]|]. by intros [_ [= ->]].
Qed.

(** X27. There is one Gemini client per process.  Once
    [create_gemini_client] or [get_gemini_client] has returned, every
    later [create_gemini_client] raises [RuntimeError] and changes
    nothing, and every later [get_gemini_client] returns the same client
    without constructing another.  A call whose construction fails passes
    the exception on and leaves the instance unset. *)
Theorem X27_one_gemini_client_per_process
    (st : option Client * X * list (level * ())) :
  let create := create_gemini_client GeminiClient in
  let get := get_gemini_client GeminiClient in
  let settled client (st' : option Client * X * list (level * ())) :=
    st'.1.1 = Some client
    ∧ create st'
      = (Raise (RuntimeError "Gemini client instance already exists"), st')
    ∧ get st' = (Ok (Some client), st') in
  (∀ client st', create st = (Ok client, st') → settled client st')
  ∧ (∀ instance st', get st = (Ok instance, st') →
       ∃ client, instance = Some client ∧ settled client st')
  ∧ (∀ e st', create st = (Raise e, st') ∨ get st = (Raise e, st') →
       st'.1.1 = st.1.1
       ∧ (st.1.1 = None → (GeminiClient st.1.2).1 = Raise e)).
Proof.
  intros create get settled. destruct st as [[instance x] log].
  assert (Hsettled : ∀ client x' log', settled client ((Some client, x'), log')).
  { intros client x' log'. unfold settled, create, get.
    by rewrite create_gemini_client_outcome, get_gemini_client_outcome. }
  unfold create, get.
  rewrite create_gemini_client_outcome, get_gemini_client_outcome.
  cbn [fst snd]. destruct instance as [present|].
  - split_and!.
    + by intros.
    + intros instance st' [= <- <-]. by exists present.
    + intros e st' [[= <- <-]|?]; [|done]. by split.
  - destruct (GeminiClient x) as [[client|e] x'] eqn:Hnew; cbn [fst].
    + split_and!.
      * by intros ? ? [= <- <-].
      * intros ? ? [= <- <-]. by exists client.
      * by intros ? ? [?|?].
    + split_and!.
      * by intros.
      * by intros.
      * by intros ? ? [[= <- <-]|[= <- <-]].
Qed.

End GeminiClientInstanceProperties.

(** *** The system metrics *)

Lemma Qc_of_nat_S (n : nat) :
  Q2Qc (inject_Z (Z.of_nat (S n))) = 1 + Q2Qc (inject_Z (Z.of_nat n)).
Proof.
  apply Qc_is_canon. simpl. rewrite !Qred_correct.
  unfold Qeq, inject_Z. simpl. lia.
Qed.

Lemma sum_unit_bounds xs :
  Forall (λ x : Qc, 0 ≤ x ∧ x ≤ 1) xs →
  0 ≤ Py.sum xs ∧ Py.sum xs ≤ Q2Qc (inject_Z (Z.of_nat (length xs))).
Proof.
  induction 1 as [|x xs [Hlo Hhi] _ [IHlo IHhi]].
  - split; by vm_compute.
  - rewrite Py_sum_cons. cbn [length]. rewrite Qc_of_nat_S. split.
    + by apply Qcplus_nonneg_nonneg.
    + by apply Qcplus_le_compat.
Qed.

Lemma Qc_of_nat_pos (n : nat) : 0 < Q2Qc (inject_Z (Z.of_nat (S n))).
Proof.
  rewrite Qc_of_nat_S.
  apply Qclt_le_trans with (y := 1); [by vm_compute|].
  rewrite <-(Qcplus_0_r 1) at 1. apply Qcplus_le_compat; [apply Qcle_refl|].
  induction n as [|n IH]; [by vm_compute|].
  rewrite Qc_of_nat_S. by apply Qcplus_nonneg_nonneg.
Qed.

Lemma mean_unit_bounds x xs :
  Forall (λ x : Qc, 0 ≤ x ∧ x ≤ 1) (x :: xs) →
  0 ≤ mean (x :: xs) ∧ mean (x :: xs) ≤ 1.
Proof.
  intros Hxs. destruct (sum_unit_bounds _ Hxs) as [Hlo Hhi].
  pose proof (Qc_of_nat_pos (length xs)) as Hpos.
  change (S (length xs)) with (length (x :: xs)) in Hpos.
  assert (Hmul : mean (x :: xs) * Q2Qc (inject_Z (Z.of_nat (length (x :: xs))))
                 = Py.sum (x :: xs)).
  { unfold mean. rewrite Qcmult_comm. apply Qcmult_div_r.
    by apply Qc_pos_nonzero. }
  split; apply (Qcmult_lt_0_le_reg_r _ _ _ Hpos); rewrite Hmul.
  - by rewrite Qcmult_0_l.
  - by rewrite Qcmult_1_l.
Qed.

Lemma mean_or_zero_unit scores :
  Forall (λ x : Qc, 0 ≤ x ∧ x ≤ 1) scores →
  0 ≤ match scores with [] => 0 | _ => mean scores end
  ∧ match scores with [] => 0 | _ => mean scores end ≤ 1.
Proof.
  intros Hall. destruct scores as [|x xs]; [by vm_compute|].
  by apply mean_unit_bounds.
Qed.

Lemma clamp_unit (x : Qc) :
  0 ≤ Qc_min (Qc_max x 0) 1 ∧ Qc_min (Qc_max x 0) 1 ≤ 1.
Proof.
  unfold Qc_max. destruct (bool_decide (x ≤ 0)) eqn:Hx.
  - by vm_compute.
  - apply bool_decide_eq_false, Qcnot_le_lt, Qclt_le_weak in Hx.
    unfold Qc_min. destruct (bool_decide (x ≤ 1)) eqn:Hx1.
    + by apply bool_decide_eq_true in Hx1.
    + by vm_compute.
Qed.

Section SystemMetricsProperties.
Context {X Client : Type}.
Variable GeminiClient : X → result Client * X.
Variable generate_for_metrics : Client → string → X → result string * X.
Variable app_config : Config.t.
Variable document_content : Document → string.
Variable repr_list : list string → string.

Lemma evaluate_with_llm_returns model prompt
    (st : option Client * X * list (level * system_metrics_line)) :
  ∃ score st',
    system_metrics._evaluate_with_llm generate_for_metrics model prompt
      (qc 1 2) st
    = (Ok score, st')
    ∧ 0 ≤ score ∧ score ≤ 1.
Proof.
  unfold system_metrics._evaluate_with_llm. destruct model as [client|].
  - unfold sbind, stry, system_metrics.with_client. cbn [fst snd].
    destruct (generate_for_metrics client prompt _) as [[response|e] x'].
    + destruct (first_number response) as [n|].
      * do 2 eexists. split; [reflexivity|]. apply clamp_unit.
      * do 2 eexists. split; [reflexivity|]. split; by vm_compute.
    + do 2 eexists. split; [reflexivity|]. split; by vm_compute.
  - do 2 eexists. split; [reflexivity|]. split; by vm_compute.
Qed.

Lemma score_results_returns model (skip : RawTestCaseResult.t → bool)
    (prompt : RawTestCaseResult.t → string) results
    (acc : list Qc * list DetailedRow.t)
    (st : option Client * X * list (level * system_metrics_line)) :
  ∃ scores st',
    sfor_each results
      (λ result acc,
         if skip result then sret acc
         else
           sbind (system_metrics._evaluate_with_llm generate_for_metrics
                    model (prompt result) (qc 1 2))
             (λ score,
                sret (acc.1 ++ [score],
                      if Config.return_detailed_results app_config
                      then acc.2 ++ [system_metrics.detailed_row result score]
                      else acc.2)))
      acc st
    = (Ok (acc.1 ++ scores,
           if Config.return_detailed_results app_config
           then acc.2
                ++ zip_with system_metrics.detailed_row
                     (filter (λ result, skip result = false) results) scores
           else acc.2),
       st')
    ∧ Forall (λ x : Qc, 0 ≤ x ∧ x ≤ 1) scores
    ∧ length scores
      = length (filter (λ result, skip result = false) results)
    ∧ (filter (λ result, skip result = false) results = [] → st' = st).
Proof.
  revert acc st. induction results as [|result results IH]; intros acc st.
  - exists [], st. cbn [sfor_each]. unfold sret.
    split_and!; [|constructor|done|done].
    destruct (Config.return_detailed_results _); simpl.
    all: rewrite ?app_nil_r; by destruct acc.
  - cbn [sfor_each]. destruct (skip result) eqn:Hskip.
    + rewrite filter_cons_False by (by rewrite Hskip).
      unfold sbind at 1, sret at 1. apply IH.
    + rewrite filter_cons_True by done.
      destruct (evaluate_with_llm_returns model (prompt result) st)
        as (score & st1 & Hrun & Hlo & Hhi).
      unfold sbind at 1. unfold sbind at 1. rewrite Hrun.
      unfold sret at 1.
      destruct (IH (acc.1 ++ [score],
                    if Config.return_detailed_results app_config
                    then acc.2 ++ [system_metrics.detailed_row result score]
                    else acc.2) st1)
        as (scores & st' & Hrest & Hall & Hlen & _).
      exists (score :: scores), st'. rewrite Hrest. cbn [fst snd].
      split_and!.
      * rewrite <-app_assoc. cbn [app zip_with].
        destruct (Config.return_detailed_results app_config); [|done].
        by rewrite <-app_assoc.
      * by constructor.
      * cbn [length]. by rewrite Hlen.
      * done.
Qed.

Lemma rated_metric_returns model (skip : RawTestCaseResult.t → bool)
    (prompt : RawTestCaseResult.t → string) evaluation_data
    (st : option Client * X * list (level * system_metrics_line)) :
  ∃ scores st',
    system_metrics.score_results generate_for_metrics app_config model skip
      prompt evaluation_data st
    = (Ok (scores,
           if Config.return_detailed_results app_config
           then zip_with system_metrics.detailed_row
                  (scored_results skip evaluation_data) scores
           else []),
       st')
    ∧ Forall (λ x : Qc, 0 ≤ x ∧ x ≤ 1) scores
    ∧ length scores = length (scored_results skip evaluation_data)
    ∧ (scored_results skip evaluation_data = [] → st' = st).
Proof.
  unfold system_metrics.score_results, scored_results.
  destruct (score_results_returns model skip prompt
              (RawEvaluationData.test_case_results evaluation_data)
              ([], []) st)
    as (scores & st' & Hrun & Hall & Hlen & Hnone).
  exists scores, st'. split_and!; [|done..].
  etrans; [exact Hrun|]. cbn [fst snd app].
  by destruct (Config.return_detailed_results app_config).
Qed.

(** X24.  [answer_correctness] and [context_utilization_rate] start with
    [SystemMetrics()], which asks for the Gemini client: they raise
    exactly when no client exists yet and its construction raises, with
    that exception and before anything else is done.  Otherwise they
    return, whatever the client does when it is called: a dict exactly
    when [return_detailed_results] is on; the score lies between 0 and 1
    and is the mean of one score between 0 and 1 for each test case result
    that is not skipped, and with the flag on the dict has one row for
    each such result, in order.  When every result is skipped (no ground
    truth, no answer, no documents), the score is 0.0 and the client is
    not called. *)
Theorem X24_llm_rated_metrics_stay_in_unit_interval evaluation_data
    (instance : option Client) (x : X)
    (log : list (level * system_metrics_line)) :
  let st := ((instance, x), log) in
  let acquired := system_metrics.SystemMetrics GeminiClient st in
  let rated (metric : RawEvaluationData.t
                      → system_metrics.metric (X := X) (Client := Client)
                          rated_return)
        (skip : RawTestCaseResult.t → bool) :=
    (∀ e, acquired.1 = Raise e →
          metric evaluation_data st = (Raise e, acquired.2))
    ∧ (∀ model, acquired.1 = Ok model →
        ∃ score scores st',
          metric evaluation_data st
          = (Ok (if Config.return_detailed_results app_config
                 then RatedDict score
                        (zip_with system_metrics.detailed_row
                           (scored_results skip evaluation_data) scores)
                 else RatedFloat score),
             st')
          ∧ 0 ≤ score ∧ score ≤ 1
          ∧ Forall (λ x : Qc, 0 ≤ x ∧ x ≤ 1) scores
          ∧ length scores = length (scored_results skip evaluation_data)
          ∧ score = match scores with [] => 0 | _ => mean scores end
          ∧ (scored_results skip evaluation_data = [] →
             score = 0 ∧ st' = acquired.2)) in
  (∀ e, acquired.1 = Raise e
        ↔ instance = None ∧ (GeminiClient x).1 = Raise e)
  ∧ rated
      (system_metrics.answer_correctness GeminiClient generate_for_metrics
         app_config)
      system_metrics.answer_correctness_skips
  ∧ rated
      (system_metrics.context_utilization_rate GeminiClient
         generate_for_metrics app_config document_content repr_list)
      system_metrics.context_utilization_skips.
Proof.
  intros st acquired.
  assert (Hrated : ∀ skip prompt,
    (∀ e, acquired.1 = Raise e →
          sbind (system_metrics.SystemMetrics GeminiClient)
            (λ evaluator,
               sbind (system_metrics.score_results generate_for_metrics
                        app_config evaluator skip prompt evaluation_data)
                 (λ scored, sret (system_metrics.overall app_config scored)))
            st
          = (Raise e, acquired.2))
    ∧ (∀ model, acquired.1 = Ok model →
        ∃ score scores st',
          sbind (system_metrics.SystemMetrics GeminiClient)
            (λ evaluator,
               sbind (system_metrics.score_results generate_for_metrics
                        app_config evaluator skip prompt evaluation_data)
                 (λ scored, sret (system_metrics.overall app_config scored)))
            st
          = (Ok (if Config.return_detailed_results app_config
                 then RatedDict score
                        (zip_with system_metrics.detailed_row
                           (scored_results skip evaluation_data) scores)
                 else RatedFloat score),
             st')
          ∧ 0 ≤ score ∧ score ≤ 1
          ∧ Forall (λ x : Qc, 0 ≤ x ∧ x ≤ 1) scores
          ∧ length scores = length (scored_results skip evaluation_data)
          ∧ score = match scores with [] => 0 | _ => mean scores end
          ∧ (scored_results skip evaluation_data = [] →
             score = 0 ∧ st' = acquired.2))).
  { intros skip prompt. unfold sbind at 1, sbind at 2. fold acquired.
    destruct acquired as [[model|e] st1]; split.
    - done.
    - intros ? [= <-].
      destruct (rated_metric_returns model skip prompt evaluation_data st1)
        as (scores & st' & Hrun & Hall & Hlen & Hnone).
      destruct (mean_or_zero_unit scores Hall) as (Hlo & Hhi).
      exists (match scores with [] => 0 | _ => mean scores end), scores, st'.
      unfold sbind. rewrite Hrun. unfold sret, system_metrics.overall.
      cbn [fst snd].
      split_and!; [by destruct (Config.return_detailed_results app_config)
                  |done..|].
      intros Hempty. split; [|by apply Hnone].
      rewrite Hempty in Hlen. by destruct scores.
    - by intros ? [= <-].
    - done. }
  intros rated. split_and!.
  - intros e. apply acquire_client_raises.
  - apply Hrated.
  - apply Hrated.
Qed.

Lemma multi_hop_skips_false result :
  system_metrics.multi_hop_skips result = false
  ↔ RawTestCaseResult.question_type result = Member COMPLEX
    ∧ RawTestCaseResult.generated_answer result ≠ EmptyString
    ∧ (2 ≤ length (RawTestCaseResult.retrieved_documents result))%nat.
Proof.
  unfold system_metrics.multi_hop_skips, ne_member.
  rewrite !orb_false_iff, negb_false_iff, Nat.ltb_ge.
  destruct (RawTestCaseResult.question_type result) as [s|t].
  - split; [by intros [? _]|by intros [? _]].
  - rewrite bool_decide_eq_false.
    destruct (RawTestCaseResult.generated_answer result) as [|c answer];
      simpl.
    + split; [by intros (_ & ? & _)|by intros (_ & ? & _)].
    + split.
      * intros (Ht & _ & Hdocs). split_and!; [|done..].
        f_equal. by destruct (decide (t = COMPLEX)).
      * intros ([= ->] & _ & Hdocs). split_and!; [|done..]. by intros ?.
Qed.

(** X25.  [multi_hop_reasoning_score] rates only the results whose
    [question_type] is the member [QuestionType.COMPLEX] itself (and that
    have an answer and at least two documents): a string, ["complex"]
    included, is never equal to it.  So on a batch whose question types
    are all strings, as [_test_rag_system] builds it from test cases that
    the generator, the cache or a JSON file produced, the metric always
    reports no data: it skips every result, does not call the client, logs
    nothing and returns [None].  Like the other system metrics it raises
    when no client exists and its construction raises.  A batch that holds
    a result it does not skip is scored. *)
Theorem X25_multi_hop_reasoning_never_scores_strings
    (instance : option Client) (x : X)
    (log : list (level * system_metrics_line)) :
  let st := ((instance, x), log) in
  let acquired := system_metrics.SystemMetrics GeminiClient st in
  let multi_hop :=
    system_metrics.multi_hop_reasoning_score GeminiClient
      generate_for_metrics app_config in
  (∀ result,
     system_metrics.multi_hop_skips result = false
     ↔ RawTestCaseResult.question_type result = Member COMPLEX
       ∧ RawTestCaseResult.generated_answer result ≠ EmptyString
       ∧ (2 ≤ length (RawTestCaseResult.retrieved_documents result))%nat)
  ∧ (∀ evaluation_data e,
       acquired.1 = Raise e →
       multi_hop evaluation_data st = (Raise e, acquired.2))
  ∧ (∀ evaluation_data model,
       acquired.1 = Ok model →
       Forall (λ result,
                 ∃ s, RawTestCaseResult.question_type result = Plain s)
         (RawEvaluationData.test_case_results evaluation_data) →
       multi_hop evaluation_data st = (Ok RatedNone, acquired.2))
  ∧ (∀ data model,
       acquired.1 = Ok model →
       multi_hop (found_data data) st = (Ok RatedNone, acquired.2))
  ∧ (∀ evaluation_data model,
       acquired.1 = Ok model →
       Exists (λ result, system_metrics.multi_hop_skips result = false)
         (RawEvaluationData.test_case_results evaluation_data) →
       ∃ v st', multi_hop evaluation_data st = (Ok v, st') ∧ v ≠ RatedNone).
Proof.
  intros st acquired multi_hop.
  assert (Hstrings : ∀ evaluation_data model,
            acquired.1 = Ok model →
            Forall (λ result,
                      ∃ s, RawTestCaseResult.question_type result = Plain s)
              (RawEvaluationData.test_case_results evaluation_data) →
            multi_hop evaluation_data st = (Ok RatedNone, acquired.2)).
  { intros evaluation_data model Hmodel Hall.
    unfold multi_hop, system_metrics.multi_hop_reasoning_score.
    unfold sbind at 1. fold st acquired.
    destruct acquired as [[model'|e] st1]; [|done]. cbn [snd].
    destruct (rated_metric_returns model' system_metrics.multi_hop_skips
                system_metrics.multi_hop_prompt evaluation_data st1)
      as (scores & st' & Hrun & _ & Hlen & Hnone).
    assert (Hskipped : scored_results system_metrics.multi_hop_skips
                         evaluation_data = []).
    { unfold scored_results. induction Hall as [|result results [s Hs] _ IH];
        [done|].
      rewrite filter_cons_False; [done|].
      unfold system_metrics.multi_hop_skips. by rewrite Hs. }
    rewrite Hskipped in Hlen. destruct scores; [|done].
    unfold sbind. rewrite Hrun. cbn [fst snd]. unfold sret.
    by rewrite (Hnone Hskipped). }
  split_and!.
  - apply multi_hop_skips_false.
  - intros evaluation_data e He.
    unfold multi_hop, system_metrics.multi_hop_reasoning_score.
    unfold sbind at 1. fold st acquired.
    destruct acquired as [[model|e'] st1]; [done|]. by injection He as ->.
  - exact Hstrings.
  - intros data model Hmodel. apply (Hstrings _ model Hmodel).
    unfold found_data. cbn [RawEvaluationData.test_case_results].
    apply Forall_fmap, Forall_true. intros result. by eexists.
  - intros evaluation_data model Hmodel Hsome.
    unfold multi_hop, system_metrics.multi_hop_reasoning_score.
    unfold sbind at 1. fold st acquired.
    destruct acquired as [[model'|e] st1]; [|done].
    destruct (rated_metric_returns model' system_metrics.multi_hop_skips
                system_metrics.multi_hop_prompt evaluation_data st1)
      as (scores & st' & Hrun & _ & Hlen & _).
    unfold sbind. rewrite Hrun. cbn [fst snd].
    assert (scores ≠ []) as Hne.
    { intros ->. symmetry in Hlen. apply nil_length_inv in Hlen.
      unfold scored_results in Hlen.
      apply Exists_exists in Hsome as (result & Hin & Hskip).
      assert (result ∈ filter (λ result,
                                 system_metrics.multi_hop_skips result = false)
                (RawEvaluationData.test_case_results evaluation_data)) as Hmem
        by by apply list_elem_of_filter.
      rewrite Hlen in Hmem. by apply elem_of_nil in Hmem. }
    destruct scores as [|score scores]; [done|].
    unfold sret, system_metrics.overall. do 2 eexists. split; [done|].
    by destruct (Config.return_detailed_results app_config).
Qed.

End SystemMetricsProperties.

(** *** Context precision *)

Lemma Qc_of_nat_succ (n : nat) : Qc_of_nat (S n) = 1 + Qc_of_nat n.
Proof. apply Qc_of_nat_S. Qed.

Lemma Qc_of_nat_le (n m : nat) : (n ≤ m)%nat → Qc_of_nat n ≤ Qc_of_nat m.
Proof.
  intros Hnm. unfold Qc_of_nat, Qcle. simpl. rewrite !Qred_correct.
  unfold Qle, inject_Z. simpl. lia.
Qed.

Lemma Qc_of_nat_positive (n : nat) : (0 < n)%nat → 0 < Qc_of_nat n.
Proof. intros Hn. destruct n; [lia|]. apply Qc_of_nat_pos. Qed.

Lemma ratio_unit (n m : nat) :
  (0 < m)%nat → (n ≤ m)%nat →
  ∃ ratio, Py.truediv (Qc_of_nat n) (Qc_of_nat m) = Ok ratio
           ∧ 0 ≤ ratio ∧ ratio ≤ 1.
Proof.
  intros Hm Hnm. pose proof (Qc_of_nat_positive m Hm) as Hpos.
  rewrite truediv_nonzero by by apply Qc_pos_nonzero.
  eexists. split; [done|].
  assert (Hmul : Qc_of_nat n / Qc_of_nat m * Qc_of_nat m = Qc_of_nat n).
  { rewrite Qcmult_comm. apply Qcmult_div_r. by apply Qc_pos_nonzero. }
  split; apply (Qcmult_lt_0_le_reg_r _ _ _ Hpos); rewrite Hmul.
  - rewrite Qcmult_0_l. apply (Qc_of_nat_le 0). lia.
  - rewrite Qcmult_1_l. by apply Qc_of_nat_le.
Qed.

Lemma precision_loop_bounds relevance k relevant_count (precision_sum : Qc) :
  (relevant_count < k)%nat →
  ∃ total,
    precision_loop relevance k relevant_count precision_sum = Ok total
    ∧ precision_sum ≤ total
    ∧ total ≤ precision_sum + Qc_of_nat (sum_list relevance).
Proof.
  revert k relevant_count precision_sum.
  induction relevance as [|r relevance IH];
    intros k relevant_count precision_sum Hk.
  - exists precision_sum. simpl. split_and!; [done|apply Qcle_refl|].
    rewrite <-(Qcplus_0_r precision_sum) at 1.
    apply Qcplus_le_compat; [apply Qcle_refl|by vm_compute].
  - cbn [precision_loop]. destruct r as [|r].
    + apply IH. lia.
    + destruct (ratio_unit (S relevant_count) k) as (ratio & -> & Hlo & Hhi);
        [lia..|].
      cbn [rbind].
      destruct (IH (S k) (S relevant_count) (precision_sum + ratio))
        as (total & -> & Hge & Hle); [lia|].
      exists total. split_and!; [done| |].
      * apply Qcle_trans with (y := precision_sum + ratio); [|done].
        rewrite <-(Qcplus_0_r precision_sum) at 1.
        by apply Qcplus_le_compat; [apply Qcle_refl|].
      * apply Qcle_trans with (1 := Hle).
        cbn [sum_list].
        apply Qcle_trans
          with (y := precision_sum + (1 + Qc_of_nat (sum_list relevance))).
        -- rewrite <-Qcplus_assoc. apply Qcplus_le_compat; [apply Qcle_refl|].
           apply Qcplus_le_compat; [done|apply Qcle_refl].
        -- apply Qcplus_le_compat; [apply Qcle_refl|].
           rewrite <-Qc_of_nat_succ. apply Qc_of_nat_le. simpl. lia.
Qed.

Lemma float_of_int_small n :
  (Z.of_nat n < float_int_limit)%Z → float_of_int n = Some (Qc_of_nat n).
Proof.
  intros Hn. unfold float_of_int. by rewrite (proj2 (Z.ltb_lt _ _) Hn).
Qed.

Lemma float_of_int_large n :
  (float_int_limit ≤ Z.of_nat n)%Z → float_of_int n = None.
Proof.
  intros Hn. unfold float_of_int. by rewrite (proj2 (Z.ltb_ge _ _) Hn).
Qed.

Lemma precision_of_unit relevance :
  (Z.of_nat (sum_list relevance) < float_int_limit)%Z →
  ∃ precision,
    precision_of relevance = inr precision ∧ 0 ≤ precision ∧ precision ≤ 1.
Proof.
  intros Hsmall. unfold precision_of.
  destruct (precision_loop_bounds relevance 1 0 0) as (total & -> & Hlo & Hhi);
    [lia|].
  rewrite Qcplus_0_l in Hhi.
  destruct (0 <? sum_list relevance)%nat eqn:Hsum.
  - apply Nat.ltb_lt in Hsum. rewrite (float_of_int_small _ Hsmall).
    pose proof (Qc_of_nat_positive _ Hsum) as Hpos.
    rewrite truediv_nonzero by by apply Qc_pos_nonzero.
    eexists. split; [done|].
    assert (Hmul : total / Qc_of_nat (sum_list relevance)
                   * Qc_of_nat (sum_list relevance) = total).
    { rewrite Qcmult_comm. apply Qcmult_div_r. by apply Qc_pos_nonzero. }
    split; apply (Qcmult_lt_0_le_reg_r _ _ _ Hpos); rewrite Hmul.
    + by rewrite Qcmult_0_l.
    + by rewrite Qcmult_1_l.
  - exists 0. split; [done|]. split; by vm_compute.
Qed.

Lemma float_int_limit_positive : (0 < float_int_limit)%Z.
Proof. by vm_compute. Qed.

Lemma precision_of_too_large relevance :
  (float_int_limit ≤ Z.of_nat (sum_list relevance))%Z →
  precision_of relevance = inl IntTooLargeForFloat.
Proof.
  intros Hlarge. unfold precision_of.
  destruct (precision_loop_bounds relevance 1 0 0) as (total & -> & _);
    [lia|].
  pose proof float_int_limit_positive as Hpos.
  rewrite (proj2 (Nat.ltb_lt 0 (sum_list relevance))) by lia.
  by rewrite (float_of_int_large _ Hlarge).
Qed.

Lemma precision_of_bounded relevance :
  match precision_of relevance with
  | inr precision => 0 ≤ precision ∧ precision ≤ 1
  | inl e => e = IntTooLargeForFloat
  end.
Proof.
  destruct (Z.lt_ge_cases (Z.of_nat (sum_list relevance)) float_int_limit)
    as [Hsmall|Hlarge].
  - by destruct (precision_of_unit _ Hsmall) as (p & -> & ?).
  - by rewrite (precision_of_too_large _ Hlarge).
Qed.

Lemma precision_loop_zeros b k relevant_count (precision_sum : Qc) :
  precision_loop (replicate b 0%nat) k relevant_count precision_sum
  = Ok precision_sum.
Proof. revert k. induction b as [|b IH]; intros k; [done|]. apply IH. Qed.

Lemma precision_loop_ones a rest k (precision_sum : Qc) :
  (0 < k)%nat →
  precision_loop (replicate a 1%nat ++ rest) k (k - 1) precision_sum
  = precision_loop rest (k + a) (k - 1 + a) (precision_sum + Qc_of_nat a).
Proof.
  revert k precision_sum. induction a as [|a IH]; intros k precision_sum Hk.
  - cbn [replicate app]. rewrite !Nat.add_0_r. f_equal.
    change (Qc_of_nat 0) with (0 : Qc). by rewrite Qcplus_0_r.
  - cbn [replicate app precision_loop].
    replace (S (k - 1)) with k by lia.
    pose proof (Qc_of_nat_positive k Hk) as Hpos.
    rewrite truediv_nonzero by by apply Qc_pos_nonzero. cbn [rbind].
    replace k with (S k - 1)%nat at 2 by lia.
    rewrite IH by lia. f_equal; [lia..|].
    rewrite Qc_of_nat_succ.
    assert (Qc_of_nat k / Qc_of_nat k = 1) as ->.
    { apply Qcmult_inv_r. by apply Qc_pos_nonzero. }
    ring.
Qed.

Section ContextPrecisionProperties.
Context {X Client : Type}.
Variable GeminiClient : X → result Client * X.
Variable generate_for_metrics : Client → string → X → result string * X.
Variable relevance_array : string → option (list nat).
Variable app_config : Config.t.
Variable document_content : Document → string.

Lemma judged_precision_unit model result
    (st : option Client * X * list (level * context_precision_line)) :
  ∃ precision st',
    retrieval_metrics.judged_precision generate_for_metrics relevance_array
      document_content model result st
    = (Ok precision, st')
    ∧ 0 ≤ precision ∧ precision ≤ 1.
Proof.
  unfold retrieval_metrics.judged_precision. destruct model as [client|].
  - unfold sbind, stry, retrieval_metrics.with_client, slog, sret.
    cbn [fst snd].
    destruct (generate_for_metrics _ _ _) as [[response|e] x'].
    + destruct (relevance_array response) as [relevance|].
      * pose proof (precision_of_bounded relevance) as Hp.
        destruct (precision_of relevance) as [e|p].
        -- do 2 eexists. split; [done|]. split; by vm_compute.
        -- by do 2 eexists.
      * do 2 eexists. split; [done|]. split; by vm_compute.
    + do 2 eexists. split; [done|]. split; by vm_compute.
  - do 2 eexists. split; [reflexivity|]. split; by vm_compute.
Qed.

Lemma context_precision_loop model results total count rows
    (st : option Client * X * list (level * context_precision_line)) :
  0 ≤ total → total ≤ Qc_of_nat count →
  ∃ total' count' rows' st',
    sfor_each results
      (λ result (acc : Qc * nat * list DetailedRow.t),
         let '(total_precision, count, detailed_results) := acc in
         if retrieval_metrics.context_precision_skips result then sret acc
         else
           sbind (retrieval_metrics.judged_precision generate_for_metrics
                    relevance_array document_content model result)
             (λ precision,
                sret (total_precision + precision, S count,
                      if Config.return_detailed_results app_config
                      then detailed_results
                           ++ [system_metrics.detailed_row result precision]
                      else detailed_results)))
      (total, count, rows) st
    = (Ok (total', count', rows'), st')
    ∧ 0 ≤ total' ∧ total' ≤ Qc_of_nat count'
    ∧ (count ≤ count')%nat
    ∧ (count' - count)%nat
      = length (filter (λ result,
                          retrieval_metrics.context_precision_skips result
                          = false) results)
    ∧ length rows'
      = if Config.return_detailed_results app_config
        then (length rows + (count' - count))%nat
        else length rows.
Proof.
  revert total count rows st.
  induction results as [|result results IH]; intros total count rows st Hlo Hhi.
  - exists total, count, rows, st. split_and!; try done.
    + simpl. lia.
    + destruct (Config.return_detailed_results app_config); lia.
  - cbn [sfor_each].
    destruct (retrieval_metrics.context_precision_skips result) eqn:Hskip.
    + unfold sbind at 1, sret at 1.
      rewrite filter_cons_False by (by rewrite Hskip). by apply IH.
    + rewrite filter_cons_True by done.
      destruct (judged_precision_unit model result st)
        as (p & st1 & Hrun & Hplo & Hphi).
      unfold sbind at 1. unfold sbind at 1. rewrite Hrun. unfold sret at 1.
      destruct (IH (total + p) (S count)
                  (if Config.return_detailed_results app_config
                   then rows ++ [system_metrics.detailed_row result p]
                   else rows) st1)
        as (total' & count' & rows' & st' & -> & ? & ? & ? & Hcount & Hrows).
      * by apply Qcplus_nonneg_nonneg.
      * rewrite Qc_of_nat_succ, Qcplus_comm. by apply Qcplus_le_compat.
      * exists total', count', rows', st'.
        split_and!; [done..|lia|cbn [length]; lia|].
        rewrite Hrows.
        destruct (Config.return_detailed_results app_config); [|done].
        rewrite length_app. simpl. lia.
Qed.

(** X26.  The precision that [context_precision] computes from the array
    of an LLM answer lies between 0 and 1 as long as the sum of the array
    can be converted to a float; from [2**1024 - 2**970] on the conversion
    raises, which the [try] block turns into the precision 0.0.  The
    precision is 0.0 when no entry is set and 1.0 when the entries that
    are set are ones and come first.  [context_precision] starts with
    [get_gemini_client()]: it raises exactly when no client exists yet
    and its construction raises, with that exception.  Otherwise it
    returns, whatever the client and the parsing of its answers do: a dict
    exactly when [return_detailed_results] is on, with one row for each
    test case result that is not skipped, and its score lies between 0
    and 1. *)
Theorem X26_context_precision_stays_in_unit_interval :
  (∀ relevance,
     (Z.of_nat (sum_list relevance) < float_int_limit)%Z →
     ∃ precision,
       precision_of relevance = inr precision ∧ 0 ≤ precision ∧ precision ≤ 1)
  ∧ (∀ relevance,
       (float_int_limit ≤ Z.of_nat (sum_list relevance))%Z →
       precision_of relevance = inl IntTooLargeForFloat)
  ∧ (∀ relevance,
       Forall (λ r, r = 0%nat) relevance → precision_of relevance = inr 0)
  ∧ (∀ a b,
       (0 < a)%nat → (Z.of_nat a < float_int_limit)%Z →
       precision_of (replicate a 1%nat ++ replicate b 0%nat) = inr 1)
  ∧ (∀ evaluation_data (instance : option Client) (x : X)
       (log : list (level * context_precision_line)),
       let st := ((instance, x), log) in
       let acquired := silently (get_gemini_client GeminiClient) st in
       let run :=
         retrieval_metrics.context_precision GeminiClient generate_for_metrics
           relevance_array app_config document_content evaluation_data st in
       (∀ e, acquired.1 = Raise e
             ↔ instance = None ∧ (GeminiClient x).1 = Raise e)
       ∧ (∀ e, acquired.1 = Raise e → run = (Raise e, acquired.2))
       ∧ (∀ model, acquired.1 = Ok model →
            ∃ score rows st',
              run = (Ok (if Config.return_detailed_results app_config
                         then RatedDict score rows else RatedFloat score),
                     st')
              ∧ 0 ≤ score ∧ score ≤ 1
              ∧ length rows
                = if Config.return_detailed_results app_config
                  then length (scored_results
                                 retrieval_metrics.context_precision_skips
                                 evaluation_data)
                  else 0%nat)).
Proof.
  split_and!.
  - apply precision_of_unit.
  - apply precision_of_too_large.
  - intros relevance Hzero.
    assert (Hrep : relevance = replicate (length relevance) 0%nat).
    { induction Hzero as [|r rs -> _ IH]; [done|]. simpl. by f_equal. }
    rewrite Hrep. unfold precision_of. rewrite precision_loop_zeros.
    by rewrite sum_list_replicate, Nat.mul_0_r.
  - intros a b Ha Hsmall. unfold precision_of.
    pose proof (precision_loop_ones a (replicate b 0%nat) 1 0
                  ltac:(lia)) as Hones.
    cbn [Nat.sub] in Hones. rewrite Hones.
    rewrite precision_loop_zeros.
    rewrite sum_list_append, !sum_list_replicate, Nat.mul_0_r, Nat.mul_1_r,
      Nat.add_0_r, Qcplus_0_l.
    apply Nat.ltb_lt in Ha as Hltb. rewrite Hltb.
    rewrite (float_of_int_small _ Hsmall).
    pose proof (Qc_of_nat_positive a Ha) as Hpos.
    rewrite truediv_nonzero by by apply Qc_pos_nonzero. f_equal.
    apply Qcmult_inv_r. by apply Qc_pos_nonzero.
  - intros evaluation_data instance x log st acquired run. split_and!.
    + intros e. apply acquire_client_raises.
    + intros e He. unfold run, retrieval_metrics.context_precision.
      unfold sbind at 1. fold st acquired.
      destruct acquired as [[model|e'] st1]; [done|]. by injection He as ->.
    + intros model Hmodel. unfold run, retrieval_metrics.context_precision.
      unfold sbind at 1. fold st acquired.
      destruct acquired as [[model'|e] st1]; [|done].
      destruct (context_precision_loop model'
                  (RawEvaluationData.test_case_results evaluation_data)
                  0 0%nat [] st1)
        as (total & count & rows & st' & Hrun & Hlo & Hhi & _ & Hcount & Hrows);
        [by vm_compute..|].
      unfold sbind at 1. rewrite Hrun.
      rewrite Nat.sub_0_r in Hcount, Hrows. cbn [length] in Hrows.
      assert (length rows
              = if Config.return_detailed_results app_config
                then length (scored_results
                               retrieval_metrics.context_precision_skips
                               evaluation_data)
                else 0%nat) as Hlen.
      { rewrite Hrows. unfold scored_results. rewrite <-Hcount.
        by destruct (Config.return_detailed_results app_config). }
      destruct (0 <? count)%nat eqn:Hpositive.
      * apply Nat.ltb_lt in Hpositive.
        pose proof (Qc_of_nat_positive count Hpositive) as Hpos.
        unfold sbind, slift.
        rewrite truediv_nonzero by by apply Qc_pos_nonzero.
        exists (total / Qc_of_nat count), rows, st'.
        assert (Hmul : total / Qc_of_nat count * Qc_of_nat count = total).
        { rewrite Qcmult_comm. apply Qcmult_div_r. by apply Qc_pos_nonzero. }
        split_and!.
        -- by destruct (Config.return_detailed_results app_config).
        -- apply (Qcmult_lt_0_le_reg_r _ _ _ Hpos).
           by rewrite Hmul, Qcmult_0_l.
        -- apply (Qcmult_lt_0_le_reg_r _ _ _ Hpos).
           by rewrite Hmul, Qcmult_1_l.
        -- done.
      * exists 0, rows, st'. unfold sbind, sret.
        split_and!; [|by vm_compute..|done].
        by destruct (Config.return_detailed_results app_config).
Qed.

End ContextPrecisionProperties.

(** ** Instances of the properties above *)

Lemma X6_witness :
  (∃ r s', @evaluate detailed_run (shared_metric_config "context_recall")
             sample_test_cases (@GQMFramework_init detailed_run ())
           = (Ok r, s'))
  ∧ ∀ e s', @evaluate plain_run (shared_metric_config "context_recall")
              sample_test_cases (@GQMFramework_init plain_run ())
            = (Raise e, s') → e = TypeError.
Proof.
  split.
  - exact (proj2 (X6_evaluate_raises_only_type_error (H := detailed_run)
                    (shared_metric_config "context_recall") sample_test_cases
                    (@GQMFramework_init detailed_run ()))
             eq_refl).
  - intros e s' Hrun.
    exact (proj1 (proj1 (X6_evaluate_raises_only_type_error (H := plain_run)
                           (shared_metric_config "context_recall")
                           sample_test_cases
                           (@GQMFramework_init plain_run ()))
                    e s' Hrun)).
Defined.

Lemma X7_witness :
  let run := @evaluate plain_run mixed_question_config sample_test_cases
               (@GQMFramework_init plain_run ()) in
  queried run.2
  = ["what is a cache"; "broken"; "what is a goal"].
Proof.
  intros run.
  exact (X7_evaluate_queries_each_test_case_once (H := plain_run)
           mixed_question_config sample_test_cases
           (@GQMFramework_init plain_run ()) run.1 run.2
           (surjective_pairing run)).
Defined.

Lemma X8_witness :
  let run := @evaluate plain_run mixed_question_config sample_test_cases
               (@GQMFramework_init plain_run ()) in
  @cache_keyed plain_run run.2.
Proof.
  intros run.
  exact (proj1 (proj2 (X8_cache_entries_are_keyed_by_their_metric
                         (H := plain_run)))
           mixed_question_config sample_test_cases
           (@GQMFramework_init plain_run ()) run.1 run.2
           (or_introl (surjective_pairing run))
           (proj1 (X8_cache_entries_are_keyed_by_their_metric
                     (H := plain_run)) ())).
Defined.

Lemma X9_witness :
  let run := @evaluate plain_run mixed_question_config sample_test_cases
               (@GQMFramework_init plain_run ()) in
  ∃ new,
    executed run.2 = new
    ∧ sublist new ["faithfulness"; "multi_hop_reasoning"].
Proof.
  intros run.
  destruct (X9_only_configured_metrics_are_executed (H := plain_run)
              mixed_question_config sample_test_cases
              (@GQMFramework_init plain_run ()) run.1 run.2
              (surjective_pairing run))
    as (new & Hnew & Hsub & _).
  exists new. split; [exact Hnew|exact Hsub].
Defined.

Lemma X10_witness :
  let run := @pipeline_evaluate plain_run mixed_question_config
               sample_test_cases (@GQMFramework_init plain_run ()) in
  ∃ r sc doc,
    run.1 = Ok r
    ∧ EvaluationResult.score r = Ok sc
    ∧ to_dict r = Ok doc.
Proof.
  intros run.
  assert (∃ r, run = (Ok r, run.2)) as [r Hrun].
  { eexists. rewrite (surjective_pairing run) at 1. f_equal; by vm_compute. }
  destruct (X10_pipeline_results_have_a_document (H := plain_run)
              mixed_question_config sample_test_cases
              (@GQMFramework_init plain_run ()) r run.2 Hrun)
    as (sc & doc & Hsc & _ & Hdoc & _).
  exists r, sc, doc. split_and!; [by rewrite Hrun|exact Hsc|exact Hdoc].
Defined.

Lemma X11_witness :
  MetricId_of_value "faithfulness" = Ok FAITHFULNESS
  ∧ MetricId_value FAITHFULNESS = "faithfulness".
Proof.
  split; [reflexivity|].
  exact (proj1 (proj2 X11_metric_identifiers_round_trip)
           "faithfulness" FAITHFULNESS eq_refl).
Defined.

Lemma X13_witness :
  let run := @evaluate plain_run mixed_question_config sample_test_cases
               (@GQMFramework_init plain_run ()) in
  ∃ r, run.1 = Ok r
       ∧ GoalResult.goal_name <$> EvaluationResult.goals r = ["G"].
Proof.
  intros run.
  assert (∃ r, run = (Ok r, run.2)) as [r Hrun].
  { eexists. rewrite (surjective_pairing run) at 1. f_equal; by vm_compute. }
  exists r. split; [by rewrite Hrun|].
  exact (proj1 (X13_result_keeps_configured_order (H := plain_run)
                  mixed_question_config sample_test_cases
                  (@GQMFramework_init plain_run ()) r run.2 Hrun)).
Defined.

Lemma X15_witness :
  _apply_mappings_to_config (EvaluationConfig.make [bare_question_goal])
    {[ 0%nat := [] ]}
  = EvaluationConfig.make [bare_question_goal].
Proof.
  apply (proj1 (proj2 (X15_apply_mappings_keeps_the_configuration
                         (EvaluationConfig.make [bare_question_goal])
                         {[ 0%nat := [] ]}))).
  intros [|i] Hi; [reflexivity|simpl in Hi; lia].
Defined.

Lemma X16_witness :
  let served :=
    _apply_mappings_to_config (EvaluationConfig.make [bare_question_goal])
      {[ 0%nat := [("faithfulness", 1)] ]} in
  _collect_questions_data served = []
  ∧ (_needs_metric_mapping ".env" true sample_environ served (None, [])).1
    = Ok false
  ∧ (_needs_metric_mapping ".env" true ∅ served (None, [])).1
    = Raise ValueError.
Proof.
  intros served.
  destruct (X16_needs_mapping_until_every_question_is_served
              ".env" true sample_environ
              (EvaluationConfig.make [bare_question_goal])
              {[ 0%nat := [("faithfulness", 1)] ]} None [])
    as (_ & _ & _ & Hserved).
  destruct Hserved as [Hnil Hfalse].
  { intros [|i] Hi; [done|simpl in Hi; lia]. }
  split_and!; [exact Hnil| |].
  - eapply Hfalse. by vm_compute.
  - refine (f_equal fst
              (proj1 (X16_needs_mapping_until_every_question_is_served
                        ".env" true ∅
                        (EvaluationConfig.make [bare_question_goal])
                        {[ 0%nat := [("faithfulness", 1)] ]} None [])
                 ValueError _)).
    by vm_compute.
Defined.

Lemma X17_witness :
  generate_test_cases (W := ()) (λ _ _ _ w, (Ok sample_test_cases, w))
    [("simple", [("count", JNum 2)]); ("easy", []); ("complex", [])]
    false ((), [])
  = (Ok sample_test_cases,
     ((), [(INFO, "Generating test cases");
           (WARNING, "Unknown question type: easy")])).
Proof.
  refine (proj2 (proj2 (X17_generate_test_cases_sorts_question_types
                          (W := ()) (λ _ _ _ w, (Ok sample_test_cases, w))
                          [("simple", [("count", JNum 2)]); ("easy", []);
                           ("complex", [])]
                          false () [] _)) _).
  - apply (bool_decide_unpack _). by vm_compute.
  - by vm_compute.
Defined.

Lemma X18_witness :
  let out :=
    config_py.ConfigLoader.load (W := ()) ".env" true sample_environ
      ((), []) in
  ∃ c, out.1 = Ok c
       ∧ config_py.Config.validate c = Ok ()
       ∧ Config.return_detailed_results (framework_config c) = true.
Proof.
  intros out.
  assert (∃ c, out.1 = Ok c) as [c Hc] by (eexists; by vm_compute).
  exists c.
  destruct (proj1 (proj2 (X18_load_requires_the_four_settings
                            ".env" true sample_environ [])) c Hc)
    as (Hvalid & _ & _ & _ & Hflag & _).
  split_and!; [exact Hc|exact Hvalid|].
  apply Hflag. exists "Yes". split; [by vm_compute|].
  apply (bool_decide_unpack _). by vm_compute.
Defined.

Lemma X19_witness :
  let out := config_py.get_config ".env" true sample_environ (None, []) in
  ∃ c, out.1 = Ok c
       ∧ config_py.get_config "elsewhere" false ∅ (out.2.1, [])
         = (Ok c, (Some c, [])).
Proof.
  intros out.
  assert (∃ c, out.1 = Ok c) as [c Hc] by (eexists; by vm_compute).
  exists c. split; [exact Hc|].
  exact (proj2 (proj2 (proj1 (proj2 (X19_get_config_loads_once
                                       ".env" true sample_environ None []))
                         c Hc))
           "elsewhere" false ∅ []).
Defined.

Lemma X20_witness :
  let gc := (["simple"], [("simple", 2%Z)]) in
  let writable := λ (_ : string) (_ : ()), true in
  let unscrutinized :=
    RawTestCase.init (JStr "what is a cache") (JStr "a store")
      (Member SIMPLE) JNull in
  let st1 :=
    (cache_questions (X := ()) (Some "idx") sample_hash writable
       (raw <$> sample_test_cases) gc ((∅, ()), [])).2 in
  let st2 :=
    (cache_questions (X := ()) (Some "idx") sample_hash writable
       [unscrutinized] gc st1).2 in
  (get_cached_questions (Some "idx") sample_hash gc st1).1
  = Ok (Some (raw <$> sample_test_cases))
  ∧ (get_cached_questions (Some "idx") sample_hash gc st2).1 = Ok None.
Proof.
  intros gc writable unscrutinized st1 st2. split.
  - destruct (X20_question_cache_round_trip (X := ())
                (Some "idx") sample_hash writable ∅ () []
                (raw <$> sample_test_cases) gc)
      as (_ & _ & _ & Hback & _).
    destruct Hback as [Hback _]; [done|repeat constructor; by eexists|].
    exact (f_equal fst Hback).
  - destruct (X20_question_cache_round_trip (X := ())
                (Some "idx") sample_hash writable st1.1.1 () st1.2
                [unscrutinized] gc)
      as (_ & _ & _ & _ & Hlost & _).
    destruct Hlost as [_ Hlost];
      [done|constructor; by exists SIMPLE|].
    exact (f_equal fst Hlost).
Defined.

Lemma X21_witness :
  let writable := λ (_ : string) (_ : ()), true in
  let generate :=
    generate_questions (X := ()) (Some "idx") sample_hash writable
      sample_index sample_question_writer [SIMPLE] [(SIMPLE, 1%Z)] in
  let run := generate true ((∅, ()), []) in
  ∃ qs, run.1 = Ok qs ∧ (generate false (run.2.1, [])).1 = Ok qs.
Proof.
  intros writable generate run.
  assert (∃ qs, run = (Ok qs, run.2) ∧ qs ≠ []
                ∧ Forall (λ tc, ∃ v, RawTestCase.question_type tc = Plain v) qs
                ∧ RawTestCase.__post_init__ <$> qs = qs)
    as (qs & Hrun & Hne & Hplain & Hsame).
  { eexists. split_and!.
    - rewrite (surjective_pairing run) at 1. f_equal; by vm_compute.
    - done.
    - repeat constructor; by eexists.
    - done. }
  exists qs. split; [by rewrite Hrun|].
  rewrite <-Hsame at 1.
  exact (f_equal fst
           (proj1 (X21_questions_are_generated_once (X := ())
                     (Some "idx") sample_hash writable sample_index
                     sample_question_writer [SIMPLE] [(SIMPLE, 1%Z)]
                     ∅ () [])
              true qs run.2 Hrun Hne (or_intror (conj eq_refl Hplain)) [])).
Defined.

Lemma X22_witness :
  ∃ contexts,
    _prepare_contexts (Doc := string) id reverse ["a"; "b"; "c"]
      [SIMPLE; COMPLEX] [(SIMPLE, 2%Z)]
    = Ok contexts
    ∧ GenerationContext.id <$> contexts = [0; 1; 2]%nat.
Proof.
  destruct (proj1 (X22_contexts_take_documents_in_turn (Doc := string)
                     id reverse ["a"; "b"; "c"] [SIMPLE; COMPLEX]
                     [(SIMPLE, 2%Z)]))
    as (contexts & Hrun & Hids & _); [done|].
  exists contexts. split; [exact Hrun|exact Hids].
Defined.

Lemma X23_witness :
  _calculate_documents_needed [(SIMPLE, 2%Z)] = 7%Z
  ∧ ∃ contexts,
      _prepare_contexts (Doc := string) id reverse
        ["a"; "b"; "c"; "d"; "e"; "f"; "g"] [SIMPLE] [(SIMPLE, 2%Z)]
      = Ok contexts
      ∧ concat (GenerationContext.source_docs <$> contexts) = ["g"; "f"].
Proof.
  split; [reflexivity|].
  destruct (X23_documents_needed_cover_the_contexts (Doc := string)
              id reverse [(SIMPLE, 2%Z)]
              ["a"; "b"; "c"; "d"; "e"; "f"; "g"])
    as (_ & Hrun).
  - apply (bool_decide_unpack _). by vm_compute.
  - repeat constructor. simpl. lia.
  - destruct Hrun as (contexts & Hrun & Hdocs & _); [reflexivity|].
    exists contexts. split; [exact Hrun|exact Hdocs].
Defined.

Lemma X24_witness :
  ∃ score scores st',
    system_metrics.answer_correctness sample_client sample_rater
      (Config.make true false)
      (RawEvaluationData.make [sample_string_typed]) ((None, ()), [])
    = (Ok (RatedDict score
             (zip_with system_metrics.detailed_row [sample_string_typed]
                scores)),
       st')
    ∧ 0 ≤ score ∧ score ≤ 1.
Proof.
  destruct (proj2 (proj1 (proj2 (X24_llm_rated_metrics_stay_in_unit_interval
                                   (X := ()) sample_client sample_rater
                                   (Config.make true false) id
                                   (String.concat ", ")
                                   (RawEvaluationData.make
                                      [sample_string_typed])
                                   None () [])))
              (Some ()) eq_refl)
    as (score & scores & st' & Hrun & Hlo & Hhi & _).
  by exists score, scores, st'.
Defined.

Lemma X25_witness :
  let multi_hop :=
    system_metrics.multi_hop_reasoning_score (X := ()) sample_client
      sample_rater (Config.make false false) in
  multi_hop (RawEvaluationData.make [sample_string_typed]) ((None, ()), [])
  = (Ok RatedNone, ((Some (), ()), []))
  ∧ ∃ v st',
      multi_hop (RawEvaluationData.make [sample_member_typed])
        ((None, ()), [])
      = (Ok v, st')
      ∧ v ≠ RatedNone.
Proof.
  intros multi_hop.
  destruct (X25_multi_hop_reasoning_never_scores_strings (X := ())
              sample_client sample_rater (Config.make false false) None () [])
    as (_ & _ & Hstrings & _ & Hscored).
  split.
  - apply (Hstrings (RawEvaluationData.make [sample_string_typed]) (Some ())
             eq_refl).
    repeat constructor. by eexists.
  - apply (Hscored (RawEvaluationData.make [sample_member_typed]) (Some ())
             eq_refl).
    by constructor.
Defined.

Lemma X26_witness :
  precision_of [1; 1; 0]%nat = inr 1 ∧ precision_of [0; 0]%nat = inr 0.
Proof.
  split.
  - exact (proj1 (proj2 (proj2 (proj2
             (X26_context_precision_stays_in_unit_interval
                (X := ()) sample_client sample_rater (λ _, None)
                (Config.make false false) id))))
             2%nat 1%nat ltac:(lia) ltac:(by vm_compute)).
  - apply (proj1 (proj2 (proj2 (X26_context_precision_stays_in_unit_interval
                                  (X := ()) sample_client sample_rater
                                  (λ _, None) (Config.make false false) id)))).
    by repeat constructor.
Defined.

Lemma X27_witness :
  let create := create_gemini_client (X := ()) (λ x, (Ok 7%nat, x)) in
  let run := create ((None, ()), []) in
  run.1 = Ok 7%nat
  ∧ create run.2
    = (Raise (RuntimeError "Gemini client instance already exists"), run.2).
Proof.
  intros create run.
  assert (run = (Ok 7%nat, run.2)) as Hrun by reflexivity.
  split; [reflexivity|].
  exact (proj1 (proj2 (proj1 (X27_one_gemini_client_per_process (X := ())
                                (λ x, (Ok 7%nat, x)) ((None, ()), []))
                         7%nat run.2 Hrun))).
Defined.
